(** * funnel-guard: the analytical core, embedded and verified

    Shallow embedding of the three stages of the pipeline
    ([FunnelAnalyzer.ts], [BreakDetector.ts], [CauseAnalyzer.ts]) together
    with the entities they exchange and the helpers of [utils/time.ts].

    Conventions of the embedding

    - a JavaScript [number] is an IEEE-754 binary64 value: Rocq's primitive
      [float], with [<?], [<=?] and [=?] for [<], [<=] and [===];
    - strings are [string]; enums are inductive types carrying their string
      token ([stageToken], [categoryToken], ...);
    - a JavaScript [Map] is an association list in insertion order;
    - [Array.prototype.sort] is a stable insertion sort driven by the sign of
      the comparator's result;
    - what the host provides and the repository only calls ([localeCompare],
      dayjs, [Math.exp], [toFixed]) is gathered in the class [Host];
    - the wall clock read by [now()] is an explicit stream of readings that
      the cause analyzer consumes. *)

From Stdlib Require Import ZArith Zpower List String Ascii Bool Floats Lia.
From Stdlib Require Import Permutation Sorted DecimalString.
From Stdlib Require Uint63.
Import ListNotations.

Set Implicit Arguments.
Set Warnings "-inexact-float".

(** ** JavaScript numbers *)

Module Num.

Definition number := float.

(** An array length seen as a number. *)
Definition ofNat (n : nat) : number :=
  of_uint63 (Uint63.of_Z (Z.of_nat n)).

(** [a > b] and [a >= b]. *)
Definition gtb (a b : number) : bool := (b <? a)%float.
Definition geb (a b : number) : bool := (b <=? a)%float.

(** [Math.max] and [Math.min] on two arguments: NaN is contagious and
    [+0] is larger than [-0]. *)
Definition Math_max (a b : number) : number :=
  if is_nan a || is_nan b then nan
  else if (a <? b)%float then b
  else if (b <? a)%float then a
  else if get_sign a then b else a.

Definition Math_min (a b : number) : number :=
  if is_nan a || is_nan b then nan
  else if (a <? b)%float then a
  else if (b <? a)%float then b
  else if get_sign a then a else b.

(** [x ** 2]. *)
Definition square (x : number) : number := (x * x)%float.

(** [values.reduce((sum, v) => sum + v, 0)]. *)
Definition sum (values : list number) : number :=
  fold_left (fun acc v => (acc + v)%float) values 0%float.

End Num.

(** ** JavaScript strings *)

Module Str.

Definition pipe : ascii := "|"%char.

(** [s.split(sep)] for a one-character separator. *)
Fixpoint split (sep : ascii) (s : string) : list string :=
  match s with
  | EmptyString => [EmptyString]
  | String c s' =>
      if Ascii.eqb c sep then EmptyString :: split sep s'
      else match split sep s' with
           | seg :: segs => String c seg :: segs
           | [] => [String c EmptyString]
           end
  end.

(** Does the character occur in the string? *)
Fixpoint mem (c : ascii) (s : string) : bool :=
  match s with
  | EmptyString => false
  | String d s' => Ascii.eqb c d || mem c s'
  end.

End Str.

(** ** JavaScript [Map] with string keys: insertion-ordered *)

Module JsMap.

Definition t (V : Type) := list (string * V).

Definition empty {V} : t V := [].

Fixpoint get {V} (m : t V) (k : string) : option V :=
  match m with
  | [] => None
  | (k', v) :: m' => if String.eqb k k' then Some v else get m' k
  end.

Definition has {V} (m : t V) (k : string) : bool :=
  match get m k with Some _ => true | None => false end.

(** [m.set(k, v)]: an existing key keeps its position. *)
Fixpoint set {V} (m : t V) (k : string) (v : V) : t V :=
  match m with
  | [] => [(k, v)]
  | (k', v') :: m' =>
      if String.eqb k k' then (k', v) :: m' else (k', v') :: set m' k v
  end.

End JsMap.

(** ** Sorting *)

Section Sort.
Variable A : Type.
(** [after x y] holds when the comparator is positive on [(x, y)]: [x] must
    come after [y]. *)
Variable after : A -> A -> bool.

Fixpoint insertSorted (x : A) (l : list A) : list A :=
  match l with
  | [] => [x]
  | y :: l' => if after x y then y :: insertSorted x l' else x :: l
  end.

Definition sortBy (l : list A) : list A :=
  fold_right insertSorted [] l.

(** The order the sort establishes between neighbours: the first need not
    come after the second. *)
Definition inOrder (x y : A) : Prop := after x y = false.
End Sort.

(** ** Entities *)

Inductive FunnelStage := IMPRESSION | CLICK | LANDING | LEAD | PURCHASE.

Definition stageToken (s : FunnelStage) : string :=
  match s with
  | IMPRESSION => "impression"
  | CLICK => "click"
  | LANDING => "landing"
  | LEAD => "lead"
  | PURCHASE => "purchase"
  end.

Definition stageEqb (a b : FunnelStage) : bool :=
  match a, b with
  | IMPRESSION, IMPRESSION | CLICK, CLICK | LANDING, LANDING
  | LEAD, LEAD | PURCHASE, PURCHASE => true
  | _, _ => false
  end.

Definition STAGE_ORDER : list FunnelStage :=
  [IMPRESSION; CLICK; LANDING; LEAD; PURCHASE].

(** The pairs [(STAGE_ORDER[i], STAGE_ORDER[i + 1])] for
    [0 <= i < STAGE_ORDER.length - 1], in order. *)
Definition adjacentPairs {A} (l : list A) : list (A * A) :=
  combine l (tl l).

Definition stagePairs : list (FunnelStage * FunnelStage) :=
  adjacentPairs STAGE_ORDER.

Inductive ChangeCategory := AD | SITE | EXTERNAL | TRACKING | PRICING | AUDIENCE.

Definition categoryToken (c : ChangeCategory) : string :=
  match c with
  | AD => "ad"
  | SITE => "site"
  | EXTERNAL => "external"
  | TRACKING => "tracking"
  | PRICING => "pricing"
  | AUDIENCE => "audience"
  end.

Inductive BreakSeverity := WARNING | SIGNIFICANT | CRITICAL.

Definition severityToken (s : BreakSeverity) : string :=
  match s with
  | WARNING => "warning"
  | SIGNIFICANT => "significant"
  | CRITICAL => "critical"
  end.

Inductive DiagnosisStatus := IDENTIFIED | UNCERTAIN | UNKNOWN.

Module Event.
Record t := mk {
  id : option string;
  date : string;
  funnelId : string;
  stage : FunnelStage;
  count : float;
  source : option string
}.
End Event.

Module FunnelSnapshot.
Record t := mk {
  date : string;
  funnelId : string;
  stageCounts : FunnelStage -> float
}.
End FunnelSnapshot.

Module Rate.
Record t := mk {
  fromStage : FunnelStage;
  toStage : FunnelStage;
  rate : float;
  fromCount : float;
  toCount : float
}.
End Rate.

Module ConversionRates.
Record t := mk {
  date : string;
  funnelId : string;
  rates : list Rate.t
}.
End ConversionRates.

Module Change.
Record t := mk {
  id : option string;
  date : string;
  funnelId : string;
  category : ChangeCategory;
  description : string;
  severity : float;
  affectedStages : option (list string)
}.
End Change.

Module Break.
Record t := mk {
  id : option string;
  funnelId : string;
  fromStage : FunnelStage;
  toStage : FunnelStage;
  detectedDate : string;
  baselineRate : float;
  currentRate : float;
  absoluteDrop : float;
  relativeDrop : float;
  zScore : float;
  severity : BreakSeverity
}.
End Break.

Module ScoreBreakdown.
Record t := mk {
  temporalScore : float;
  categoryRelevanceScore : float;
  severityScore : float;
  stageMatchBonus : float
}.
End ScoreBreakdown.

Module CauseCandidate.
Record t := mk {
  changeId : string;
  changeDescription : string;
  changeCategory : ChangeCategory;
  changeDate : string;
  changeSeverity : float;
  confidence : float;
  scoreBreakdown : ScoreBreakdown.t
}.
End CauseCandidate.

Module Diagnosis.
Record t := mk {
  id : option string;
  generatedAt : string;
  break : Break.t;
  causes : list CauseCandidate.t;
  diagnosisStatus : DiagnosisStatus;
  summary : string
}.
End Diagnosis.

(** ** What the host provides *)

Class Host := {
  (** [a.localeCompare(b)]: negative, zero or positive. *)
  localeCompare : string -> string -> Z;
  (** [dayjs(a).diff(dayjs(b), "day")]. *)
  dayjsDiffDays : string -> string -> float;
  (** [Math.exp]. *)
  Math_exp : float -> float;
  (** [x.toFixed(digits)]. *)
  toFixed : float -> nat -> string
}.

(** ** The wall clock *)

(** The readings the successive calls of [now()] will return. *)
Definition Clock := nat -> string.

Definition now (c : Clock) : string * Clock :=
  (c 0%nat, fun n => c (S n)).

(** ** Configuration records *)

Module BreakDetectorConfig.
Record t := mk {
  baselineWindowDays : float;
  currentWindowDays : float;
  minRelativeDrop : float;
  minZScore : float;
  minBaselineDataPoints : float
}.

(** [Partial<BreakDetectorConfig>]: a field is given or absent. *)
Record partial := mkPartial {
  baselineWindowDays' : option float;
  currentWindowDays' : option float;
  minRelativeDrop' : option float;
  minZScore' : option float;
  minBaselineDataPoints' : option float
}.
End BreakDetectorConfig.

Module CauseAnalyzerConfig.
Record t := mk {
  maxTemporalDistanceDays : float;
  temporalWeight : float;
  categoryWeight : float;
  severityWeight : float;
  stageMatchWeight : float;
  minConfidenceThreshold : float
}.

Record partial := mkPartial {
  maxTemporalDistanceDays' : option float;
  temporalWeight' : option float;
  categoryWeight' : option float;
  severityWeight' : option float;
  stageMatchWeight' : option float;
  minConfidenceThreshold' : option float
}.
End CauseAnalyzerConfig.

Module RateDataPoint.
Record t := mk { date : string; rate : float }.
End RateDataPoint.

(** [given ?? fallback], also the effect of spreading an override over a
    default field. *)
Definition orElse {A} (given : option A) (fallback : A) : A :=
  match given with Some v => v | None => fallback end.

(** String concatenation, as in template literals. *)
Notation "a +++ b" := (String.append a b) (at level 60, right associativity).

(** The double-quote character of the summary texts. *)
Definition dquote : string := String (ascii_of_nat 34) EmptyString.

(** [s.toUpperCase()] on ASCII letters. *)
Definition upperChar (c : ascii) : ascii :=
  let n := nat_of_ascii c in
  if (97 <=? n)%nat && (n <=? 122)%nat then ascii_of_nat (n - 32) else c.

Fixpoint toUpperCase (s : string) : string :=
  match s with
  | EmptyString => EmptyString
  | String c s' => String (upperChar c) (toUpperCase s')
  end.

(** Keeps the first occurrence of each string: [[...new Set(xs)]]. *)
Fixpoint uniqueStrings (seen : list string) (xs : list string) : list string :=
  match xs with
  | [] => []
  | x :: xs' =>
      if existsb (String.eqb x) seen then uniqueStrings seen xs'
      else x :: uniqueStrings (x :: seen) xs'
  end.

(** [xs.flatMap] over an optional result: the body of a loop that either
    pushes one element or continues. *)
Definition collect {A B} (f : A -> option B) (xs : list A) : list B :=
  flat_map (fun x => match f x with Some y => [y] | None => [] end) xs.

Section Engine.
Context {host : Host}.
Local Open Scope float_scope.

(** *** utils/time.ts *)

Definition daysDiff (from to : string) : float := dayjsDiffDays to from.

(** Stable sort of records by a string field with [localeCompare]. *)
Definition sortByLocale {A} (field : A -> string) (l : list A) : list A :=
  sortBy (fun a b => (0 <? localeCompare (field a) (field b))%Z) l.

(** *** FunnelAnalyzer.ts *)

(** [Map<FunnelStage, number>]. *)
Definition StageMap := FunnelStage -> option float.

Definition emptyStageMap : StageMap := fun _ => None.

Definition stageMapSet (m : StageMap) (s : FunnelStage) (v : float) : StageMap :=
  fun s' => if stageEqb s' s then Some v else m s'.

Definition snapshotKey (funnelId date : string) : string :=
  funnelId +++ "|" +++ date.

(** One iteration of the grouping loop. The inner map is mutated in place,
    which leaves its key where it is in the outer map. *)
Definition addEvent (grouped : JsMap.t StageMap) (event : Event.t)
  : JsMap.t StageMap :=
  let key := snapshotKey (Event.funnelId event) (Event.date event) in
  let grouped :=
    if JsMap.has grouped key then grouped
    else JsMap.set grouped key emptyStageMap in
  let stageCounts := orElse (JsMap.get grouped key) emptyStageMap in
  let existing := orElse (stageCounts (Event.stage event)) 0%float in
  JsMap.set grouped key
    (stageMapSet stageCounts (Event.stage event)
       (existing + Event.count event)%float).

(** [const [funnelId, date] = key.split("|")] and the filling of the five
    stage counts. *)
Definition snapshotOfEntry (entry : string * StageMap) : FunnelSnapshot.t :=
  let parts := Str.split Str.pipe (fst entry) in
  let funnelId := nth 0 parts EmptyString in
  let date := nth 1 parts EmptyString in
  FunnelSnapshot.mk date funnelId
    (fun stage => orElse (snd entry stage) 0%float).

Definition compareSnapshots (a b : FunnelSnapshot.t) : Z :=
  if negb (String.eqb (FunnelSnapshot.funnelId a) (FunnelSnapshot.funnelId b))
  then localeCompare (FunnelSnapshot.funnelId a) (FunnelSnapshot.funnelId b)
  else localeCompare (FunnelSnapshot.date a) (FunnelSnapshot.date b).

Definition buildSnapshots (events : list Event.t) : list FunnelSnapshot.t :=
  let grouped := fold_left addEvent events JsMap.empty in
  let snapshots := map snapshotOfEntry grouped in
  sortBy (fun a b => (0 <? compareSnapshots a b)%Z) snapshots.

Definition rateOf (snapshot : FunnelSnapshot.t) (pair : FunnelStage * FunnelStage)
  : Rate.t :=
  let fromStage := fst pair in
  let toStage := snd pair in
  let fromCount := FunnelSnapshot.stageCounts snapshot fromStage in
  let toCount := FunnelSnapshot.stageCounts snapshot toStage in
  let rate := if Num.gtb fromCount 0%float then (toCount / fromCount)%float else 0%float in
  Rate.mk fromStage toStage rate fromCount toCount.

Definition calculateConversionRates (snapshots : list FunnelSnapshot.t)
  : list ConversionRates.t :=
  map (fun snapshot =>
         ConversionRates.mk (FunnelSnapshot.date snapshot)
           (FunnelSnapshot.funnelId snapshot)
           (map (rateOf snapshot) stagePairs))
      snapshots.

(** *** BreakDetector.ts *)

Definition DEFAULT_BREAK_DETECTOR_CONFIG : BreakDetectorConfig.t :=
  BreakDetectorConfig.mk 14 3 0.15 1.5 7.

(** [{ ...DEFAULT_BREAK_DETECTOR_CONFIG, ...config }], [config] optional. *)
Definition mergeBreakDetectorConfig (config : option BreakDetectorConfig.partial)
  : BreakDetectorConfig.t :=
  let d := DEFAULT_BREAK_DETECTOR_CONFIG in
  match config with
  | None => d
  | Some c =>
      BreakDetectorConfig.mk
        (orElse (BreakDetectorConfig.baselineWindowDays' c)
                (BreakDetectorConfig.baselineWindowDays d))
        (orElse (BreakDetectorConfig.currentWindowDays' c)
                (BreakDetectorConfig.currentWindowDays d))
        (orElse (BreakDetectorConfig.minRelativeDrop' c)
                (BreakDetectorConfig.minRelativeDrop d))
        (orElse (BreakDetectorConfig.minZScore' c)
                (BreakDetectorConfig.minZScore d))
        (orElse (BreakDetectorConfig.minBaselineDataPoints' c)
                (BreakDetectorConfig.minBaselineDataPoints d))
  end.

(** Arithmetic mean. *)
Definition mean (values : list float) : float :=
  match values with
  | [] => 0%float
  | _ => (Num.sum values / Num.ofNat (List.length values))%float
  end.

(** Sample standard deviation (n - 1). *)
Definition stddev (values : list float) : float :=
  if (List.length values <? 2)%nat then 0%float
  else
    let avg := mean values in
    let squaredDiffs := map (fun v => Num.square (v - avg)%float) values in
    sqrt (Num.sum squaredDiffs / (Num.ofNat (List.length values) - 1))%float.

(** Map relative drop and z-score to CRITICAL / SIGNIFICANT / WARNING. *)
Definition classifySeverity (relativeDrop zScore : float) : BreakSeverity :=
  if Num.gtb relativeDrop 0.40 || Num.gtb (abs zScore) 3.0 then CRITICAL
  else if Num.gtb relativeDrop 0.20 || Num.gtb (abs zScore) 2.0 then SIGNIFICANT
  else WARNING.

(** Build date/rate time series for one stage-to-stage transition. *)
Definition extractTimeSeries (conversionRates : list ConversionRates.t)
    (fromStage toStage : FunnelStage) : list RateDataPoint.t :=
  sortByLocale RateDataPoint.date
    (map (fun cr =>
            let rateEntry :=
              find (fun r => stageEqb (Rate.fromStage r) fromStage
                             && stageEqb (Rate.toStage r) toStage)
                   (ConversionRates.rates cr) in
            RateDataPoint.mk (ConversionRates.date cr)
              (orElse (option_map Rate.rate rateEntry) 0%float))
         conversionRates).

Definition inCurrentWindow (config : BreakDetectorConfig.t)
    (detectionDate : string) (dp : RateDataPoint.t) : bool :=
  let diff := daysDiff (RateDataPoint.date dp) detectionDate in
  Num.geb diff 0 && (diff <? BreakDetectorConfig.currentWindowDays config)%float.

Definition inBaselineWindow (config : BreakDetectorConfig.t)
    (detectionDate : string) (dp : RateDataPoint.t) : bool :=
  let diff := daysDiff (RateDataPoint.date dp) detectionDate in
  Num.geb diff (BreakDetectorConfig.currentWindowDays config)
  && (diff <? BreakDetectorConfig.baselineWindowDays config
               + BreakDetectorConfig.currentWindowDays config)%float.

(** The body of the loop of [detectBreaksInSeries] at one detection date:
    [None] where the loop continues or pushes nothing. *)
Definition detectAt (timeSeries : list RateDataPoint.t) (funnelId : string)
    (fromStage toStage : FunnelStage) (config : BreakDetectorConfig.t)
    (point : RateDataPoint.t) : option Break.t :=
  let detectionDate := RateDataPoint.date point in
  let currentPoints := filter (inCurrentWindow config detectionDate) timeSeries in
  let baselinePoints := filter (inBaselineWindow config detectionDate) timeSeries in
  if (Num.ofNat (List.length baselinePoints)
      <? BreakDetectorConfig.minBaselineDataPoints config)%float then None
  else if (List.length currentPoints =? 0)%nat then None
  else
    let baselineRates := map RateDataPoint.rate baselinePoints in
    let currentRates := map RateDataPoint.rate currentPoints in
    let baselineMean := mean baselineRates in
    let baselineStdDev := stddev baselineRates in
    let currentMean := mean currentRates in
    if (baselineMean =? 0)%float then None
    else
      let effectiveStdDev := Num.Math_max baselineStdDev 0.01 in
      let absoluteDrop := (baselineMean - currentMean)%float in
      let relativeDrop := (absoluteDrop / baselineMean)%float in
      let zScore := (absoluteDrop / effectiveStdDev)%float in
      if Num.geb relativeDrop (BreakDetectorConfig.minRelativeDrop config)
         && Num.geb (abs zScore) (BreakDetectorConfig.minZScore config)
      then Some (Break.mk None funnelId fromStage toStage detectionDate
                   baselineMean currentMean absoluteDrop relativeDrop zScore
                   (classifySeverity relativeDrop zScore))
      else None.

(** Find breaks in one series using baseline vs current window and z-score. *)
Definition detectBreaksInSeries (timeSeries : list RateDataPoint.t)
    (funnelId : string) (fromStage toStage : FunnelStage)
    (config : BreakDetectorConfig.t) : list Break.t :=
  collect (detectAt timeSeries funnelId fromStage toStage config) timeSeries.

(** Break in cluster with largest |zScore|. The cluster is never empty: it
    is created with one element and only grows, so it is carried as its
    first element and the rest. *)
Definition pickPeakBreak (first : Break.t) (rest : list Break.t) : Break.t :=
  fold_left
    (fun best curr =>
       if Num.gtb (abs (Break.zScore curr)) (abs (Break.zScore best))
       then curr else best)
    rest first.

Definition breakKey (brk : Break.t) : string :=
  Break.funnelId brk +++ "|" +++ stageToken (Break.fromStage brk)
    +++ "|" +++ stageToken (Break.toStage brk).

(** One iteration of the grouping loop of [deduplicateConsecutiveBreaks]. *)
Definition addToGroup (groups : JsMap.t (list Break.t)) (brk : Break.t)
  : JsMap.t (list Break.t) :=
  let key := breakKey brk in
  let groups := if JsMap.has groups key then groups else JsMap.set groups key [] in
  JsMap.set groups key (orElse (JsMap.get groups key) [] ++ [brk]).

(** The inner loop over a sorted group from index 1 on: [prev] is
    [groupBreaks[i - 1]], the cluster is [first :: rest]. *)
Fixpoint clusterLoop (prev first : Break.t) (rest : list Break.t)
    (remaining : list Break.t) : list Break.t :=
  match remaining with
  | [] => [pickPeakBreak first rest]
  | curr :: remaining' =>
      let gap := daysDiff (Break.detectedDate prev) (Break.detectedDate curr) in
      if (gap <=? 1)%float
      then clusterLoop curr first (rest ++ [curr]) remaining'
      else pickPeakBreak first rest :: clusterLoop curr curr [] remaining'
  end.

(** What one group contributes to [deduplicated]. No group is empty. *)
Definition dedupGroup (groupBreaks : list Break.t) : list Break.t :=
  match sortByLocale Break.detectedDate groupBreaks with
  | [] => []
  | first :: remaining => clusterLoop first first [] remaining
  end.

(** Merge nearby breaks per funnel/stage; keep one peak break per cluster. *)
Definition deduplicateConsecutiveBreaks (breaks : list Break.t) : list Break.t :=
  match breaks with
  | [] => []
  | _ =>
      let groups := fold_left addToGroup breaks JsMap.empty in
      let deduplicated := flat_map (fun entry => dedupGroup (snd entry)) groups in
      sortByLocale Break.detectedDate deduplicated
  end.

(** The flags raised before deduplication. *)
Definition rawBreaks (conversionRates : list ConversionRates.t)
    (cfg : BreakDetectorConfig.t) : list Break.t :=
  let funnelIds := uniqueStrings [] (map ConversionRates.funnelId conversionRates) in
  flat_map
    (fun funnelId =>
       let funnelRates :=
         sortByLocale ConversionRates.date
           (filter (fun cr => String.eqb (ConversionRates.funnelId cr) funnelId)
                   conversionRates) in
       flat_map
         (fun pair =>
            let timeSeries := extractTimeSeries funnelRates (fst pair) (snd pair) in
            detectBreaksInSeries timeSeries funnelId (fst pair) (snd pair) cfg)
         stagePairs)
    funnelIds.

(** Find conversion drops across all funnels and stage pairs: what the
    call returns when it returns. [detectBreaksOutcome] below is the call
    with what it can throw. *)
Definition detectBreaks (conversionRates : list ConversionRates.t)
    (config : option BreakDetectorConfig.partial) : list Break.t :=
  let cfg := mergeBreakDetectorConfig config in
  deduplicateConsecutiveBreaks (rawBreaks conversionRates cfg).

(** *** CauseAnalyzer.ts *)

Definition DEFAULT_CAUSE_ANALYZER_CONFIG : CauseAnalyzerConfig.t :=
  CauseAnalyzerConfig.mk 7 0.40 0.30 0.20 0.10 0.1.

Definition mergeCauseAnalyzerConfig (config : option CauseAnalyzerConfig.partial)
  : CauseAnalyzerConfig.t :=
  let d := DEFAULT_CAUSE_ANALYZER_CONFIG in
  match config with
  | None => d
  | Some c =>
      CauseAnalyzerConfig.mk
        (orElse (CauseAnalyzerConfig.maxTemporalDistanceDays' c)
                (CauseAnalyzerConfig.maxTemporalDistanceDays d))
        (orElse (CauseAnalyzerConfig.temporalWeight' c)
                (CauseAnalyzerConfig.temporalWeight d))
        (orElse (CauseAnalyzerConfig.categoryWeight' c)
                (CauseAnalyzerConfig.categoryWeight d))
        (orElse (CauseAnalyzerConfig.severityWeight' c)
                (CauseAnalyzerConfig.severityWeight d))
        (orElse (CauseAnalyzerConfig.stageMatchWeight' c)
                (CauseAnalyzerConfig.stageMatchWeight d))
        (orElse (CauseAnalyzerConfig.minConfidenceThreshold' c)
                (CauseAnalyzerConfig.minConfidenceThreshold d))
  end.

(** The object literal [CATEGORY_STAGE_RELEVANCE]. *)
Definition CATEGORY_STAGE_RELEVANCE (category : ChangeCategory)
  : JsMap.t float :=
  match category with
  | AD =>
      [("impression->click", 0.95); ("click->landing", 0.60);
       ("landing->lead", 0.20); ("lead->purchase", 0.10)]
  | SITE =>
      [("impression->click", 0.05); ("click->landing", 0.90);
       ("landing->lead", 0.85); ("lead->purchase", 0.70)]
  | EXTERNAL =>
      [("impression->click", 0.50); ("click->landing", 0.30);
       ("landing->lead", 0.40); ("lead->purchase", 0.60)]
  | TRACKING =>
      [("impression->click", 0.80); ("click->landing", 0.80);
       ("landing->lead", 0.60); ("lead->purchase", 0.40)]
  | PRICING =>
      [("impression->click", 0.05); ("click->landing", 0.10);
       ("landing->lead", 0.50); ("lead->purchase", 0.95)]
  | AUDIENCE =>
      [("impression->click", 0.85); ("click->landing", 0.70);
       ("landing->lead", 0.50); ("lead->purchase", 0.30)]
  end%string.

Definition calcTemporalScore (changeDate breakDate : string) (maxDays : float)
  : float :=
  let gap := daysDiff changeDate breakDate in
  if (gap <? 0) || Num.gtb gap maxDays then 0
  else Math_exp (-0.5 * gap).

Definition calcCategoryRelevance (category : ChangeCategory)
    (fromStage toStage : FunnelStage) : float :=
  let key := stageToken fromStage +++ "->" +++ stageToken toStage in
  orElse (JsMap.get (CATEGORY_STAGE_RELEVANCE category) key) 0.3.

Definition calcSeverityScore (severity : float) : float :=
  (Num.Math_min 5 (Num.Math_max 1 severity) - 1) / 4.

Definition calcStageMatchBonus (change : Change.t) (brk : Break.t) : float :=
  match Change.affectedStages change with
  | None => 0
  | Some [] => 0
  | Some stages =>
      if existsb (fun s => String.eqb s (stageToken (Break.fromStage brk))
                           || String.eqb s (stageToken (Break.toStage brk)))
                 stages
      then 0.2 else 0
  end.

Definition scoreCandidate (change : Change.t) (brk : Break.t)
    (config : CauseAnalyzerConfig.t) : CauseCandidate.t :=
  let temporalScore :=
    calcTemporalScore (Change.date change) (Break.detectedDate brk)
      (CauseAnalyzerConfig.maxTemporalDistanceDays config) in
  let categoryRelevanceScore :=
    calcCategoryRelevance (Change.category change)
      (Break.fromStage brk) (Break.toStage brk) in
  let severityScore := calcSeverityScore (Change.severity change) in
  let stageMatchBonus := calcStageMatchBonus change brk in
  let confidence :=
    Num.Math_min 1.0 (Num.Math_max 0.0
      (temporalScore * CauseAnalyzerConfig.temporalWeight config
       + categoryRelevanceScore * CauseAnalyzerConfig.categoryWeight config
       + severityScore * CauseAnalyzerConfig.severityWeight config
       + stageMatchBonus * CauseAnalyzerConfig.stageMatchWeight config)) in
  CauseCandidate.mk (orElse (Change.id change) EmptyString)
    (Change.description change) (Change.category change) (Change.date change)
    (Change.severity change) confidence
    (ScoreBreakdown.mk temporalScore categoryRelevanceScore severityScore
       stageMatchBonus).

Definition determineStatus (causes : list CauseCandidate.t) : DiagnosisStatus :=
  match causes with
  | [] => UNKNOWN
  | top :: _ =>
      if Num.geb (CauseCandidate.confidence top) 0.6 then IDENTIFIED
      else UNCERTAIN
  end.

(** [None] stands for the TypeError of reading a field of [causes[0]] when
    the array is empty. *)
Definition generateSummary (brk : Break.t) (causes : list CauseCandidate.t)
    (status : DiagnosisStatus) : option string :=
  let dropPct := toFixed (Break.relativeDrop brk * 100) 1 in
  let transition :=
    stageToken (Break.fromStage brk) +++ " -> " +++ stageToken (Break.toStage brk) in
  let header :=
    "[" +++ toUpperCase (severityToken (Break.severity brk)) +++ "] " +++ dropPct
    +++ "% conversion drop detected in " +++ dquote +++ Break.funnelId brk
    +++ dquote +++ " at " +++ transition +++ " on " +++ Break.detectedDate brk
    +++ "." in
  match status with
  | UNKNOWN =>
      Some (header +++ " No candidate causes found within the analysis window.")
  | _ =>
      match causes with
      | [] => None
      | topCause :: _ =>
          let confPct := toFixed (CauseCandidate.confidence topCause * 100) 0 in
          let cause :=
            " (" +++ confPct +++ "% confidence): " +++ dquote
            +++ CauseCandidate.changeDescription topCause +++ dquote +++ " ("
            +++ categoryToken (CauseCandidate.changeCategory topCause) +++ ", "
            +++ CauseCandidate.changeDate topCause +++ ")." in
          match status with
          | IDENTIFIED => Some (header +++ " Most likely cause" +++ cause)
          | _ =>
              Some (header +++ " Possible cause" +++ cause
                    +++ " Low confidence -- manual investigation recommended.")
          end
      end
  end.

(** The eligibility filter of [diagnoseBreak]. *)
Definition isCandidateChange (brk : Break.t) (config : CauseAnalyzerConfig.t)
    (change : Change.t) : bool :=
  let funnelMatch :=
    String.eqb (Change.funnelId change) (Break.funnelId brk)
    || String.eqb (Change.funnelId change) "*" in
  if negb funnelMatch then false
  else
    let gap := daysDiff (Change.date change) (Break.detectedDate brk) in
    Num.geb gap 0
    && (gap <=? CauseAnalyzerConfig.maxTemporalDistanceDays config).

(** [(a, b) => b.confidence - a.confidence] is positive. *)
Definition lessConfident (a b : CauseCandidate.t) : bool :=
  0 <? CauseCandidate.confidence b - CauseCandidate.confidence a.

(** The candidates that pass the confidence threshold, before ranking. *)
Definition survivingCandidates (brk : Break.t) (allChanges : list Change.t)
    (config : CauseAnalyzerConfig.t) : list CauseCandidate.t :=
  let candidateChanges := filter (isCandidateChange brk config) allChanges in
  filter
    (fun c => Num.geb (CauseCandidate.confidence c)
                (CauseAnalyzerConfig.minConfidenceThreshold config))
    (map (fun change => scoreCandidate change brk config) candidateChanges).

Definition rankedCauses (brk : Break.t) (allChanges : list Change.t)
    (config : CauseAnalyzerConfig.t) : list CauseCandidate.t :=
  sortBy lessConfident (survivingCandidates brk allChanges config).

(** [diagnoseBreak] reads the clock once; [None] is an exception. *)
Definition diagnoseBreak (brk : Break.t) (allChanges : list Change.t)
    (config : CauseAnalyzerConfig.t) (clock : Clock)
  : option (Diagnosis.t * Clock) :=
  let causes := rankedCauses brk allChanges config in
  let diagnosisStatus := determineStatus causes in
  match generateSummary brk causes diagnosisStatus with
  | None => None
  | Some summary =>
      let (generatedAt, clock') := now clock in
      Some (Diagnosis.mk None generatedAt brk causes diagnosisStatus summary,
            clock')
  end.

(** [breaks.map((brk) => diagnoseBreak(brk, changes, cfg))], threading the
    clock from one call to the next. *)
Fixpoint diagnoseAll (breaks : list Break.t) (changes : list Change.t)
    (cfg : CauseAnalyzerConfig.t) (clock : Clock)
  : option (list Diagnosis.t * Clock) :=
  match breaks with
  | [] => Some ([], clock)
  | brk :: breaks' =>
      match diagnoseBreak brk changes cfg clock with
      | None => None
      | Some (d, clock') =>
          match diagnoseAll breaks' changes cfg clock' with
          | None => None
          | Some (ds, clock'') => Some (d :: ds, clock'')
          end
      end
  end.

Definition analyzeCauses (breaks : list Break.t) (changes : list Change.t)
    (config : option CauseAnalyzerConfig.partial) (clock : Clock)
  : option (list Diagnosis.t * Clock) :=
  let cfg := mergeCauseAnalyzerConfig config in
  diagnoseAll breaks changes cfg clock.

End Engine.

(** ** The divisions, watched

    The same code, where the three divisions that compute a rate, a relative
    drop and a z-score go through [checkedDiv], which fails on a divisor
    equal to zero ([+0] or [-0]). *)

Section Checked.
Context {host : Host}.
Local Open Scope float_scope.

Inductive Checked (A : Type) : Type :=
| DivisionByZero : Checked A
| Done : A -> Checked A.

Arguments DivisionByZero {A}.
Arguments Done {A} _.

Definition checkedDiv (a b : float) : Checked float :=
  if b =? 0 then DivisionByZero else Done (a / b).

Definition bindChecked {A B} (c : Checked A) (k : A -> Checked B) : Checked B :=
  match c with
  | DivisionByZero => DivisionByZero
  | Done a => k a
  end.

Definition rateOfChecked (snapshot : FunnelSnapshot.t)
    (pair : FunnelStage * FunnelStage) : Checked Rate.t :=
  let fromStage := fst pair in
  let toStage := snd pair in
  let fromCount := FunnelSnapshot.stageCounts snapshot fromStage in
  let toCount := FunnelSnapshot.stageCounts snapshot toStage in
  bindChecked
    (if Num.gtb fromCount 0 then checkedDiv toCount fromCount else Done 0)
    (fun rate => Done (Rate.mk fromStage toStage rate fromCount toCount)).

Definition detectAtChecked (timeSeries : list RateDataPoint.t) (funnelId : string)
    (fromStage toStage : FunnelStage) (config : BreakDetectorConfig.t)
    (point : RateDataPoint.t) : Checked (option Break.t) :=
  let detectionDate := RateDataPoint.date point in
  let currentPoints := filter (inCurrentWindow config detectionDate) timeSeries in
  let baselinePoints := filter (inBaselineWindow config detectionDate) timeSeries in
  if (Num.ofNat (List.length baselinePoints)
      <? BreakDetectorConfig.minBaselineDataPoints config) then Done None
  else if (List.length currentPoints =? 0)%nat then Done None
  else
    let baselineRates := map RateDataPoint.rate baselinePoints in
    let currentRates := map RateDataPoint.rate currentPoints in
    let baselineMean := mean baselineRates in
    let baselineStdDev := stddev baselineRates in
    let currentMean := mean currentRates in
    if (baselineMean =? 0) then Done None
    else
      let effectiveStdDev := Num.Math_max baselineStdDev 0.01 in
      let absoluteDrop := (baselineMean - currentMean) in
      bindChecked (checkedDiv absoluteDrop baselineMean) (fun relativeDrop =>
      bindChecked (checkedDiv absoluteDrop effectiveStdDev) (fun zScore =>
      if Num.geb relativeDrop (BreakDetectorConfig.minRelativeDrop config)
         && Num.geb (abs zScore) (BreakDetectorConfig.minZScore config)
      then Done (Some (Break.mk None funnelId fromStage toStage detectionDate
                         baselineMean currentMean absoluteDrop relativeDrop zScore
                         (classifySeverity relativeDrop zScore)))
      else Done None)).

End Checked.

Arguments DivisionByZero {A}.
Arguments Done {A} _.

(** ** A reference host

    A concrete [Host] on which the engine runs inside Rocq: code-point
    comparison of strings, the proleptic Gregorian calendar for dayjs on
    [YYYY-MM-DD] dates, a Taylor polynomial for [Math.exp] and decimal
    rounding for [toFixed]. *)

Module RefHost.

Definition compareStrings (a b : string) : Z :=
  match String.compare a b with
  | Lt => (-1)%Z
  | Eq => 0%Z
  | Gt => 1%Z
  end.

Definition digitOf (c : ascii) : option Z :=
  let n := nat_of_ascii c in
  if (48 <=? n)%nat && (n <=? 57)%nat then Some (Z.of_nat (n - 48)) else None.

Fixpoint digitsValue (acc : Z) (cs : list ascii) : option Z :=
  match cs with
  | [] => Some acc
  | c :: cs' =>
      match digitOf c with
      | Some d => digitsValue (10 * acc + d)%Z cs'
      | None => None
      end
  end.

(** Days since 1970-01-01 of the first day of a month, for any month
    offset: months outside 1..12 carry into the year as [Date] does. *)
Definition daysFromCivil (y m d : Z) : Z :=
  let months := (y * 12 + (m - 1))%Z in
  let y := (months / 12)%Z in
  let m := (months mod 12 + 1)%Z in
  let y' := if (m <=? 2)%Z then (y - 1)%Z else y in
  let era := (y' / 400)%Z in
  let yoe := (y' - era * 400)%Z in
  let mp := if (2 <? m)%Z then (m - 3)%Z else (m + 9)%Z in
  let doy := ((153 * mp + 2) / 5 + (d - 1))%Z in
  let doe := (yoe * 365 + yoe / 4 - yoe / 100 + doy)%Z in
  (era * 146097 + doe - 719468)%Z.

(** The day number of a [YYYY-MM-DD] string; [None] is an invalid date. *)
Definition parseDay (s : string) : option Z :=
  match list_ascii_of_string s with
  | [y1; y2; y3; y4; s1; m1; m2; s2; d1; d2] =>
      if Ascii.eqb s1 "-" && Ascii.eqb s2 "-" then
        match digitsValue 0 [y1; y2; y3; y4], digitsValue 0 [m1; m2],
              digitsValue 0 [d1; d2] with
        | Some y, Some m, Some d => Some (daysFromCivil y m d)
        | _, _, _ => None
        end
      else None
  | _ => None
  end.

Definition floatOfZ (z : Z) : float :=
  if (z <? 0)%Z then (- of_uint63 (Uint63.of_Z (- z)))%float
  else of_uint63 (Uint63.of_Z z).

Definition diffDays (a b : string) : float :=
  match parseDay a, parseDay b with
  | Some da, Some db => floatOfZ (da - db)
  | _, _ => nan
  end.

(** [sum_{k < n} x^k / k!], accumulated from the constant term. *)
Fixpoint expSeries (n : nat) (x term acc : float) (k : float) : float :=
  match n with
  | O => acc
  | S n' => expSeries n' x (term * x / k)%float (acc + term)%float (k + 1)%float
  end.

Definition expTaylor (x : float) : float := expSeries 40 x 1%float 0%float 1%float.

Fixpoint pow10 (n : nat) : Z :=
  match n with O => 1%Z | S n' => (10 * pow10 n')%Z end.

Fixpoint zeros (n : nat) : string :=
  match n with
  | O => EmptyString
  | S n' => String "0" (zeros n')
  end.

(** [s] with zeros in front up to the length [n]. *)
Definition padLeft (n : nat) (s : string) : string :=
  zeros (n - String.length s) +++ s.

Definition decimalOfZ (z : Z) : string :=
  DecimalString.NilZero.string_of_uint (N.to_uint (Z.to_N z)).

(** The integer nearest to [m * 2^e * 10^digits], the larger one on a tie. *)
Definition scaledRound (m : positive) (e : Z) (digits : nat) : Z :=
  let num := (Zpos m * pow10 digits)%Z in
  if (0 <=? e)%Z then (num * 2 ^ e)%Z
  else ((2 * num + 2 ^ (- e)) / (2 * 2 ^ (- e)))%Z.

Definition fixedOfZ (n : Z) (digits : nat) : string :=
  let whole := decimalOfZ (n / pow10 digits) in
  match digits with
  | O => whole
  | _ => whole +++ "." +++ padLeft digits (decimalOfZ (n mod pow10 digits))
  end.

Definition toFixedRef (x : float) (digits : nat) : string :=
  match Prim2SF x with
  | S754_nan => "NaN"
  | S754_infinity s => if s then "-Infinity" else "Infinity"
  | S754_zero _ => fixedOfZ 0 digits
  | S754_finite s m e =>
      (if s then "-" else EmptyString) +++ fixedOfZ (scaledRound m e digits) digits
  end.

Definition host : Host :=
  {| localeCompare := compareStrings;
     dayjsDiffDays := diffDays;
     Math_exp := expTaylor;
     toFixed := toFixedRef |}.

(** A clock whose readings are all the same instant. *)
Definition frozenClock (instant : string) : Clock := fun _ => instant.

End RefHost.

(** ** Sample inputs *)

Module Runs.

Local Open Scope float_scope.
Local Open Scope string_scope.
Local Infix "++" := List.app (at level 60, right associativity).

(** The break of the unit tests of the cause analyzer. *)
Definition testBreak : Break.t :=
  Break.mk None "test-funnel" CLICK LANDING "2025-01-15"
    0.75 0.45 0.30 0.40 3.5 CRITICAL.

(** One day of events of a funnel, with the given landing count. *)
Definition dayOf (funnelId date : string) (landing : float) : list Event.t :=
  [Event.mk None date funnelId IMPRESSION 1000 None;
   Event.mk None date funnelId CLICK 100 None;
   Event.mk None date funnelId LANDING landing None;
   Event.mk None date funnelId LEAD 10 None;
   Event.mk None date funnelId PURCHASE 5 None].

(** Three steady days, then the landing count halves. *)
Definition droppingEvents : list Event.t :=
  dayOf "camp-a" "2025-01-01" 80 ++ dayOf "camp-a" "2025-01-02" 80
  ++ dayOf "camp-a" "2025-01-03" 80 ++ dayOf "camp-a" "2025-01-04" 40
  ++ dayOf "camp-a" "2025-01-05" 30 ++ dayOf "camp-a" "2025-01-07" 40.

Definition droppingRates : list ConversionRates.t :=
  calculateConversionRates (@buildSnapshots RefHost.host droppingEvents).

(** A short window, so that a few days are enough. *)
Definition shortWindows : option BreakDetectorConfig.partial :=
  Some (BreakDetectorConfig.mkPartial (Some 3) (Some 1) None None (Some 2)).

(** An event of a funnel whose id contains the separator of the keys. *)
Definition pipedEvent : Event.t :=
  Event.mk None "2025-01-01" "summer|sale" IMPRESSION 5 None.

(** The same days with negative landing counts: every click-to-landing rate
    is negative, and it rises from -0.5 to -0.25 on the last day. *)
Definition negativeEvents : list Event.t :=
  dayOf "camp-a" "2025-01-01" (-50) ++ dayOf "camp-a" "2025-01-02" (-50)
  ++ dayOf "camp-a" "2025-01-03" (-50) ++ dayOf "camp-a" "2025-01-04" (-25).

Definition negativeRates : list ConversionRates.t :=
  calculateConversionRates (@buildSnapshots RefHost.host negativeEvents).

(** One day with a landing count so large that the squares of the standard
    deviation overflow, then nothing. *)
Definition hugeEvents : list Event.t :=
  dayOf "camp-a" "2025-01-01" 1e202 ++ dayOf "camp-a" "2025-01-02" 0
  ++ dayOf "camp-a" "2025-01-03" 0 ++ dayOf "camp-a" "2025-01-04" 0.

Definition hugeRates : list ConversionRates.t :=
  calculateConversionRates (@buildSnapshots RefHost.host hugeEvents).

(** Short windows and no lower bound on the z-score. *)
Definition shortWindowsAnyZ : option BreakDetectorConfig.partial :=
  Some (BreakDetectorConfig.mkPartial (Some 3) (Some 1) None (Some 0) (Some 2)).

(** A day of January 2025, as the loaders write it. *)
Definition january (day : nat) : string :=
  "2025-01-"
  +++ String (ascii_of_nat (48 + day / 10))
        (String (ascii_of_nat (48 + day mod 10)) EmptyString).

(** One day of the regression scenario: 10000 impressions, 1200 clicks and
    the given landing count. *)
Definition regressionDay (date : string) (landing : float) : list Event.t :=
  [Event.mk None date "test-funnel" IMPRESSION 10000 None;
   Event.mk None date "test-funnel" CLICK 1200 None;
   Event.mk None date "test-funnel" LANDING landing None;
   Event.mk None date "test-funnel" LEAD 150 None;
   Event.mk None date "test-funnel" PURCHASE 45 None].

(** Eighteen days with 900 landings, then five days with 400. *)
Definition regressionEvents : list Event.t :=
  flat_map (fun day => regressionDay (january day) 900) (seq 1 18)
  ++ flat_map (fun day => regressionDay (january day) 400) (seq 19 5).

Definition regressionRates : list ConversionRates.t :=
  calculateConversionRates (@buildSnapshots RefHost.host regressionEvents).

(** A site change that names the landing stage, on the day of the peak. *)
Definition landingDeploy : Change.t :=
  Change.mk None "2025-01-21" "test-funnel" SITE "Deployed new landing page" 4
    (Some ["landing"]).

End Runs.

(** ** Shapes of binary64 values *)

(** The shape of a rounded value: its sign is the one asked for. *)
Inductive signedAs (s : bool) : spec_float -> Prop :=
| signedZero : signedAs s (S754_zero s)
| signedFinite m e : signedAs s (S754_finite s m e)
| signedInfinity : signedAs s (S754_infinity s).

Inductive nonZeroAs (s : bool) : spec_float -> Prop :=
| nonZeroFinite m e : nonZeroAs s (S754_finite s m e)
| nonZeroInfinity : nonZeroAs s (S754_infinity s).

(** Not below zero: a zero of either sign, or a positive value. *)
Definition SFnonneg (x : spec_float) : Prop := SFleb (S754_zero false) x = true.

(** ** Vocabulary of the statements *)

(** [segments.join(sep)]. *)
Fixpoint joinWith (sep : ascii) (segments : list string) : string :=
  match segments with
  | [] => EmptyString
  | [seg] => seg
  | seg :: segments' => seg +++ String sep (joinWith sep segments')
  end.

(** The map that binds each key of [ks], in order, to [F k]. *)
Definition tabulate {V} (F : string -> V) (ks : list string) : JsMap.t V :=
  map (fun k => (k, F k)) ks.

(** The pattern shared by the two grouping loops: create the entry of the key
    when the map lacks it, then replace its value by one step on it. *)
Definition upsert {X V} (key : X -> string) (init : V) (step : V -> X -> V)
    (m : JsMap.t V) (x : X) : JsMap.t V :=
  let k := key x in
  let m' := if JsMap.has m k then m else JsMap.set m k init in
  JsMap.set m' k (step (orElse (JsMap.get m' k) init) x).

(** The elements of a list with a given key, in order. *)
Definition withKey {X} (key : X -> string) (k : string) (l : list X) : list X :=
  filter (fun x => String.eqb (key x) k) l.

(** A diagnosis with its timestamp blanked: what is left is every other
    field. *)
Definition withoutTimestamp (d : Diagnosis.t) : Diagnosis.t :=
  Diagnosis.mk (Diagnosis.id d) EmptyString (Diagnosis.break d)
    (Diagnosis.causes d) (Diagnosis.diagnosisStatus d) (Diagnosis.summary d).

Section Vocabulary.
Context {host : Host}.
Local Open Scope float_scope.

(** What relates a break to its diagnosis, the timestamp apart. *)
Definition diagnosisOf (changes : list Change.t) (cfg : CauseAnalyzerConfig.t)
    (brk : Break.t) (d : Diagnosis.t) : Prop :=
  Diagnosis.id d = None
  /\ Diagnosis.break d = brk
  /\ Diagnosis.causes d = rankedCauses brk changes cfg
  /\ Diagnosis.diagnosisStatus d = determineStatus (Diagnosis.causes d)
  /\ generateSummary brk (Diagnosis.causes d) (Diagnosis.diagnosisStatus d)
     = Some (Diagnosis.summary d).


(** The three ways a change is kept out of the diagnosis of a break: another
    funnel and not the wildcard; dated after the detection date; older than
    the temporal window. *)
Definition excludedChange (brk : Break.t) (cfg : CauseAnalyzerConfig.t)
    (change : Change.t) : Prop :=
  let gap := daysDiff (Change.date change) (Break.detectedDate brk) in
  (Change.funnelId change <> Break.funnelId brk
   /\ Change.funnelId change <> "*"%string)
  \/ (gap <? 0) = true
  \/ Num.gtb gap (CauseAnalyzerConfig.maxTemporalDistanceDays cfg) = true.

(** *** Deduplication *)

(** Same funnel and same stage pair. *)
Definition sameGroupb (a b : Break.t) : bool :=
  String.eqb (Break.funnelId a) (Break.funnelId b)
  && stageEqb (Break.fromStage a) (Break.fromStage b)
  && stageEqb (Break.toStage a) (Break.toStage b).

(** The second break was flagged at most one day after the first. *)
Definition gapWithin (a b : Break.t) : Prop :=
  (daysDiff (Break.detectedDate a) (Break.detectedDate b) <=? 1) = true.

(** Each element follows the one before within the gap, starting after
    [prev]. *)
Fixpoint chained (prev : Break.t) (l : list Break.t) : Prop :=
  match l with
  | [] => True
  | b :: l' => gapWithin prev b /\ chained b l'
  end.

(** [Clusters l cs]: [cs] cuts [l] into its maximal runs of neighbours within
    the gap; a cluster is its first element and the rest. *)
Inductive Clusters : list Break.t -> list (Break.t * list Break.t) -> Prop :=
| Clusters_nil : Clusters [] []
| Clusters_one first rest :
    chained first rest -> Clusters (first :: rest) [(first, rest)]
| Clusters_more first rest next l cs :
    chained first rest ->
    ~ gapWithin (last rest first) next ->
    Clusters (next :: l) cs ->
    Clusters (first :: rest ++ next :: l) ((first, rest) :: cs).

Definition absZ (b : Break.t) : float := abs (Break.zScore b).

(** [p] is the member of the cluster with the largest |zScore|, the first of
    them on a tie: the members before it are strictly below, the members
    after it are not above. *)
Definition isPeak (cluster : Break.t * list Break.t) (p : Break.t) : Prop :=
  exists before after,
    fst cluster :: snd cluster = before ++ p :: after
    /\ Forall (fun b => (absZ b <? absZ p) = true) before
    /\ Forall (fun b => (absZ p <? absZ b) = false) after.

(** The |zScore| of the break is a number. *)
Definition hasZScore (b : Break.t) : Prop := (absZ b =? absZ b) = true.

(** Ascending order of detection dates, as [localeCompare] sees it. *)
Definition dateOrdered (a b : Break.t) : Prop :=
  (localeCompare (Break.detectedDate a) (Break.detectedDate b) <= 0)%Z.

(** *** Confidence *)

(** [Math.min(1.0, Math.max(0.0, x))]. *)
Definition clamp01 (x : float) : float := Num.Math_min 1.0 (Num.Math_max 0.0 x).

(** Descending order of confidence. *)
Definition moreConfident (a b : CauseCandidate.t) : Prop :=
  (CauseCandidate.confidence b <=? CauseCandidate.confidence a) = true.

(** The candidates whose confidence is a given value, in order. *)
Definition withConfidence (v : float) (l : list CauseCandidate.t)
  : list CauseCandidate.t :=
  filter (fun c => CauseCandidate.confidence c =? v) l.

(** *** Genuine drops *)

(** Every rate of the series is a number not below zero, as
    [calculateConversionRates] produces them from counts that are not
    negative. *)
Definition ratesNonNegative (conversionRates : list ConversionRates.t) : Prop :=
  Forall (fun cr => Forall (fun r => (0 <=? Rate.rate r) = true)
                           (ConversionRates.rates cr))
         conversionRates.

(** A genuine drop, as the claim words it. *)
Definition genuineDrop (brk : Break.t) : Prop :=
  (0 <? Break.baselineRate brk) = true
  /\ (0 <? Break.absoluteDrop brk) = true
  /\ (0 <? Break.zScore brk) = true
  /\ (Break.currentRate brk <? Break.baselineRate brk) = true.

(** *** Snapshots *)




End Vocabulary.

(** * The loaders, the service and what they run on *)

(** ** Exceptions *)

(** What a call that may throw comes to: the value it returns, or the
    message of the error it throws. *)
Inductive Outcome (A : Type) : Type :=
| Returned (value : A)
| Thrown (message : string).

Arguments Returned {A} _.
Arguments Thrown {A} _.

(** ** Calls with a spread argument *)

(** What the engine that runs the code sets: [f(...items)] passes one
    argument per element, and a call with more arguments than the engine
    takes throws a RangeError. *)
Class Runtime := {
  (** The most arguments one call can take. *)
  argumentLimit : N;
  (** The message of the RangeError of a call with more. *)
  rangeErrorMessage : string;
  (** The message of the TypeError of reading a field of [undefined]. *)
  typeErrorMessage : string
}.

(** The call [f(...items)] takes that many arguments. *)
Definition fits {runtime : Runtime} {A} (items : list A) : bool :=
  (N.of_nat (List.length items) <=? argumentLimit)%N.

(** [target.push(...items)]. *)
Definition pushSpread {runtime : Runtime} {A} (target items : list A)
  : Outcome (list A) :=
  if fits items then Returned (target ++ items)
  else Thrown rangeErrorMessage.

(** ** The core, with what could throw

    The same functions with the accesses that throw a TypeError on
    [undefined] and the call that throws a RangeError written out. *)

(** [xs.map(f)] where [f] can fail: the first failure is the result. *)
Fixpoint traverse {A B} (f : A -> option B) (xs : list A) : option (list B) :=
  match xs with
  | [] => Some []
  | x :: xs' =>
      match f x with
      | None => None
      | Some y =>
          match traverse f xs' with
          | None => None
          | Some ys => Some (y :: ys)
          end
      end
  end.

Section Outcomes.
Context {host : Host} {runtime : Runtime}.
Local Open Scope float_scope.

(** *** FunnelAnalyzer.ts *)

(** One iteration of the grouping loop of [buildSnapshots]; [None] where
    [grouped.get(key)!] is undefined, so that [stageCounts.get] throws. *)
Definition addEventWatched (grouped : JsMap.t StageMap) (event : Event.t)
  : option (JsMap.t StageMap) :=
  let key := snapshotKey (Event.funnelId event) (Event.date event) in
  let grouped :=
    if JsMap.has grouped key then grouped
    else JsMap.set grouped key emptyStageMap in
  match JsMap.get grouped key with
  | None => None
  | Some stageCounts =>
      let existing := orElse (stageCounts (Event.stage event)) 0 in
      Some (JsMap.set grouped key
              (stageMapSet stageCounts (Event.stage event)
                 (existing + Event.count event)))
  end.

(** [const [funnelId, date] = key.split("|")]; [None] where the key has no
    second part, so that [date] is undefined and the comparator of the sort
    throws on [a.date.localeCompare]. *)
Definition snapshotOfEntryWatched (entry : string * StageMap)
  : option FunnelSnapshot.t :=
  match Str.split Str.pipe (fst entry) with
  | funnelId :: date :: _ =>
      Some (FunnelSnapshot.mk date funnelId
              (fun stage => orElse (snd entry stage) 0))
  | _ => None
  end.

Definition buildSnapshotsWatched (events : list Event.t)
  : option (list FunnelSnapshot.t) :=
  match
    fold_left
      (fun grouped event =>
         match grouped with
         | None => None
         | Some grouped => addEventWatched grouped event
         end)
      events (Some JsMap.empty)
  with
  | None => None
  | Some grouped =>
      match traverse snapshotOfEntryWatched grouped with
      | None => None
      | Some snapshots =>
          Some (sortBy (fun a b => (0 <? compareSnapshots a b)%Z) snapshots)
      end
  end.

(** The loop [for (let i = 0; i < STAGE_ORDER.length - 1; i++)] of
    [calculateConversionRates] on one snapshot; [None] where
    [STAGE_ORDER[i]] or [STAGE_ORDER[i + 1]] is undefined. *)
Definition ratesOfWatched (snapshot : FunnelSnapshot.t) : option (list Rate.t) :=
  traverse
    (fun i =>
       match nth_error STAGE_ORDER i, nth_error STAGE_ORDER (i + 1) with
       | Some fromStage, Some toStage => Some (rateOf snapshot (fromStage, toStage))
       | _, _ => None
       end)
    (seq 0 (List.length STAGE_ORDER - 1)).

Definition calculateConversionRatesWatched (snapshots : list FunnelSnapshot.t)
  : option (list ConversionRates.t) :=
  traverse
    (fun snapshot =>
       match ratesOfWatched snapshot with
       | None => None
       | Some rates =>
           Some (ConversionRates.mk (FunnelSnapshot.date snapshot)
                   (FunnelSnapshot.funnelId snapshot) rates)
       end)
    snapshots.

(** *** BreakDetector.ts *)

(** One iteration of the grouping loop of [deduplicateConsecutiveBreaks];
    [None] where [groups.get(key)!] is undefined, so that [push] throws. *)
Definition addToGroupWatched (groups : JsMap.t (list Break.t)) (brk : Break.t)
  : option (JsMap.t (list Break.t)) :=
  let key := breakKey brk in
  let groups := if JsMap.has groups key then groups else JsMap.set groups key [] in
  match JsMap.get groups key with
  | None => None
  | Some group => Some (JsMap.set groups key (group ++ [brk]))
  end.

(** [cluster.reduce(...)] without an initial value; [None] where the cluster
    is empty, on which [reduce] throws. *)
Definition pickPeakBreakWatched (cluster : list Break.t) : option Break.t :=
  match cluster with
  | [] => None
  | first :: rest => Some (pickPeakBreak first rest)
  end.

(** The inner loop over a sorted group, the cluster as the array it is. *)
Fixpoint clusterLoopWatched (prev : Break.t) (cluster remaining : list Break.t)
  : option (list Break.t) :=
  match remaining with
  | [] =>
      match pickPeakBreakWatched cluster with
      | None => None
      | Some peak => Some [peak]
      end
  | curr :: remaining' =>
      let gap := daysDiff (Break.detectedDate prev) (Break.detectedDate curr) in
      if gap <=? 1 then clusterLoopWatched curr (cluster ++ [curr]) remaining'
      else
        match pickPeakBreakWatched cluster with
        | None => None
        | Some peak =>
            match clusterLoopWatched curr [curr] remaining' with
            | None => None
            | Some peaks => Some (peak :: peaks)
            end
        end
  end.

(** What one group contributes; [None] where the group is empty, so that
    [groupBreaks[0]] is undefined: the peak pushed for its cluster is
    undefined too, and the last sort throws on its [detectedDate]. *)
Definition dedupGroupWatched (groupBreaks : list Break.t)
  : option (list Break.t) :=
  match sortByLocale Break.detectedDate groupBreaks with
  | [] => None
  | first :: remaining => clusterLoopWatched first [first] remaining
  end.

Definition deduplicateWatched (breaks : list Break.t) : option (list Break.t) :=
  match breaks with
  | [] => Some []
  | _ =>
      match
        fold_left
          (fun groups brk =>
             match groups with
             | None => None
             | Some groups => addToGroupWatched groups brk
             end)
          breaks (Some JsMap.empty)
      with
      | None => None
      | Some groups =>
          match traverse (fun entry => dedupGroupWatched (snd entry)) groups with
          | None => None
          | Some peaks =>
              Some (sortByLocale Break.detectedDate (List.concat peaks))
          end
      end
  end.

(** [detectBreaks] with the RangeError of [allBreaks.push(...breaks)] and
    the TypeErrors of the deduplication: the two loops carry [allBreaks], or
    the error once it is thrown. *)
Definition detectBreaksOutcome (conversionRates : list ConversionRates.t)
    (config : option BreakDetectorConfig.partial) : Outcome (list Break.t) :=
  let cfg := mergeBreakDetectorConfig config in
  let funnelIds := uniqueStrings [] (map ConversionRates.funnelId conversionRates) in
  let allBreaks :=
    fold_left
      (fun allBreaks funnelId =>
         let funnelRates :=
           sortByLocale ConversionRates.date
             (filter (fun cr => String.eqb (ConversionRates.funnelId cr) funnelId)
                     conversionRates) in
         fold_left
           (fun allBreaks pair =>
              match allBreaks with
              | Thrown message => Thrown message
              | Returned allBreaks =>
                  let timeSeries :=
                    extractTimeSeries funnelRates (fst pair) (snd pair) in
                  let breaks :=
                    detectBreaksInSeries timeSeries funnelId (fst pair) (snd pair)
                      cfg in
                  pushSpread allBreaks breaks
              end)
           stagePairs allBreaks)
      funnelIds (Returned []) in
  match allBreaks with
  | Thrown message => Thrown message
  | Returned allBreaks =>
      match deduplicateWatched allBreaks with
      | None => Thrown typeErrorMessage
      | Some deduplicated => Returned deduplicated
      end
  end.

End Outcomes.

(** The flags of each series, funnel by funnel and stage pair by stage
    pair: what the successive calls of [allBreaks.push(...breaks)] are
    given. *)
Definition flagsBySeries {host : Host} (conversionRates : list ConversionRates.t)
    (cfg : BreakDetectorConfig.t) : list (list Break.t) :=
  flat_map
    (fun funnelId =>
       let funnelRates :=
         sortByLocale ConversionRates.date
           (filter (fun cr => String.eqb (ConversionRates.funnelId cr) funnelId)
                   conversionRates) in
       map (fun pair =>
              detectBreaksInSeries
                (extractTimeSeries funnelRates (fst pair) (snd pair))
                funnelId (fst pair) (snd pair) cfg)
           stagePairs)
    (uniqueStrings [] (map ConversionRates.funnelId conversionRates)).

(** An engine whose calls take a single argument. *)
Definition oneArgument : Runtime :=
  {| argumentLimit := 1;
     rangeErrorMessage := "Maximum call stack size exceeded";
     typeErrorMessage := "Cannot read properties of undefined" |}.

(** Two hosts compare strings alike, and count the days between dates
    alike. *)
Definition sameCollation (host host' : Host) : Prop :=
  forall a b, @localeCompare host a b = @localeCompare host' a b.

Definition sameCalendar (host host' : Host) : Prop :=
  forall a b, @dayjsDiffDays host a b = @dayjsDiffDays host' a b.

(** Two hosts compute [Math.exp] and [toFixed] alike. *)
Definition sameArithmetic (host host' : Host) : Prop :=
  (forall x, @Math_exp host x = @Math_exp host' x)
  /\ (forall x digits, @toFixed host x digits = @toFixed host' x digits).

(** ** Records of a CSV file *)

(** A record as csv-parse returns it with [columns: true]: an object that
    maps the column names of the header to the fields of the line. *)
Definition Row := JsMap.t string.

(** [!v] is false: the field is present and not the empty string. *)
Definition truthy (v : option string) : bool :=
  match v with
  | Some (String _ _) => true
  | _ => false
  end.

(** [v || undefined]. *)
Definition orUndefined (v : option string) : option string :=
  if truthy v then v else None.

Definition isDigit (c : ascii) : bool :=
  let n := nat_of_ascii c in (48 <=? n)%nat && (n <=? 57)%nat.

(** [/^\d{4}-\d{2}-\d{2}$/.test(s)]. *)
Definition isoDatePattern (s : string) : bool :=
  match list_ascii_of_string s with
  | [y1; y2; y3; y4; s1; m1; m2; s2; d1; d2] =>
      isDigit y1 && isDigit y2 && isDigit y3 && isDigit y4
      && Ascii.eqb s1 "-"
      && isDigit m1 && isDigit m2
      && Ascii.eqb s2 "-"
      && isDigit d1 && isDigit d2
  | _ => false
  end.

(** [Object.values(ChangeCategory)]. *)
Definition CATEGORY_ORDER : list ChangeCategory :=
  [AD; SITE; EXTERNAL; TRACKING; PRICING; AUDIENCE].

(** The member of [VALID_STAGES] a string is, if any. *)
Definition stageOfToken (s : string) : option FunnelStage :=
  find (fun stage => String.eqb (stageToken stage) s) STAGE_ORDER.

(** The member of [VALID_CATEGORIES] a string is, if any. *)
Definition categoryOfToken (s : string) : option ChangeCategory :=
  find (fun category => String.eqb (categoryToken category) s) CATEGORY_ORDER.

Module LoaderError.
Record t := mk {
  line : nat;
  message : string
}.
End LoaderError.

Module EventLoaderResult.
Record t := mk {
  events : list Event.t;
  errors : list LoaderError.t
}.
End EventLoaderResult.

Module ChangeLoaderResult.
Record t := mk {
  changes : list Change.t;
  errors : list LoaderError.t
}.
End ChangeLoaderResult.

(** ** What the platform provides to the loaders, the service and the
    repositories *)

Class Platform := {
  (** [fs.readFileSync(path, "utf-8")]. *)
  readFileSync : string -> Outcome string;
  (** [parse(content, { columns: true, skip_empty_lines: true, trim: true })]
      of csv-parse. *)
  parse : string -> Outcome (list Row);
  (** [parseInt(s, radix)]. *)
  parseInt : string -> nat -> float;
  (** [s.toLowerCase()]. *)
  toLowerCase : string -> string;
  (** [s.trim()]. *)
  trim : string -> string;
  (** [String(x)] of a number, also what it becomes in a template
      literal. *)
  numberToString : float -> string
}.

(** The readings the successive calls of [Date.now()] will return. *)
Definition Timer := nat -> float.

Definition Date_now (t : Timer) : float * Timer :=
  (t 0%nat, fun n => t (S n)).

(** The elements of an array with their indices. *)
Definition indexed {A} (l : list A) : list (nat * A) :=
  combine (seq 0 (List.length l)) l.

Module Metadata.
Record t := mk {
  eventsLoaded : nat;
  changesLoaded : nat;
  breaksDetected : nat;
  loadErrors : list LoaderError.t;
  executionTimeMs : float
}.
End Metadata.

Module DiagnosisResult.
Record t := mk {
  diagnoses : list Diagnosis.t;
  metadata : Metadata.t
}.
End DiagnosisResult.

Module DiagnosisServiceConfig.
Record t := mk {
  eventsPath : string;
  changesPath : string;
  breakDetectorConfig : option BreakDetectorConfig.partial;
  causeAnalyzerConfig : option CauseAnalyzerConfig.partial
}.
(** The optional third argument of [runDiagnosisFromData]. *)
Record engines := mkEngines {
  breakDetectorConfig' : option BreakDetectorConfig.partial;
  causeAnalyzerConfig' : option CauseAnalyzerConfig.partial
}.
End DiagnosisServiceConfig.

Section Loaders.
Context {platform : Platform}.
Local Open Scope float_scope.

(** *** CsvEventLoader.ts *)

(** The body of the loop of [loadEventsFromCsv] on one record: the error it
    pushes, or the event it pushes. *)
Definition loadEventRow (lineNum : nat) (row : Row) : LoaderError.t + Event.t :=
  match JsMap.get row "date", JsMap.get row "funnel_id",
        JsMap.get row "stage", JsMap.get row "count" with
  | Some date, Some funnel_id, Some stageField, Some countField =>
      if negb (truthy (Some date)) || negb (truthy (Some funnel_id))
         || negb (truthy (Some stageField))
      then inl (LoaderError.mk lineNum "Missing required field(s)")
      else if negb (isoDatePattern date)
      then inl (LoaderError.mk lineNum ("Invalid date format: " +++ date))
      else
        match stageOfToken (toLowerCase stageField) with
        | None => inl (LoaderError.mk lineNum ("Invalid stage: " +++ stageField))
        | Some stage =>
            let count := parseInt countField 10 in
            if is_nan count || (count <? 0)
            then inl (LoaderError.mk lineNum ("Invalid count: " +++ countField))
            else inr (Event.mk None date funnel_id stage count
                        (orUndefined (JsMap.get row "source")))
        end
  | _, _, _, _ => inl (LoaderError.mk lineNum "Missing required field(s)")
  end.

(** The loop of [loadEventsFromCsv] over the parsed records. *)
Definition loadEventRecords (records : list Row) : EventLoaderResult.t :=
  fold_left
    (fun result entry =>
       match loadEventRow (fst entry + 2) (snd entry) with
       | inl error =>
           EventLoaderResult.mk (EventLoaderResult.events result)
             (EventLoaderResult.errors result ++ [error])
       | inr event =>
           EventLoaderResult.mk (EventLoaderResult.events result ++ [event])
             (EventLoaderResult.errors result)
       end)
    (indexed records) (EventLoaderResult.mk [] []).

Definition loadEventsFromCsv (filePath : string) : Outcome EventLoaderResult.t :=
  match readFileSync filePath with
  | Thrown message => Thrown message
  | Returned content =>
      match parse content with
      | Thrown message => Thrown message
      | Returned records => Returned (loadEventRecords records)
      end
  end.

(** *** CsvChangeLoader.ts *)

(** [field.split(";").map((s) => s.trim()).filter(Boolean)]. *)
Definition parseAffectedStages (field : string) : list string :=
  filter (fun s => truthy (Some s)) (map trim (Str.split ";" field)).

Definition loadChangeRow (lineNum : nat) (row : Row) : LoaderError.t + Change.t :=
  match JsMap.get row "date", JsMap.get row "funnel_id",
        JsMap.get row "category", JsMap.get row "description",
        JsMap.get row "severity" with
  | Some date, Some funnel_id, Some categoryField, Some description,
    Some severityField =>
      if negb (truthy (Some date)) || negb (truthy (Some funnel_id))
         || negb (truthy (Some categoryField))
         || negb (truthy (Some description))
      then inl (LoaderError.mk lineNum "Missing required field(s)")
      else if negb (isoDatePattern date)
      then inl (LoaderError.mk lineNum ("Invalid date format: " +++ date))
      else
        match categoryOfToken (toLowerCase categoryField) with
        | None =>
            inl (LoaderError.mk lineNum ("Invalid category: " +++ categoryField))
        | Some category =>
            let severity := parseInt severityField 10 in
            if is_nan severity || (severity <? 1) || (5 <? severity)
            then inl (LoaderError.mk lineNum
                        ("Invalid severity (must be 1-5): " +++ severityField))
            else
              let affectedStages :=
                if truthy (JsMap.get row "affected_stages")
                then option_map parseAffectedStages
                       (JsMap.get row "affected_stages")
                else None in
              inr (Change.mk None date funnel_id category description severity
                     affectedStages)
        end
  | _, _, _, _, _ => inl (LoaderError.mk lineNum "Missing required field(s)")
  end.

Definition loadChangeRecords (records : list Row) : ChangeLoaderResult.t :=
  fold_left
    (fun result entry =>
       match loadChangeRow (fst entry + 2) (snd entry) with
       | inl error =>
           ChangeLoaderResult.mk (ChangeLoaderResult.changes result)
             (ChangeLoaderResult.errors result ++ [error])
       | inr change =>
           ChangeLoaderResult.mk (ChangeLoaderResult.changes result ++ [change])
             (ChangeLoaderResult.errors result)
       end)
    (indexed records) (ChangeLoaderResult.mk [] []).

Definition loadChangesFromCsv (filePath : string) : Outcome ChangeLoaderResult.t :=
  match readFileSync filePath with
  | Thrown message => Thrown message
  | Returned content =>
      match parse content with
      | Thrown message => Thrown message
      | Returned records => Returned (loadChangeRecords records)
      end
  end.

End Loaders.

Section Service.
Context {host : Host} {runtime : Runtime} {platform : Platform}.
Local Open Scope float_scope.

(** *** DiagnosisService.ts *)

Definition runDiagnosis (config : DiagnosisServiceConfig.t)
    (clock : Clock) (timer : Timer)
  : Outcome (DiagnosisResult.t * Clock * Timer) :=
  let (startTime, timer) := Date_now timer in
  let loadErrors : list LoaderError.t := [] in
  match loadEventsFromCsv (DiagnosisServiceConfig.eventsPath config) with
  | Thrown message => Thrown message
  | Returned eventResult =>
      let events := EventLoaderResult.events eventResult in
      match pushSpread loadErrors (EventLoaderResult.errors eventResult) with
      | Thrown message => Thrown message
      | Returned loadErrors =>
          match loadChangesFromCsv (DiagnosisServiceConfig.changesPath config) with
          | Thrown message => Thrown message
          | Returned changeResult =>
              let changes := ChangeLoaderResult.changes changeResult in
              match pushSpread loadErrors
                      (ChangeLoaderResult.errors changeResult) with
              | Thrown message => Thrown message
              | Returned loadErrors =>
                  let snapshots := buildSnapshots events in
                  let conversionRates := calculateConversionRates snapshots in
                  match detectBreaksOutcome conversionRates
                          (DiagnosisServiceConfig.breakDetectorConfig config) with
                  | Thrown message => Thrown message
                  | Returned breaks =>
                      match analyzeCauses breaks changes
                              (DiagnosisServiceConfig.causeAnalyzerConfig config)
                              clock with
                      | None => Thrown typeErrorMessage
                      | Some (diagnoses, clock) =>
                          let (endTime, timer) := Date_now timer in
                          Returned
                            (DiagnosisResult.mk diagnoses
                               (Metadata.mk (List.length events)
                                  (List.length changes) (List.length breaks)
                                  loadErrors (endTime - startTime)),
                             clock, timer)
                      end
                  end
              end
          end
      end
  end.

Definition runDiagnosisFromData (events : list Event.t) (changes : list Change.t)
    (config : option DiagnosisServiceConfig.engines)
    (clock : Clock) (timer : Timer)
  : Outcome (DiagnosisResult.t * Clock * Timer) :=
  let (startTime, timer) := Date_now timer in
  let snapshots := buildSnapshots events in
  let conversionRates := calculateConversionRates snapshots in
  match detectBreaksOutcome conversionRates
          (match config with
           | Some c => DiagnosisServiceConfig.breakDetectorConfig' c
           | None => None
           end) with
  | Thrown message => Thrown message
  | Returned breaks =>
      match analyzeCauses breaks changes
              (match config with
               | Some c => DiagnosisServiceConfig.causeAnalyzerConfig' c
               | None => None
               end) clock with
      | None => Thrown typeErrorMessage
      | Some (diagnoses, clock) =>
          let (endTime, timer) := Date_now timer in
          Returned
            (DiagnosisResult.mk diagnoses
               (Metadata.mk (List.length events) (List.length changes)
                  (List.length breaks) [] (endTime - startTime)),
             clock, timer)
      end
  end.

End Service.


(** ** A reference platform

    A concrete [Platform] on which the loaders and the service run inside
    Rocq: files held in a map, a reader of CSV text without quoted fields,
    [parseInt], [toLowerCase] and [trim] on ASCII text, and the writing of
    whole numbers. *)

Module RefPlatform.

Definition newline : ascii := ascii_of_nat 10.

Definition isSpace (c : ascii) : bool :=
  let n := nat_of_ascii c in
  (n =? 32)%nat || ((9 <=? n)%nat && (n <=? 13)%nat).

Fixpoint trimStart (s : string) : string :=
  match s with
  | EmptyString => EmptyString
  | String c s' => if isSpace c then trimStart s' else s
  end.

Definition reverse (s : string) : string :=
  string_of_list_ascii (rev (list_ascii_of_string s)).

Definition trimRef (s : string) : string :=
  reverse (trimStart (reverse (trimStart s))).

Definition lowerChar (c : ascii) : ascii :=
  let n := nat_of_ascii c in
  if (65 <=? n)%nat && (n <=? 90)%nat then ascii_of_nat (n + 32) else c.

Fixpoint toLowerCaseRef (s : string) : string :=
  match s with
  | EmptyString => EmptyString
  | String c s' => String (lowerChar c) (toLowerCaseRef s')
  end.

(** The leading decimal digits of a string, most significant first. *)
Fixpoint leadingDigits (s : string) : list Z :=
  match s with
  | EmptyString => []
  | String c s' =>
      match RefHost.digitOf c with
      | Some d => d :: leadingDigits s'
      | None => []
      end
  end.

(** The binary64 value nearest to an integer. *)
Definition numberOfZ (z : Z) : float :=
  SF2Prim (binary_normalize prec emax z 0 false).

(** [parseInt(s, 10)]: leading white space, a sign, then digits; NaN
    without a digit. Another radix is not provided. *)
Definition parseIntRef (s : string) (radix : nat) : float :=
  if negb (radix =? 10)%nat then nan
  else
    let s := trimStart s in
    let negative := match s with String "-" _ => true | _ => false end in
    let body :=
      match s with
      | String "-" s' => s'
      | String "+" s' => s'
      | _ => s
      end in
    match leadingDigits body with
    | [] => nan
    | digits =>
        let value := numberOfZ (fold_left (fun acc d => 10 * acc + d)%Z digits 0%Z) in
        if negative then (- value)%float else value
    end.

Definition thrownBy {A} (o : Outcome A) : bool :=
  match o with Thrown _ => true | Returned _ => false end.

(** One record per line after the header, the fields split at the commas
    and trimmed, empty lines skipped; a line with another number of fields
    than the header is an error. *)
Fixpoint readRecords (columns : list string) (lines : list string)
  : Outcome (list Row) :=
  match lines with
  | [] => Returned []
  | line :: lines' =>
      let fields := map trimRef (Str.split "," line) in
      if negb (List.length fields =? List.length columns)%nat
      then Thrown "Invalid Record Length"
      else
        match readRecords columns lines' with
        | Thrown message => Thrown message
        | Returned records => Returned (combine columns fields :: records)
        end
  end.

Definition parseRef (content : string) : Outcome (list Row) :=
  let lines :=
    filter (fun line => negb (String.eqb line EmptyString))
           (map trimRef (Str.split newline content)) in
  match lines with
  | [] => Returned []
  | header :: lines' => readRecords (map trimRef (Str.split "," header)) lines'
  end.

(** The decimal writing of a whole number, and any other finite number
    rounded to six decimals. This is [String(x)] for the whole numbers
    below 10^21, as row ids, counts and milliseconds are, and stands in
    for it elsewhere. *)
Definition numberToStringRef (x : float) : string :=
  match Prim2SF x with
  | S754_nan => "NaN"
  | S754_infinity s => if s then "-Infinity" else "Infinity"
  | S754_zero _ => "0"
  | S754_finite s m e =>
      let sign := if s then "-"%string else EmptyString in
      let whole :=
        if (0 <=? e)%Z then Some (Zpos m * 2 ^ e)%Z
        else if (Zpos m mod 2 ^ (- e) =? 0)%Z then Some (Zpos m / 2 ^ (- e))%Z
        else None in
      match whole with
      | Some n => sign +++ RefHost.decimalOfZ n
      | None =>
          let millionths := RefHost.scaledRound m e 6 in
          sign +++ RefHost.decimalOfZ (millionths / 10 ^ 6) +++ "."
          +++ RefHost.padLeft 6 (RefHost.decimalOfZ (millionths mod 10 ^ 6))
      end
  end.

(** An engine whose calls take at most 65535 arguments. *)
Definition runtime : Runtime :=
  {| argumentLimit := 65535;
     rangeErrorMessage := "Maximum call stack size exceeded";
     typeErrorMessage := "Cannot read properties of undefined" |}.

Definition readFileRef (files : JsMap.t string) (path : string) : Outcome string :=
  match JsMap.get files path with
  | Some content => Returned content
  | None => Thrown ("ENOENT: no such file or directory, open '" +++ path +++ "'")
  end.

Definition platform (files : JsMap.t string) : Platform :=
  {| readFileSync := readFileRef files;
     parse := parseRef;
     parseInt := parseIntRef;
     toLowerCase := toLowerCaseRef;
     trim := trimRef;
     numberToString := numberToStringRef |}.

(** A timer that advances by a fixed number of milliseconds per reading. *)
Definition steadyTimer (start step : float) : Timer :=
  fun n => (start + step * Num.ofNat n)%float.

End RefPlatform.

(** ** Sample files *)

Module Files.

Local Open Scope string_scope.

Definition line (fields : list string) : string :=
  joinWith "," fields +++ String RefPlatform.newline EmptyString.

(** The events as the lines of a CSV file. *)
Definition eventLine (e : Event.t) : string :=
  line [Event.date e; Event.funnelId e; stageToken (Event.stage e);
        RefHost.toFixedRef (Event.count e) 0; orElse (Event.source e) EmptyString].

Definition eventsCsv (events : list Event.t) : string :=
  line ["date"; "funnel_id"; "stage"; "count"; "source"]
  +++ String.concat EmptyString (map eventLine events).

(** The regression scenario, with a line that has no count and a line with
    an unknown stage. *)
Definition regressionCsv : string :=
  eventsCsv Runs.regressionEvents
  +++ line ["2025-01-23"; "test-funnel"; "click"; "many"; "manual"]
  +++ line ["2025-01-23"; "test-funnel"; "checkout"; "12"; "manual"].

Definition changesCsv : string :=
  line ["date"; "funnel_id"; "category"; "description"; "severity";
        "affected_stages"]
  +++ line ["2025-01-21"; "test-funnel"; "SITE"; "Deployed new landing page"; "4";
            "landing; lead"]
  +++ line ["2025-01-20"; "*"; "external"; "Competitor sale"; "9"; EmptyString].

Definition disk : JsMap.t string :=
  [("events.csv", regressionCsv); ("changes.csv", changesCsv)].

Definition regressionConfig : DiagnosisServiceConfig.t :=
  DiagnosisServiceConfig.mk "events.csv" "changes.csv" None None.

End Files.

(** ** More sample inputs *)

Module Series.

Local Open Scope float_scope.
Local Open Scope string_scope.

(** Three steady days and a drop on the fourth. *)
Definition firstDays : list RateDataPoint.t :=
  [RateDataPoint.mk "2025-01-01" 0.8; RateDataPoint.mk "2025-01-02" 0.8;
   RateDataPoint.mk "2025-01-03" 0.8; RateDataPoint.mk "2025-01-04" 0.4].

Definition fifthDay : RateDataPoint.t := RateDataPoint.mk "2025-01-05" 0.3.

(** Windows of three and one days, two baseline points, the default
    thresholds. *)
Definition loose : BreakDetectorConfig.t :=
  BreakDetectorConfig.mk 3 1 0.15 1.5 2.

(** The same windows with higher thresholds. *)
Definition strict : BreakDetectorConfig.t :=
  BreakDetectorConfig.mk 3 1 0.45 3 2.

(** Two changes of the funnel of [Runs.testBreak], two days and one day
    before the break is detected. *)
Definition adRefresh : Change.t :=
  Change.mk None "2025-01-13" "test-funnel" AD "Refreshed ad creatives" 2 None.

Definition landingRedesign : Change.t :=
  Change.mk None "2025-01-14" "test-funnel" SITE "Redesigned the landing page" 4
    (Some ["landing"]).

End Series.

(** ** More vocabulary *)

(** The severities in ascending order. *)
Definition severityRank (s : BreakSeverity) : nat :=
  match s with
  | WARNING => 0
  | SIGNIFICANT => 1
  | CRITICAL => 2
  end.

(** What one turn of a loader's loop pushes to the kept, and to the
    rejected. *)
Definition keptOf {E V} (r : E + V) : list V :=
  match r with inr v => [v] | inl _ => [] end.

Definition rejectedOf {E V} (r : E + V) : list E :=
  match r with inl e => [e] | inr _ => [] end.

(** ** The command line *)

(** What Node.js provides to the command line beyond the platform of the
    service. *)
Class Node := {
  (** [parseFloat(s)]. *)
  parseFloat : string -> float;
  (** [path.resolve(p)]. *)
  path_resolve : string -> string;
  (** [JSON.stringify(result, null, 2)]. *)
  JSON_stringify : DiagnosisResult.t -> string
}.

Module CliArgs.
Record t := mk {
  events : option string;
  changes : option string;
  format : option string;
  baselineDays : option float;
  currentDays : option float;
  minDrop : option float
}.
End CliArgs.

(** One call of [console.log] or of [console.error]. *)
Inductive Printed :=
| Log (text : string)
| Error (text : string).

(** What a function that may call [process.exit] comes to: what it printed
    and, when it exits, the code. *)
Inductive Run (A : Type) : Type :=
| Continues (value : A)
| Exits (printed : list Printed) (code : nat).

Arguments Continues {A} _.
Arguments Exits {A} _ _.

Definition statusToken (s : DiagnosisStatus) : string :=
  match s with
  | IDENTIFIED => "identified"
  | UNCERTAIN => "uncertain"
  | UNKNOWN => "unknown"
  end.

(** The decimal writing of an array length or of an index. *)
Definition natToString (n : nat) : string :=
  DecimalString.NilZero.string_of_uint (Nat.to_uint n).

(** [s.repeat(n)]. *)
Definition repeatString (s : string) (n : nat) : string :=
  String.concat EmptyString (repeat s n).

Definition lineFeed : string := String (ascii_of_nat 10) EmptyString.

(** The text of [printUsage]. *)
Definition usage : string :=
  String.concat lineFeed
    [EmptyString;
     "Usage: npx ts-node src/interfaces/cli/runDiagnosis.ts [options]";
     EmptyString;
     "Required:";
     "  --events <path>        Path to events CSV file";
     "  --changes <path>       Path to changes CSV file";
     EmptyString;
     "Optional:";
     "  --format <table|json>  Output format (default: table)";
     "  --baseline-days <n>    Baseline window in days (default: 14)";
     "  --current-days <n>     Current window in days (default: 3)";
     "  --min-drop <n>         Minimum relative drop threshold (default: 0.15)";
     "  --help                 Show this help message";
     EmptyString]%string.

Definition printUsage : list Printed := [Log usage].

(** [String(v)] of an element of [argv] that may be missing. *)
Definition stringOfArg (v : option string) : string :=
  orElse v "undefined"%string.

Section CommandLine.
Context {host : Host} {runtime : Runtime} {platform : Platform} {node : Node}.
Local Open Scope float_scope.

(** The loop of [parseArgs] from the argument at hand on: an option takes
    the next element of [argv] as its value, whatever it is, and the loop
    goes on after it. *)
Fixpoint parseArgsFrom (args : CliArgs.t) (rest : list string) : Run CliArgs.t :=
  match rest with
  | [] => Continues args
  | arg :: rest' =>
      let value := hd_error rest' in
      let continue := fun args' =>
        match rest' with
        | [] => Continues args'
        | _ :: rest'' => parseArgsFrom args' rest''
        end in
      if String.eqb arg "--events" then
        continue (CliArgs.mk value (CliArgs.changes args) (CliArgs.format args)
                    (CliArgs.baselineDays args) (CliArgs.currentDays args)
                    (CliArgs.minDrop args))
      else if String.eqb arg "--changes" then
        continue (CliArgs.mk (CliArgs.events args) value (CliArgs.format args)
                    (CliArgs.baselineDays args) (CliArgs.currentDays args)
                    (CliArgs.minDrop args))
      else if String.eqb arg "--format" then
        continue (CliArgs.mk (CliArgs.events args) (CliArgs.changes args) value
                    (CliArgs.baselineDays args) (CliArgs.currentDays args)
                    (CliArgs.minDrop args))
      else if String.eqb arg "--baseline-days" then
        continue (CliArgs.mk (CliArgs.events args) (CliArgs.changes args)
                    (CliArgs.format args)
                    (Some (parseInt (stringOfArg value) 10))
                    (CliArgs.currentDays args) (CliArgs.minDrop args))
      else if String.eqb arg "--current-days" then
        continue (CliArgs.mk (CliArgs.events args) (CliArgs.changes args)
                    (CliArgs.format args) (CliArgs.baselineDays args)
                    (Some (parseInt (stringOfArg value) 10))
                    (CliArgs.minDrop args))
      else if String.eqb arg "--min-drop" then
        continue (CliArgs.mk (CliArgs.events args) (CliArgs.changes args)
                    (CliArgs.format args) (CliArgs.baselineDays args)
                    (CliArgs.currentDays args)
                    (Some (parseFloat (stringOfArg value))))
      else if String.eqb arg "--help" then
        Exits printUsage 0
      else
        Exits (Error ("Unknown argument: " +++ arg) :: printUsage) 2
  end.

Definition parseArgs (argv : list string) : Run CliArgs.t :=
  match parseArgsFrom
          (CliArgs.mk (Some EmptyString) (Some EmptyString) (Some "table"%string)
             None None None)
          (skipn 2 argv) with
  | Exits printed code => Exits printed code
  | Continues args =>
      if negb (truthy (CliArgs.events args)) || negb (truthy (CliArgs.changes args))
      then Exits (Error "Error: --events and --changes are required."
                  :: printUsage) 2
      else Continues args
  end.

(** The three lines of one cause of the table. *)
Definition formatCause (entry : nat * CauseCandidate.t) : list Printed :=
  let j := fst entry in
  let cause := snd entry in
  let confPct := toFixed (CauseCandidate.confidence cause * 100) 0 in
  let bd := CauseCandidate.scoreBreakdown cause in
  [Log ("  #" +++ natToString (j + 1) +++ " [" +++ confPct +++ "% confidence] "
        +++ dquote +++ CauseCandidate.changeDescription cause +++ dquote);
   Log ("     Category: " +++ categoryToken (CauseCandidate.changeCategory cause)
        +++ " | Date: " +++ CauseCandidate.changeDate cause
        +++ " | Severity: " +++ numberToString (CauseCandidate.changeSeverity cause)
        +++ "/5");
   Log ("     Scores: temporal=" +++ toFixed (ScoreBreakdown.temporalScore bd) 3
        +++ " category=" +++ toFixed (ScoreBreakdown.categoryRelevanceScore bd) 2
        +++ " severity=" +++ toFixed (ScoreBreakdown.severityScore bd) 2
        +++ " stage_match="
        +++ (if Num.gtb (ScoreBreakdown.stageMatchBonus bd) 0 then "+"
             else EmptyString)
        +++ toFixed (ScoreBreakdown.stageMatchBonus bd) 1)].

(** The lines of one break of the table. *)
Definition formatDiagnosis (divider : string) (entry : nat * Diagnosis.t)
  : list Printed :=
  let i := fst entry in
  let diag := snd entry in
  let brk := Diagnosis.break diag in
  [Log (lineFeed +++ divider);
   Log ("BREAK #" +++ natToString (i + 1) +++ " ["
        +++ toUpperCase (severityToken (Break.severity brk)) +++ "]");
   Log ("  Funnel:     " +++ Break.funnelId brk);
   Log ("  Transition: " +++ stageToken (Break.fromStage brk) +++ " -> "
        +++ stageToken (Break.toStage brk));
   Log ("  Date:       " +++ Break.detectedDate brk);
   Log ("  Baseline:   " +++ toFixed (Break.baselineRate brk * 100) 1 +++ "%");
   Log ("  Current:    " +++ toFixed (Break.currentRate brk * 100) 1 +++ "%");
   Log ("  Drop:       -" +++ toFixed (Break.absoluteDrop brk * 100) 1
        +++ "% absolute / -" +++ toFixed (Break.relativeDrop brk * 100) 1
        +++ "% relative");
   Log ("  Z-Score:    " +++ toFixed (Break.zScore brk) 2)]
  ++ (if (0 <? List.length (Diagnosis.causes diag))%nat
      then Log (lineFeed +++ "  LIKELY CAUSES:")
           :: flat_map formatCause (indexed (firstn 5 (Diagnosis.causes diag)))
      else [])
  ++ [Log (lineFeed +++ "  STATUS: "
           +++ toUpperCase (statusToken (Diagnosis.diagnosisStatus diag)));
      Log ("  SUMMARY: " +++ Diagnosis.summary diag)].

(** [formatTableOutput]: what it prints, and the clock after the reading of
    [new Date()]. *)
Definition formatTableOutput (result : DiagnosisResult.t) (clock : Clock)
  : list Printed * Clock :=
  let line := repeatString "=" 56 in
  let divider := repeatString "-" 56 in
  let (generated, clock') := now clock in
  let metadata := DiagnosisResult.metadata result in
  let loadErrors := Metadata.loadErrors metadata in
  let head :=
    [Log (lineFeed +++ line);
     Log " FUNNEL GUARD - Diagnosis Report";
     Log (" Generated: " +++ generated);
     Log line;
     Log (lineFeed +++ "DATA SUMMARY");
     Log ("  Events loaded:  " +++ natToString (Metadata.eventsLoaded metadata));
     Log ("  Changes loaded: " +++ natToString (Metadata.changesLoaded metadata));
     Log ("  Load errors:    " +++ natToString (List.length loadErrors));
     Log ("  Breaks found:   " +++ natToString (Metadata.breaksDetected metadata));
     Log ("  Execution time: "
          +++ numberToString (Metadata.executionTimeMs metadata) +++ "ms")]
    ++ (if (0 <? List.length loadErrors)%nat
        then Log (lineFeed +++ "  LOAD ERRORS:")
             :: map (fun err =>
                       Log ("    Line " +++ natToString (LoaderError.line err)
                            +++ ": " +++ LoaderError.message err))
                    (firstn 10 loadErrors)
             ++ (if (10 <? List.length loadErrors)%nat
                 then [Log ("    ... and "
                            +++ natToString (List.length loadErrors - 10)
                            +++ " more")]
                 else [])
        else []) in
  if (List.length (DiagnosisResult.diagnoses result) =? 0)%nat
  then (head
        ++ [Log (lineFeed +++ divider);
            Log "  No breaks detected. Funnel performance is stable.";
            Log (line +++ lineFeed)],
        clock')
  else (head
        ++ flat_map (formatDiagnosis divider)
             (indexed (DiagnosisResult.diagnoses result))
        ++ [Log (lineFeed +++ line);
            Log "END OF REPORT";
            Log (line +++ lineFeed)],
        clock').

Definition isCritical (d : Diagnosis.t) : bool :=
  match Break.severity (Diagnosis.break d) with
  | CRITICAL => true
  | _ => false
  end.

(** The argument [main] gives to [runDiagnosis]: the resolved paths, and
    the settings of the break detector that were given on the command
    line. *)
Definition serviceConfigOf (args : CliArgs.t) : DiagnosisServiceConfig.t :=
  let eventsPath := path_resolve (stringOfArg (CliArgs.events args)) in
  let changesPath := path_resolve (stringOfArg (CliArgs.changes args)) in
  DiagnosisServiceConfig.mk eventsPath changesPath
    (Some (BreakDetectorConfig.mkPartial (CliArgs.baselineDays args)
             (CliArgs.currentDays args) (CliArgs.minDrop args) None None))
    None.

(** [main]: everything it prints and the code it exits with. *)
Definition main (argv : list string) (clock : Clock) (timer : Timer)
  : list Printed * nat :=
  match parseArgs argv with
  | Exits printed code => (printed, code)
  | Continues args =>
      match runDiagnosis (serviceConfigOf args) clock timer with
      | Thrown message => ([Error ("Error: " +++ message)], 2%nat)
      | Returned (result, clock', _) =>
          let printed :=
            if String.eqb (stringOfArg (CliArgs.format args)) "json"
            then [Log (JSON_stringify result)]
            else fst (formatTableOutput result clock') in
          let hasCritical := existsb isCritical (DiagnosisResult.diagnoses result) in
          (printed, if hasCritical then 1%nat else 0%nat)
      end
  end.

End CommandLine.

(** ** The repositories *)

(** The values [insertMany] binds to the parameters of its INSERT statement
    for one event, and a row of the table [events] as a SELECT returns it.
    The stage is one of the five tokens, which is all the table admits. *)
Module EventBinding.
Record t := mk {
  date : string;
  funnelId : string;
  stage : FunnelStage;
  count : float;
  source : string
}.
End EventBinding.

Module EventRow.
Record t := mk {
  id : float;
  date : string;
  funnel_id : string;
  stage : FunnelStage;
  count : float;
  source : option string
}.
End EventRow.

(** The same for one change and the table [changes]; [None] is NULL. *)
Module ChangeBinding.
Record t := mk {
  date : string;
  funnelId : string;
  category : ChangeCategory;
  description : string;
  severity : float;
  affectedStages : option string
}.
End ChangeBinding.

Module ChangeRow.
Record t := mk {
  id : float;
  date : string;
  funnel_id : string;
  category : ChangeCategory;
  description : string;
  severity : float;
  affected_stages : option string
}.
End ChangeRow.

Definition semicolon : ascii := ";"%char.

Section Repositories.
Context {platform : Platform}.

(** *** EventRepository.ts *)

(** The object [insertMany] passes to [insertStmt.run] for one event. *)
Definition eventBindingOf (evt : Event.t) : EventBinding.t :=
  EventBinding.mk (Event.date evt) (Event.funnelId evt) (Event.stage evt)
    (Event.count evt) (orElse (Event.source evt) EmptyString).

Definition mapEventRows (rows : list EventRow.t) : list Event.t :=
  map (fun r =>
         Event.mk (Some (numberToString (EventRow.id r))) (EventRow.date r)
           (EventRow.funnel_id r) (EventRow.stage r) (EventRow.count r)
           (orUndefined (EventRow.source r)))
      rows.

(** *** ChangeRepository.ts *)

(** The object [insertMany] passes to [insertStmt.run] for one change. *)
Definition changeBindingOf (chg : Change.t) : ChangeBinding.t :=
  ChangeBinding.mk (Change.date chg) (Change.funnelId chg) (Change.category chg)
    (Change.description chg) (Change.severity chg)
    (option_map (joinWith semicolon) (Change.affectedStages chg)).

Definition mapChangeRows (rows : list ChangeRow.t) : list Change.t :=
  map (fun r =>
         Change.mk (Some (numberToString (ChangeRow.id r))) (ChangeRow.date r)
           (ChangeRow.funnel_id r) (ChangeRow.category r)
           (ChangeRow.description r) (ChangeRow.severity r)
           (if truthy (ChangeRow.affected_stages r)
            then option_map
                   (fun field =>
                      filter (fun s => truthy (Some s))
                             (Str.split semicolon field))
                   (ChangeRow.affected_stages r)
            else None))
      rows.

End Repositories.

(** *** Vocabulary of the round trips *)

(** The row holds, column by column, the values bound for the event. *)
Definition holdsEvent (r : EventRow.t) (b : EventBinding.t) : Prop :=
  EventRow.date r = EventBinding.date b
  /\ EventRow.funnel_id r = EventBinding.funnelId b
  /\ EventRow.stage r = EventBinding.stage b
  /\ EventRow.count r = EventBinding.count b
  /\ EventRow.source r = Some (EventBinding.source b).

(** The row holds, column by column, the values bound for the change. *)
Definition holdsChange (r : ChangeRow.t) (b : ChangeBinding.t) : Prop :=
  ChangeRow.date r = ChangeBinding.date b
  /\ ChangeRow.funnel_id r = ChangeBinding.funnelId b
  /\ ChangeRow.category r = ChangeBinding.category b
  /\ ChangeRow.description r = ChangeBinding.description b
  /\ ChangeRow.severity r = ChangeBinding.severity b
  /\ ChangeRow.affected_stages r = ChangeBinding.affectedStages b.

(** A stage name that survives the encoding of the column: not empty, and
    without the separator. *)
Definition plainStage (s : string) : Prop :=
  s <> EmptyString /\ Str.mem semicolon s = false.

(** A candidate with another [changeId]. *)
Definition withChangeId (id : string) (c : CauseCandidate.t) : CauseCandidate.t :=
  CauseCandidate.mk id (CauseCandidate.changeDescription c)
    (CauseCandidate.changeCategory c) (CauseCandidate.changeDate c)
    (CauseCandidate.changeSeverity c) (CauseCandidate.confidence c)
    (CauseCandidate.scoreBreakdown c).

(** The lines of the block of the load errors, and of the block of the
    causes of one diagnosis, in the table of the command line. *)
Definition errorLines (errors : nat) : nat :=
  if (errors =? 0)%nat then 0
  else 1 + Nat.min errors 10 + (if (10 <? errors)%nat then 1 else 0).

Definition causeLines (d : Diagnosis.t) : nat :=
  match Diagnosis.causes d with
  | [] => 0
  | causes => 1 + 3 * Nat.min (List.length causes) 5
  end.

(** A configuration whose baseline window is not a number. *)
Definition noBaseline : option BreakDetectorConfig.partial :=
  Some (BreakDetectorConfig.mkPartial (Some nan) None None None None).

(** The row the table [changes] holds for the deployment of the regression
    scenario, and the first event of the scenario with the row the table
    [events] holds for it. *)
Definition landingDeployRow : ChangeRow.t :=
  ChangeRow.mk 1 "2025-01-21" "test-funnel" SITE "Deployed new landing page" 4
    (Some "landing"%string).

Definition firstImpressions : Event.t :=
  Event.mk None "2025-01-01" "test-funnel" IMPRESSION 10000 None.

Definition firstImpressionsRow : EventRow.t :=
  EventRow.mk 1 "2025-01-01" "test-funnel" IMPRESSION 10000 (Some EmptyString).

(** ** One funnel at a time *)

(** The breaks of one funnel. *)
Definition ofFunnel (funnelId : string) (brk : Break.t) : bool :=
  String.eqb (Break.funnelId brk) funnelId.

(** What one funnel contributes to the flags: the body of the loop of
    [detectBreaks] over the funnel ids, as it stands in [rawBreaks]. *)
Definition funnelBreaks {host : Host} (conversionRates : list ConversionRates.t)
    (cfg : BreakDetectorConfig.t) (funnelId : string) : list Break.t :=
  let funnelRates :=
    sortByLocale ConversionRates.date
      (filter (fun cr => String.eqb (ConversionRates.funnelId cr) funnelId)
              conversionRates) in
  flat_map
    (fun pair =>
       let timeSeries := extractTimeSeries funnelRates (fst pair) (snd pair) in
       detectBreaksInSeries timeSeries funnelId (fst pair) (snd pair) cfg)
    stagePairs.

(** * Facts about the helpers *)

Unset Implicit Arguments.

(** ** Sorting *)

Section SortFacts.
Variable A : Type.
Variable after : A -> A -> bool.

Lemma insertSorted_perm (x : A) (l : list A) :
  Permutation (insertSorted after x l) (x :: l).
Proof.
  induction l as [|y l IH]; simpl; [reflexivity|].
  destruct (after x y); [|reflexivity].
  rewrite IH. apply perm_swap.
Qed.

Lemma sortBy_perm (l : list A) : Permutation (sortBy after l) l.
Proof.
  induction l as [|x l IH]; simpl; [constructor|].
  rewrite insertSorted_perm. now constructor.
Qed.

Lemma sortBy_In (x : A) (l : list A) : In x (sortBy after l) <-> In x l.
Proof.
  split; apply Permutation_in; [|symmetry]; apply sortBy_perm.
Qed.

Lemma sortBy_length (l : list A) : List.length (sortBy after l) = List.length l.
Proof. apply Permutation_length, sortBy_perm. Qed.

Lemma sortBy_nil_inv (l : list A) : sortBy after l = [] -> l = [].
Proof.
  intros H. apply Permutation_nil. rewrite <- H. apply sortBy_perm.
Qed.

Lemma insertSorted_head (x : A) (l : list A) (z : A) :
  HdRel (inOrder after) z l -> inOrder after z x -> HdRel (inOrder after) z (insertSorted after x l).
Proof.
  intros Hl Hx. destruct l as [|y l]; simpl.
  - now constructor.
  - destruct (after x y); constructor; [now inversion Hl | assumption].
Qed.

Lemma insertSorted_sorted (x : A) (l : list A) :
  (forall y, In y l -> after x y = true -> after y x = false) ->
  Sorted (inOrder after) l -> Sorted (inOrder after) (insertSorted after x l).
Proof.
  intros Hasym Hs. induction l as [|y l IH]; simpl.
  - repeat constructor.
  - destruct (after x y) eqn:Hxy.
    + inversion Hs; subst. constructor.
      * apply IH; [intros; apply Hasym; simpl; auto | assumption].
      * apply insertSorted_head; [assumption|].
        apply Hasym; simpl; auto.
    + constructor; [assumption | now constructor].
Qed.

Lemma sortBy_sorted (l : list A) :
  (forall x y, In x l -> In y l -> after x y = true -> after y x = false) ->
  Sorted (inOrder after) (sortBy after l).
Proof.
  induction l as [|x l IH]; intros Hasym; simpl; [constructor|].
  apply insertSorted_sorted.
  - intros y Hy Hxy. apply (proj1 (sortBy_In _ _)) in Hy. apply Hasym; simpl; auto.
  - apply IH. intros; apply Hasym; simpl; auto.
Qed.

(** Stability: a class of elements none of which must come after another
    keeps the order it had. *)
Lemma insertSorted_stable (p : A -> bool) (x : A) (l : list A) :
  (forall y, In y l -> p x = true -> p y = true -> after x y = false) ->
  filter p (insertSorted after x l) = filter p (x :: l).
Proof.
  induction l as [|y l IH]; intros Hp; [reflexivity|].
  simpl. destruct (after x y) eqn:Hxy; [|reflexivity].
  simpl. rewrite IH by (intros; apply Hp; simpl; auto).
  simpl. destruct (p x) eqn:Hpx, (p y) eqn:Hpy; try reflexivity.
  rewrite Hp in Hxy; simpl; auto. discriminate.
Qed.

Lemma sortBy_stable (p : A -> bool) (l : list A) :
  (forall x y, In x l -> In y l -> p x = true -> p y = true -> after x y = false) ->
  filter p (sortBy after l) = filter p l.
Proof.
  induction l as [|x l IH]; intros Hp; [reflexivity|].
  simpl sortBy. rewrite insertSorted_stable.
  - simpl. rewrite IH; [reflexivity|]. intros; apply Hp; simpl; auto.
  - intros y Hy Hx Hpy. apply (proj1 (sortBy_In _ _)) in Hy. apply Hp; simpl; auto.
Qed.

End SortFacts.

(** ** Splitting strings *)

Module StrFacts.

Lemma split_nonempty (sep : ascii) (s : string) : Str.split sep s <> [].
Proof.
  destruct s as [|c s]; simpl; [discriminate|].
  destruct (Ascii.eqb c sep); [discriminate|].
  destruct (Str.split sep s); discriminate.
Qed.

(** A string without the separator is one segment. *)
Lemma split_no_sep (sep : ascii) (s : string) :
  Str.mem sep s = false -> Str.split sep s = [s].
Proof.
  induction s as [|c s IH]; simpl; [reflexivity|].
  rewrite Ascii.eqb_sym. destruct (Ascii.eqb c sep); simpl; [discriminate|].
  intros H. now rewrite IH.
Qed.

(** Splitting distributes over a separator. *)
Lemma split_app_sep (sep : ascii) (a b : string) :
  Str.split sep (a +++ String sep b) = Str.split sep a ++ Str.split sep b.
Proof.
  induction a as [|c a IH]; simpl.
  - now rewrite Ascii.eqb_refl.
  - destruct (Ascii.eqb c sep); [now rewrite IH|].
    rewrite IH. destruct (Str.split sep a) as [|seg segs] eqn:E; [|reflexivity].
    now apply split_nonempty in E.
Qed.

(** Joining the segments gives the string back: splitting loses nothing. *)
Lemma join_split (sep : ascii) (s : string) :
  joinWith sep (Str.split sep s) = s.
Proof.
  induction s as [|c s IH]; simpl; [reflexivity|].
  destruct (Ascii.eqb c sep) eqn:E.
  - apply Ascii.eqb_eq in E. subst c.
    destruct (Str.split sep s) as [|seg segs] eqn:Es.
    + now apply split_nonempty in Es.
    + simpl in *. now rewrite IH.
  - destruct (Str.split sep s) as [|seg segs] eqn:Es.
    + now apply split_nonempty in Es.
    + destruct segs as [|seg' segs]; simpl in *; now rewrite IH.
Qed.

Lemma split_inj (sep : ascii) (s t : string) :
  Str.split sep s = Str.split sep t -> s = t.
Proof.
  intros H. rewrite <- (join_split sep s), <- (join_split sep t). now rewrite H.
Qed.

End StrFacts.

(** ** Keys and maps *)

Lemma existsb_eqb_In (x : string) (l : list string) :
  existsb (String.eqb x) l = true <-> In x l.
Proof.
  rewrite existsb_exists. split.
  - intros [y [Hy Heq]]. apply String.eqb_eq in Heq. now subst.
  - intros H. exists x. split; [assumption | apply String.eqb_refl].
Qed.

Lemma uniqueStrings_snoc (seen l : list string) (x : string) :
  uniqueStrings seen (l ++ [x]) =
  uniqueStrings seen l
  ++ (if existsb (String.eqb x) seen || existsb (String.eqb x) l then [] else [x]).
Proof.
  revert seen. induction l as [|y l IH]; intros seen; simpl.
  - rewrite orb_false_r. destruct (existsb (String.eqb x) seen); reflexivity.
  - destruct (existsb (String.eqb y) seen) eqn:Hy.
    + rewrite IH. f_equal.
      destruct (String.eqb x y) eqn:Hxy; simpl; [|reflexivity].
      apply String.eqb_eq in Hxy; subst. now rewrite Hy.
    + simpl. rewrite IH. simpl. do 2 f_equal.
      destruct (String.eqb x y), (existsb (String.eqb x) seen); reflexivity.
Qed.

Lemma uniqueStrings_In (seen l : list string) (x : string) :
  In x (uniqueStrings seen l) <-> In x l /\ ~ In x seen.
Proof.
  revert seen. induction l as [|y l IH]; intros seen; simpl.
  - tauto.
  - destruct (existsb (String.eqb y) seen) eqn:Hy.
    + apply existsb_eqb_In in Hy. rewrite IH. split.
      * tauto.
      * intros [[->|H] Hn]; tauto.
    + assert (Hn : ~ In y seen).
      { intros H. apply existsb_eqb_In in H. congruence. }
      simpl. rewrite IH. simpl. split.
      * intros [->|[H1 H2]]; [tauto|]. split; [tauto|]. intros H; apply H2; auto.
      * intros [[->|H] Hs]; [tauto|].
        destruct (string_dec y x) as [->|Hne]; [tauto|]. right. split; [tauto|].
        intros [H'|H']; [congruence | tauto].
Qed.

Lemma uniqueStrings_NoDup (seen l : list string) : NoDup (uniqueStrings seen l).
Proof.
  revert seen. induction l as [|y l IH]; intros seen; simpl.
  - constructor.
  - destruct (existsb (String.eqb y) seen); [apply IH|].
    constructor; [|apply IH].
    rewrite uniqueStrings_In. simpl. tauto.
Qed.

Section MapFacts.
Variable V : Type.
Implicit Types (F : string -> V) (ks : list string).

Lemma get_tabulate_in F ks k : In k ks -> JsMap.get (tabulate F ks) k = Some (F k).
Proof.
  induction ks as [|k' ks IH]; simpl; [tauto|].
  intros H. destruct (String.eqb k k') eqn:E.
  - apply String.eqb_eq in E. now subst.
  - apply IH. destruct H as [->|H]; [|assumption].
    rewrite String.eqb_refl in E. discriminate.
Qed.

Lemma get_tabulate_notin F ks k : ~ In k ks -> JsMap.get (tabulate F ks) k = None.
Proof.
  induction ks as [|k' ks IH]; simpl; [reflexivity|].
  intros H. destruct (String.eqb k k') eqn:E.
  - apply String.eqb_eq in E. subst. tauto.
  - apply IH. tauto.
Qed.

Lemma tabulate_ext F G ks :
  (forall k, In k ks -> F k = G k) -> tabulate F ks = tabulate G ks.
Proof.
  intros H. apply map_ext_in. intros k Hk. now rewrite H.
Qed.

Lemma tabulate_app F ks ks' :
  tabulate F (ks ++ ks') = tabulate F ks ++ tabulate F ks'.
Proof. apply map_app. Qed.

Lemma set_tabulate_in F ks k v :
  NoDup ks -> In k ks ->
  JsMap.set (tabulate F ks) k v =
  tabulate (fun k' => if String.eqb k' k then v else F k') ks.
Proof.
  induction ks as [|k' ks IH]; simpl; [tauto|].
  intros Hnd H. inversion Hnd as [|? ? Hk' Hnd']; subst.
  destruct (String.eqb k k') eqn:E.
  - apply String.eqb_eq in E. subst k'. rewrite String.eqb_refl. f_equal.
    apply tabulate_ext. intros k'' Hk''.
    destruct (String.eqb k'' k) eqn:E'; [|reflexivity].
    apply String.eqb_eq in E'. subst. tauto.
  - rewrite String.eqb_sym, E. f_equal. apply IH; [assumption|].
    destruct H as [->|H]; [|assumption].
    rewrite String.eqb_refl in E. discriminate.
Qed.

Lemma set_tabulate_notin F ks k v :
  ~ In k ks -> JsMap.set (tabulate F ks) k v = tabulate F ks ++ [(k, v)].
Proof.
  induction ks as [|k' ks IH]; simpl; [reflexivity|].
  intros H. destruct (String.eqb k k') eqn:E.
  - apply String.eqb_eq in E. subst. tauto.
  - f_equal. apply IH. tauto.
Qed.

Lemma has_tabulate F ks k :
  JsMap.has (tabulate F ks) k = existsb (String.eqb k) ks.
Proof.
  unfold JsMap.has. destruct (existsb (String.eqb k) ks) eqn:E.
  - apply existsb_eqb_In in E. now rewrite get_tabulate_in.
  - rewrite get_tabulate_notin; [reflexivity|].
    intros H. apply existsb_eqb_In in H. congruence.
Qed.

End MapFacts.

(** ** Grouping by key *)

Section Grouping.
Variables X V : Type.
Variable key : X -> string.
Variable init : V.
Variable step : V -> X -> V.

Lemma withKey_snoc (k : string) (l : list X) (x : X) :
  withKey key k (l ++ [x]) =
  withKey key k l ++ (if String.eqb (key x) k then [x] else []).
Proof. unfold withKey. rewrite filter_app. reflexivity. Qed.

Lemma withKey_none (k : string) (l : list X) :
  ~ In k (map key l) -> withKey key k l = [].
Proof.
  induction l as [|y l IH]; simpl; [reflexivity|]. intros H.
  destruct (String.eqb (key y) k) eqn:E.
  - apply String.eqb_eq in E. tauto.
  - apply IH. tauto.
Qed.

(** The grouping loop computes, for each key in order of first occurrence,
    the fold of the steps over the elements with that key. *)
Lemma fold_upsert (l : list X) :
  fold_left (upsert key init step) l JsMap.empty =
  tabulate (fun k => fold_left step (withKey key k l) init)
           (uniqueStrings [] (map key l)).
Proof.
  induction l as [|x l IH] using rev_ind; [reflexivity|].
  rewrite fold_left_app. simpl. rewrite IH. clear IH.
  set (valueOf := fun (l : list X) (k : string) =>
                    fold_left step (withKey key k l) init).
  change (fun k => fold_left step (withKey key k l) init) with (valueOf l).
  change (fun k => fold_left step (withKey key k (l ++ [x])) init)
    with (valueOf (l ++ [x])).
  unfold upsert. rewrite map_app. simpl.
  rewrite uniqueStrings_snoc. simpl.
  rewrite has_tabulate.
  assert (Hnd : NoDup (uniqueStrings [] (map key l))) by apply uniqueStrings_NoDup.
  assert (Hin : forall k, In k (uniqueStrings [] (map key l)) <-> In k (map key l)).
  { intros k. rewrite uniqueStrings_In. simpl. tauto. }
  destruct (existsb (String.eqb (key x)) (uniqueStrings [] (map key l))) eqn:E.
  - assert (E' : existsb (String.eqb (key x)) (map key l) = true).
    { apply existsb_eqb_In, Hin, existsb_eqb_In, E. }
    rewrite E', app_nil_r.
    apply existsb_eqb_In in E.
    rewrite get_tabulate_in by assumption. simpl.
    rewrite set_tabulate_in by assumption.
    apply tabulate_ext. intros k Hk. unfold valueOf.
    rewrite withKey_snoc, (String.eqb_sym (key x) k).
    destruct (String.eqb k (key x)) eqn:Ek.
    + apply String.eqb_eq in Ek. subst. now rewrite fold_left_app.
    + now rewrite app_nil_r.
  - assert (Hn : ~ In (key x) (uniqueStrings [] (map key l))).
    { intros H. apply existsb_eqb_In in H. congruence. }
    assert (E' : existsb (String.eqb (key x)) (map key l) = false).
    { destruct (existsb (String.eqb (key x)) (map key l)) eqn:E2; [|reflexivity].
      apply existsb_eqb_In, Hin in E2. tauto. }
    rewrite E'.
    rewrite set_tabulate_notin by assumption.
    assert (Hget : JsMap.get (tabulate (valueOf l) (uniqueStrings [] (map key l))
                              ++ [(key x, init)]) (key x) = Some init).
    { clear - Hn. induction (uniqueStrings [] (map key l)) as [|k ks IH]; simpl.
      - now rewrite String.eqb_refl.
      - destruct (String.eqb (key x) k) eqn:E.
        + apply String.eqb_eq in E. subst. simpl in Hn. tauto.
        + apply IH. simpl in Hn. tauto. }
    rewrite Hget. simpl.
    assert (Hset : forall v v' : V,
               JsMap.set (tabulate (valueOf l) (uniqueStrings [] (map key l))
                          ++ [(key x, v)]) (key x) v'
               = tabulate (valueOf l) (uniqueStrings [] (map key l)) ++ [(key x, v')]).
    { clear - Hn. intros v v'.
      induction (uniqueStrings [] (map key l)) as [|k ks IH]; simpl.
      - now rewrite String.eqb_refl.
      - destruct (String.eqb (key x) k) eqn:E.
        + apply String.eqb_eq in E. subst. simpl in Hn. tauto.
        + f_equal. apply IH. simpl in Hn. tauto. }
    rewrite Hset, tabulate_app. f_equal.
    + apply tabulate_ext. intros k Hk. unfold valueOf.
      rewrite withKey_snoc, (String.eqb_sym (key x) k).
      destruct (String.eqb k (key x)) eqn:Ek.
      * apply String.eqb_eq in Ek. subst. tauto.
      * now rewrite app_nil_r.
    + simpl. unfold valueOf. rewrite withKey_snoc, String.eqb_refl.
      rewrite withKey_none by (rewrite <- Hin; assumption). reflexivity.
Qed.

End Grouping.

(** ** Rounding in binary64

    The facts about the specification of the primitive operations that the
    engine relies on: an operation never turns a non-zero result into zero
    above the smallest exponent, and the sign of a result is the sign of
    the exact value. *)

Module FloatRounding.

Local Open Scope Z_scope.

Abbreviation emin := (SpecFloat.emin prec emax).
Abbreviation fexp := (SpecFloat.fexp prec emax).

Lemma digits2_pos_bounds (m : positive) :
  2 ^ (Zpos (digits2_pos m) - 1) <= Zpos m < 2 ^ Zpos (digits2_pos m).
Proof.
  induction m as [m IH|m IH|]; simpl digits2_pos.
  - rewrite Pos2Z.inj_succ. change (Zpos m~1) with (2 * Zpos m + 1).
    set (d := Zpos (digits2_pos m)) in *.
    assert (Hd : 0 < d) by (unfold d; lia).
    assert (Hp : 2 ^ Z.succ d = 2 * 2 ^ d) by (apply Z.pow_succ_r; lia).
    assert (Hq : 2 ^ (Z.succ d - 1) = 2 * 2 ^ (d - 1)).
    { replace (Z.succ d - 1) with (Z.succ (d - 1)) by lia. apply Z.pow_succ_r; lia. }
    rewrite Hp, Hq. lia.
  - rewrite Pos2Z.inj_succ. change (Zpos m~0) with (2 * Zpos m).
    set (d := Zpos (digits2_pos m)) in *.
    assert (Hd : 0 < d) by (unfold d; lia).
    assert (Hp : 2 ^ Z.succ d = 2 * 2 ^ d) by (apply Z.pow_succ_r; lia).
    assert (Hq : 2 ^ (Z.succ d - 1) = 2 * 2 ^ (d - 1)).
    { replace (Z.succ d - 1) with (Z.succ (d - 1)) by lia. apply Z.pow_succ_r; lia. }
    rewrite Hp, Hq. lia.
  - simpl. lia.
Qed.

Lemma shr_m_shr_1 (mrs : shr_record) :
  0 <= shr_m mrs -> shr_m (shr_1 mrs) = shr_m mrs / 2.
Proof.
  destruct mrs as [m r s]. simpl. intros Hm.
  destruct m as [|[p|p|]|]; simpl; try reflexivity; try lia.
  - apply Z.div_unique with 1; lia.
  - apply Z.div_unique with 0; lia.
Qed.

Lemma shr_m_iter_pos (k : positive) : forall mrs,
  0 <= shr_m mrs -> shr_m (iter_pos shr_1 k mrs) = shr_m mrs / 2 ^ Zpos k.
Proof.
  induction k as [k IH|k IH|]; intros mrs Hm; simpl iter_pos;
    try assert (Hpow : 0 < 2 ^ Zpos k) by (apply Z.pow_pos_nonneg; lia).
  - assert (H1 : 0 <= shr_m (shr_1 mrs)).
    { rewrite shr_m_shr_1 by assumption. apply Z.div_pos; lia. }
    assert (H2 : 0 <= shr_m (iter_pos shr_1 k (shr_1 mrs))).
    { rewrite IH by assumption. apply Z.div_pos; [assumption|]. apply Z.pow_pos_nonneg; lia. }
    rewrite IH, IH, shr_m_shr_1 by assumption.
    rewrite !Z.div_div by lia.
    f_equal. change (Zpos k~1) with (2 * Zpos k + 1).
    replace (2 * Zpos k + 1) with (1 + Zpos k + Zpos k) by lia.
    rewrite !Z.pow_add_r by lia. change (2 ^ 1) with 2. ring.
  - assert (H2 : 0 <= shr_m (iter_pos shr_1 k mrs)).
    { rewrite IH by assumption. apply Z.div_pos; [assumption|]. apply Z.pow_pos_nonneg; lia. }
    rewrite IH, IH by assumption.
    rewrite Z.div_div by lia.
    f_equal. change (Zpos k~0) with (2 * Zpos k).
    replace (2 * Zpos k) with (Zpos k + Zpos k) by lia.
    rewrite !Z.pow_add_r by lia. ring.
  - rewrite shr_m_shr_1 by assumption. reflexivity.
Qed.

Lemma shr_m_of_loc (m : Z) (l : location) : shr_m (shr_record_of_loc m l) = m.
Proof. destruct l as [|[]]; reflexivity. Qed.

Lemma fexp_ge_emin (e : Z) : emin <= fexp e.
Proof. unfold SpecFloat.fexp. lia. Qed.

(** Shifting to the format keeps a non-negative mantissa non-negative. *)
Lemma shr_fexp_nonneg (m e : Z) (l : location) :
  0 <= m -> 0 <= shr_m (fst (shr_fexp prec emax m e l)).
Proof.
  intros Hm. unfold shr_fexp, shr.
  destruct (fexp (Zdigits2 m + e) - e) as [|k|k]; simpl;
    rewrite ?shr_m_iter_pos, shr_m_of_loc by (rewrite shr_m_of_loc; assumption);
    try assumption.
  apply Z.div_pos; [assumption|]. apply Z.pow_pos_nonneg; lia.
Qed.

(** Above the smallest exponent, it keeps a positive mantissa positive:
    no underflow to zero. *)
Lemma shr_fexp_pos (m e : Z) (l : location) :
  0 < m -> emin <= e ->
  0 < shr_m (fst (shr_fexp prec emax m e l))
  /\ emin <= snd (shr_fexp prec emax m e l).
Proof.
  intros Hm He. unfold shr_fexp, shr.
  destruct (fexp (Zdigits2 m + e) - e) as [|k|k] eqn:En; simpl;
    rewrite ?shr_m_of_loc; try (split; lia).
  rewrite shr_m_iter_pos by (rewrite shr_m_of_loc; lia).
  rewrite shr_m_of_loc. split; [|lia].
  destruct m as [|p|p]; try lia. simpl Zdigits2 in En.
  pose proof (digits2_pos_bounds p) as [Hlo _].
  assert (Hk : Zpos k <= Zpos (digits2_pos p) - 1).
  { unfold SpecFloat.fexp, SpecFloat.emin, prec, emax in En, He. lia. }
  apply Z.div_str_pos. split; [apply Z.pow_pos_nonneg; lia|].
  eapply Z.le_trans; [|exact Hlo]. apply Z.pow_le_mono_r; lia.
Qed.

Lemma round_nearest_even_ge (m : Z) (l : location) : m <= round_nearest_even m l.
Proof.
  unfold round_nearest_even. destruct l as [|[]]; try destruct (Z.even m); lia.
Qed.

Lemma binary_round_aux_signed (s : bool) (m e : Z) (l : location) :
  0 <= m -> signedAs s (binary_round_aux prec emax s m e l).
Proof.
  intros Hm. unfold binary_round_aux.
  pose proof (shr_fexp_nonneg m e l Hm) as H1.
  destruct (shr_fexp prec emax m e l) as [mrs' e']. simpl in H1.
  pose proof (round_nearest_even_ge (shr_m mrs') (loc_of_shr_record mrs')) as H2.
  pose proof (shr_fexp_nonneg (round_nearest_even (shr_m mrs') (loc_of_shr_record mrs'))
                e' loc_Exact ltac:(lia)) as H3.
  destruct (shr_fexp prec emax _ e' loc_Exact) as [mrs'' e'']. simpl in H3.
  destruct (shr_m mrs''); try lia; [constructor|].
  destruct (e'' <=? emax - prec); constructor.
Qed.

Lemma binary_round_aux_nonzero (s : bool) (m e : Z) (l : location) :
  0 < m -> emin <= e -> nonZeroAs s (binary_round_aux prec emax s m e l).
Proof.
  intros Hm He. unfold binary_round_aux.
  pose proof (shr_fexp_pos m e l Hm He) as [H1 H1'].
  destruct (shr_fexp prec emax m e l) as [mrs' e']. simpl in H1, H1'.
  pose proof (round_nearest_even_ge (shr_m mrs') (loc_of_shr_record mrs')) as H2.
  pose proof (shr_fexp_pos (round_nearest_even (shr_m mrs') (loc_of_shr_record mrs'))
                e' loc_Exact ltac:(lia) H1') as [H3 _].
  destruct (shr_fexp prec emax _ e' loc_Exact) as [mrs'' e'']. simpl in H3.
  destruct (shr_m mrs''); try lia.
  destruct (e'' <=? emax - prec); constructor.
Qed.

Lemma shl_align_exponent (m : positive) (e e' : Z) :
  emin <= e -> emin <= e' -> emin <= snd (shl_align m e e').
Proof.
  intros. unfold shl_align. destruct (e' - e); simpl; lia.
Qed.

Lemma binary_round_nonzero (s : bool) (m : positive) (e : Z) :
  emin <= e -> nonZeroAs s (binary_round prec emax s m e).
Proof.
  intros He. unfold binary_round.
  pose proof (shl_align_exponent m e (fexp (Zpos (digits2_pos m) + e)) He
                (fexp_ge_emin _)) as H.
  destruct (shl_align m e _) as [mz ez]. simpl in H.
  apply binary_round_aux_nonzero; [lia | assumption].
Qed.

Lemma binary_round_signed (s : bool) (m : positive) (e : Z) :
  signedAs s (binary_round prec emax s m e).
Proof.
  unfold binary_round. destruct (shl_align m e _) as [mz ez].
  apply binary_round_aux_signed. lia.
Qed.

Lemma iter_xO_value (d m : positive) :
  Zpos (Pos.iter xO m d) = Zpos m * 2 ^ Zpos d.
Proof.
  change (Pos.iter xO m d) with (shift_pos d m).
  rewrite shift_pos_correct. change (Z.pow_pos 2 d) with (2 ^ Zpos d). ring.
Qed.

(** Aligning a mantissa to a smaller exponent multiplies it by the power of
    two in between. *)
Lemma shl_align_value (m : positive) (e e' : Z) :
  e' <= e -> Zpos (fst (shl_align m e e')) = Zpos m * 2 ^ (e - e').
Proof.
  intros H. unfold shl_align. destruct (e' - e) as [|d|d] eqn:E; simpl.
  - replace (e - e') with 0 by lia. simpl. lia.
  - lia.
  - rewrite iter_xO_value. replace (e - e') with (Zpos d) by lia. reflexivity.
Qed.

(** What validity says of a finite value. *)
Lemma valid_finite (s : bool) (m : positive) (e : Z) :
  valid_binary (S754_finite s m e) = true ->
  Zpos (digits2_pos m) <= prec /\ emin <= e
  /\ (emin < e -> Zpos (digits2_pos m) = prec).
Proof.
  simpl. unfold bounded, canonical_mantissa. intros H.
  apply andb_prop in H. destruct H as [H _]. apply Z.eqb_eq in H.
  unfold SpecFloat.fexp, SpecFloat.emin, prec, emax in *. lia.
Qed.

(** On valid values, comparing the aligned mantissas is comparing exponents
    first and mantissas next. *)
Lemma aligned_compare (mx my : positive) (ex ey : Z) (sx sy : bool) :
  valid_binary (S754_finite sx mx ex) = true ->
  valid_binary (S754_finite sy my ey) = true ->
  let ez := Z.min ex ey in
  (Zpos mx * 2 ^ (ex - ez) ?= Zpos my * 2 ^ (ey - ez))
  = match ex ?= ey with
    | Lt => Lt
    | Gt => Gt
    | Eq => Pos.compare mx my
    end.
Proof.
  intros Hx Hy ez. apply valid_finite in Hx, Hy.
  destruct Hx as (Hdx & Hex & Hnx), Hy as (Hdy & Hey & Hny).
  pose proof (digits2_pos_bounds mx) as [Hlx Hux].
  pose proof (digits2_pos_bounds my) as [Hly Huy].
  assert (Hprec : 2 ^ prec = 2 * 2 ^ (prec - 1)) by reflexivity.
  assert (Hmono : forall d, d <= prec -> 2 ^ d <= 2 ^ prec).
  { intros d Hd. apply Z.pow_le_mono_r; lia. }
  destruct (Z.compare_spec ex ey) as [E|E|E].
  - subst ey. unfold ez. rewrite Z.min_id, Z.sub_diag. simpl (2 ^ 0).
    rewrite !Z.mul_1_r. reflexivity.
  - unfold ez. rewrite Z.min_l by lia. rewrite Z.sub_diag. simpl (2 ^ 0).
    rewrite Z.mul_1_r. apply Z.compare_lt_iff.
    assert (H2 : 2 <= 2 ^ (ey - ex)).
    { change 2 with (2 ^ 1) at 1. apply Z.pow_le_mono_r; lia. }
    rewrite (Hny ltac:(lia)) in Hly. specialize (Hmono _ Hdx). nia.
  - unfold ez. rewrite Z.min_r by lia. rewrite Z.sub_diag. simpl (2 ^ 0).
    rewrite Z.mul_1_r. apply Z.compare_gt_iff.
    assert (H2 : 2 <= 2 ^ (ex - ey)).
    { change 2 with (2 ^ 1) at 1. apply Z.pow_le_mono_r; lia. }
    rewrite (Hnx ltac:(lia)) in Hlx. specialize (Hmono _ Hdy). nia.
Qed.

Lemma binary_normalize_pos (d e : Z) :
  emin <= e ->
  SFltb (S754_zero false) (binary_normalize prec emax d e false) = (0 <? d).
Proof.
  intros He. destruct d as [|p|p]; simpl; [reflexivity| |].
  - destruct (binary_round_nonzero false p e He); reflexivity.
  - destruct (binary_round_nonzero true p e He); reflexivity.
Qed.

(** The difference of two values is positive exactly when the subtrahend is
    the smaller one: rounding never takes a non-zero difference to zero. *)
Lemma SFsub_pos (x y : spec_float) :
  valid_binary x = true -> valid_binary y = true ->
  SFltb (S754_zero false) (SFsub prec emax y x) = SFltb x y.
Proof.
  intros Hx Hy.
  destruct x as [sx|sx| |sx mx ex], y as [sy|sy| |sy my ey];
    try (destruct sx); try (destruct sy); try reflexivity.
  all: pose proof (valid_finite _ _ _ Hx) as (_ & Hex & _);
       pose proof (valid_finite _ _ _ Hy) as (_ & Hey & _).
  all: unfold SFsub; rewrite binary_normalize_pos by lia;
       rewrite !shl_align_value by lia;
       unfold SFltb, SFcompare, cond_Zopp.
  all: pose proof (aligned_compare mx my ex ey _ _ Hx Hy) as Hc;
       cbv zeta in Hc; rewrite (Z.min_comm ex ey) in Hc;
       change (Pos.compare_cont Eq mx my) with (Pos.compare mx my).
  all: set (a := Zpos mx * 2 ^ (ex - Z.min ey ex)) in *;
       set (b := Zpos my * 2 ^ (ey - Z.min ey ex)) in *;
       assert (Ha : 0 < a) by (apply Z.mul_pos_pos; [lia | apply Z.pow_pos_nonneg; lia]);
       assert (Hb : 0 < b) by (apply Z.mul_pos_pos; [lia | apply Z.pow_pos_nonneg; lia]).
  - replace (match ex ?= ey with
             | Eq => CompOpp (Pos.compare mx my)
             | Lt => Gt
             | Gt => Lt
             end) with (CompOpp (a ?= b))
      by (rewrite Hc; destruct (ex ?= ey); reflexivity).
    destruct (Z.compare_spec a b); simpl;
      [apply Z.ltb_ge | apply Z.ltb_ge | apply Z.ltb_lt]; lia.
  - apply Z.ltb_lt. lia.
  - apply Z.ltb_ge. lia.
  - rewrite <- Hc.
    destruct (Z.compare_spec a b); simpl;
      [apply Z.ltb_ge | apply Z.ltb_lt | apply Z.ltb_ge]; lia.
Qed.

Lemma signedAs_nonneg (x : spec_float) : signedAs false x -> SFnonneg x.
Proof. destruct 1; reflexivity. Qed.

Lemma SFnonneg_cases (x : spec_float) :
  SFnonneg x -> (exists s, x = S754_zero s) \/ nonZeroAs false x.
Proof.
  unfold SFnonneg. destruct x as [s|s| |s m e]; simpl; try discriminate.
  - eauto.
  - destruct s; [discriminate|]. right. constructor.
  - destruct s; [discriminate|]. right. constructor.
Qed.

Lemma SFadd_nonneg (x y : spec_float) :
  SFnonneg x -> SFnonneg y -> SFnonneg (SFadd prec emax x y).
Proof.
  intros Hx Hy.
  destruct (SFnonneg_cases x Hx) as [[sx ->]|[mx ex|]];
    destruct (SFnonneg_cases y Hy) as [[sy ->]|[my ey|]];
    try (destruct sx); try (destruct sy); try reflexivity.
  unfold SFadd, cond_Zopp. apply signedAs_nonneg.
  set (a := fst (shl_align mx ex (Z.min ex ey))).
  set (b := fst (shl_align my ey (Z.min ex ey))).
  change (Zpos a + Zpos b) with (Zpos (a + b)). apply binary_round_signed.
Qed.

Lemma div_eucl_nonneg (a : Z) (b : positive) :
  0 <= a -> 0 <= fst (Z.div_eucl a (Zpos b)).
Proof.
  intros Ha. change (fst (Z.div_eucl a (Zpos b))) with (a / Zpos b).
  apply Z.div_pos; lia.
Qed.

Lemma SFdiv_finite_signed (sx sy : bool) (mx my : positive) (ex ey : Z) :
  signedAs (xorb sx sy)
    (SFdiv prec emax (S754_finite sx mx ex) (S754_finite sy my ey)).
Proof.
  unfold SFdiv, SFdiv_core_binary.
  set (e' := Z.min _ _). set (m' := match ex - ey - e' with
                                     | Z0 => Zpos mx
                                     | Zpos _ => Z.shiftl (Zpos mx) (ex - ey - e')
                                     | Zneg _ => 0
                                     end).
  assert (Hm : 0 <= m').
  { unfold m'. destruct (ex - ey - e'); try lia. apply Z.shiftl_nonneg. lia. }
  pose proof (div_eucl_nonneg m' my Hm) as Hq.
  destruct (Z.div_eucl m' (Zpos my)) as [q r]. simpl in Hq.
  now apply binary_round_aux_signed.
Qed.

(** A positive quotient by a positive divisor has a positive dividend. *)
Lemma SFdiv_pos_inv (x y : spec_float) :
  SFltb (S754_zero false) y = true ->
  SFltb (S754_zero false) (SFdiv prec emax x y) = true ->
  SFltb (S754_zero false) x = true.
Proof.
  destruct x as [sx|sx| |sx mx ex], y as [sy|sy| |sy my ey];
    try (destruct sy); try discriminate; try (destruct sx); try discriminate;
    try reflexivity.
  intros _ H. exfalso.
  destruct (SFdiv_finite_signed true false mx my ex ey); discriminate.
Qed.

(** A quotient of a value not below zero by a positive-signed divisor is
    NaN or not below zero. *)
Lemma SFdiv_nonneg (x y : spec_float) :
  SFnonneg x -> signedAs false y ->
  SFdiv prec emax x y = S754_nan \/ SFnonneg (SFdiv prec emax x y).
Proof.
  intros Hx Hy.
  destruct (SFnonneg_cases x Hx) as [[sx ->]|[mx ex|]];
    destruct Hy as [|my ey|]; try (destruct sx); auto; try (right; reflexivity).
  right. apply signedAs_nonneg.
  apply (SFdiv_finite_signed false false).
Qed.

Lemma SFdiv_nan_r (x y : spec_float) :
  SFdiv prec emax x y <> S754_nan -> y <> S754_nan.
Proof. intros H ->. apply H. destruct x; reflexivity. Qed.

End FloatRounding.

(** ** Comparisons of binary64 values *)

Module FloatFacts.

Local Open Scope float_scope.

(** *** The order of the specification *)

Ltac cmp_cases :=
  repeat match goal with
    | H : context [Pos.compare_cont Eq ?a ?b] |- _ =>
        change (Pos.compare_cont Eq a b) with (Pos.compare a b) in H
    | |- context [Pos.compare_cont Eq ?a ?b] =>
        change (Pos.compare_cont Eq a b) with (Pos.compare a b)
    end;
  repeat match goal with
    | H : context [Z.compare ?a ?b] |- _ => destruct (Z.compare_spec a b)
    | |- context [Z.compare ?a ?b] => destruct (Z.compare_spec a b)
    | H : context [Pos.compare ?a ?b] |- _ => destruct (Pos.compare_spec a b)
    | |- context [Pos.compare ?a ?b] => destruct (Pos.compare_spec a b)
    end;
  subst; simpl in *; try congruence; try lia.

Lemma SFcompare_antisym (x y : spec_float) :
  SFcompare y x = option_map CompOpp (SFcompare x y).
Proof.
  destruct x as [sx|sx| |sx mx ex], y as [sy|sy| |sy my ey]; simpl;
    try reflexivity;
    try (destruct sx; reflexivity); try (destruct sy; reflexivity);
    try (destruct sx, sy; reflexivity).
  destruct sx, sy; simpl; try reflexivity; f_equal; cmp_cases.
Qed.

Lemma SFcompare_trans (x y z : spec_float) (c1 c2 : comparison) :
  SFcompare x y = Some c1 -> SFcompare y z = Some c2 ->
  c1 <> Gt -> c2 <> Gt ->
  SFcompare x z = Some (match c1, c2 with Eq, Eq => Eq | _, _ => Lt end).
Proof.
  destruct x as [sx|sx| |sx mx ex], y as [sy|sy| |sy my ey],
           z as [sz|sz| |sz mz ez]; simpl; try discriminate;
    intros H1 H2 N1 N2; injection H1 as <-; injection H2 as <-;
    try (destruct sx); try (destruct sy); try (destruct sz);
    simpl in *; try congruence; f_equal; cmp_cases.
Qed.

Lemma SFcompare_None (x y : spec_float) :
  SFcompare x y = None <-> x = S754_nan \/ y = S754_nan.
Proof.
  destruct x as [sx|sx| |sx mx ex], y as [sy|sy| |sy my ey]; simpl;
    split; try discriminate; try tauto;
    try (intros [H|H]; discriminate).
Qed.

Lemma SFcompare_refl (x : spec_float) :
  x <> S754_nan -> SFcompare x x = Some Eq.
Proof.
  destruct x as [sx|sx| |sx mx ex]; simpl; try tauto; intros _;
    try (destruct sx; reflexivity).
  destruct sx; f_equal; rewrite Z.compare_refl;
    change (Pos.compare_cont Eq mx mx) with (Pos.compare mx mx);
    now rewrite Pos.compare_refl.
Qed.

(** *** The primitive comparisons *)

Ltac to_spec :=
  rewrite ?ltb_spec, ?leb_spec, ?eqb_spec in *;
  unfold SFltb, SFleb, SFeqb in *.

Lemma not_nan_spec (x : float) : (x =? x) = true <-> Prim2SF x <> S754_nan.
Proof.
  to_spec. split.
  - intros H E. rewrite E in H. discriminate.
  - intros H. now rewrite SFcompare_refl.
Qed.

Lemma leb_not_gt (x y : float) : (x <=? y) = true -> (y <? x) = false.
Proof.
  to_spec. rewrite (SFcompare_antisym (Prim2SF x) (Prim2SF y)).
  destruct (SFcompare (Prim2SF x) (Prim2SF y)) as [[]|]; simpl; congruence.
Qed.

Lemma ltb_not_ge (x y : float) : (x <? y) = true -> (y <=? x) = false.
Proof.
  to_spec. rewrite (SFcompare_antisym (Prim2SF x) (Prim2SF y)).
  destruct (SFcompare (Prim2SF x) (Prim2SF y)) as [[]|]; simpl; congruence.
Qed.

Lemma ltb_leb (x y : float) : (x <? y) = true -> (x <=? y) = true.
Proof.
  to_spec. destruct (SFcompare (Prim2SF x) (Prim2SF y)) as [[]|]; congruence.
Qed.

Lemma eqb_leb (x y : float) : (x =? y) = true -> (x <=? y) = true.
Proof.
  to_spec. destruct (SFcompare (Prim2SF x) (Prim2SF y)) as [[]|]; congruence.
Qed.

Lemma eqb_not_lt (x y : float) : (x =? y) = true -> (x <? y) = false.
Proof.
  to_spec. destruct (SFcompare (Prim2SF x) (Prim2SF y)) as [[]|]; congruence.
Qed.

Lemma eqb_sym (x y : float) : (x =? y) = (y =? x).
Proof.
  to_spec. rewrite (SFcompare_antisym (Prim2SF x) (Prim2SF y)).
  destruct (SFcompare (Prim2SF x) (Prim2SF y)) as [[]|]; reflexivity.
Qed.

Lemma ltb_not_eq (x y : float) : (x <? y) = true -> (y =? x) = false.
Proof.
  intros H. rewrite eqb_sym. to_spec.
  destruct (SFcompare (Prim2SF x) (Prim2SF y)) as [[]|]; congruence.
Qed.

Lemma leb_cases (x y : float) :
  (x <=? y) = true <-> (x <? y) = true \/ (x =? y) = true.
Proof.
  to_spec. destruct (SFcompare (Prim2SF x) (Prim2SF y)) as [[]|];
    split; try tauto; try congruence; intros [H|H]; congruence.
Qed.

Lemma leb_not_nan (x y : float) :
  (x <=? y) = true -> (x =? x) = true /\ (y =? y) = true.
Proof.
  intros H. rewrite !not_nan_spec. to_spec.
  split; intros E; rewrite E in H; simpl in H;
    [|destruct (Prim2SF x)]; discriminate.
Qed.

Lemma ltb_not_nan (x y : float) :
  (x <? y) = true -> (x =? x) = true /\ (y =? y) = true.
Proof. intros H. apply leb_not_nan, ltb_leb, H. Qed.

(** The order is total on the values that are not NaN. *)
Lemma not_ltb_geb (x y : float) :
  (x =? x) = true -> (y =? y) = true -> (x <? y) = false -> (y <=? x) = true.
Proof.
  rewrite !not_nan_spec. intros Hx Hy. to_spec.
  rewrite (SFcompare_antisym (Prim2SF x) (Prim2SF y)).
  destruct (SFcompare (Prim2SF x) (Prim2SF y)) as [[]|] eqn:E; simpl;
    try congruence.
  apply SFcompare_None in E. tauto.
Qed.

Lemma ltb_trans (x y z : float) :
  (x <? y) = true -> (y <? z) = true -> (x <? z) = true.
Proof.
  to_spec.
  destruct (SFcompare (Prim2SF x) (Prim2SF y)) as [[]|] eqn:E1; try discriminate.
  destruct (SFcompare (Prim2SF y) (Prim2SF z)) as [[]|] eqn:E2; try discriminate.
  rewrite (SFcompare_trans _ _ _ _ _ E1 E2); [reflexivity| |]; discriminate.
Qed.

Lemma leb_trans (x y z : float) :
  (x <=? y) = true -> (y <=? z) = true -> (x <=? z) = true.
Proof.
  to_spec.
  destruct (SFcompare (Prim2SF x) (Prim2SF y)) as [[]|] eqn:E1; try discriminate;
  destruct (SFcompare (Prim2SF y) (Prim2SF z)) as [[]|] eqn:E2; try discriminate;
  rewrite (SFcompare_trans _ _ _ _ _ E1 E2); try reflexivity; discriminate.
Qed.

Lemma leb_ltb_trans (x y z : float) :
  (x <=? y) = true -> (y <? z) = true -> (x <? z) = true.
Proof.
  to_spec.
  destruct (SFcompare (Prim2SF x) (Prim2SF y)) as [[]|] eqn:E1; try discriminate;
  destruct (SFcompare (Prim2SF y) (Prim2SF z)) as [[]|] eqn:E2; try discriminate;
  rewrite (SFcompare_trans _ _ _ _ _ E1 E2); try reflexivity; discriminate.
Qed.

Lemma ltb_leb_trans (x y z : float) :
  (x <? y) = true -> (y <=? z) = true -> (x <? z) = true.
Proof.
  to_spec.
  destruct (SFcompare (Prim2SF x) (Prim2SF y)) as [[]|] eqn:E1; try discriminate;
  destruct (SFcompare (Prim2SF y) (Prim2SF z)) as [[]|] eqn:E2; try discriminate;
  rewrite (SFcompare_trans _ _ _ _ _ E1 E2); try reflexivity; discriminate.
Qed.

Lemma ltb_irrefl (x : float) : (x <? x) = false.
Proof.
  destruct (x <? x) eqn:E; [|reflexivity].
  pose proof (ltb_not_ge _ _ E) as H. apply ltb_leb in E. congruence.
Qed.

(** *** The primitive arithmetic *)

Lemma zero_spec : Prim2SF 0 = S754_zero false.
Proof. reflexivity. Qed.

Lemma sub_pos (x y : float) : (0 <? y - x) = (x <? y).
Proof.
  rewrite !FloatAxioms.ltb_spec, FloatAxioms.sub_spec, zero_spec.
  apply FloatRounding.SFsub_pos; apply Prim2SF_valid.
Qed.

Lemma nonneg_spec (x : float) : (0 <=? x) = true <-> SFnonneg (Prim2SF x).
Proof. rewrite FloatAxioms.leb_spec, zero_spec. reflexivity. Qed.

Lemma add_nonneg (x y : float) :
  (0 <=? x) = true -> (0 <=? y) = true -> (0 <=? x + y) = true.
Proof.
  rewrite !nonneg_spec, FloatAxioms.add_spec. apply FloatRounding.SFadd_nonneg.
Qed.

Lemma of_uint63_signed (n : PrimInt63.int) : signedAs false (Prim2SF (of_uint63 n)).
Proof.
  rewrite FloatAxioms.of_uint63_spec.
  pose proof (Uint63.to_Z_bounded n) as [H _].
  destruct (Uint63Axioms.to_Z n) as [|p|p]; simpl; try lia.
  - constructor.
  - apply FloatRounding.binary_round_signed.
Qed.

Lemma div_nonneg (x y : float) :
  (0 <=? x) = true -> signedAs false (Prim2SF y) ->
  (x / y =? x / y) = true -> (0 <=? x / y) = true.
Proof.
  rewrite !nonneg_spec, not_nan_spec, FloatAxioms.div_spec. intros Hx Hy Hn.
  destruct (FloatRounding.SFdiv_nonneg _ _ Hx Hy) as [H|H]; [contradiction | exact H].
Qed.

Lemma pos_signed (y : float) : (0 <? y) = true -> signedAs false (Prim2SF y).
Proof.
  rewrite FloatAxioms.ltb_spec, zero_spec. destruct (Prim2SF y) as [s|s| |s m e]; simpl;
    try discriminate; destruct s; try discriminate; constructor.
Qed.

Lemma div_pos_inv (x y : float) :
  (0 <? y) = true -> (0 <? x / y) = true -> (0 <? x) = true.
Proof.
  rewrite !FloatAxioms.ltb_spec, FloatAxioms.div_spec, zero_spec. apply FloatRounding.SFdiv_pos_inv.
Qed.

Lemma div_not_nan_r (x y : float) : (x / y =? x / y) = true -> (y =? y) = true.
Proof.
  intros H. apply not_nan_spec. apply not_nan_spec in H.
  rewrite FloatAxioms.div_spec in H. exact (FloatRounding.SFdiv_nan_r _ _ H).
Qed.

Lemma abs_pos (z : float) : (0 <? abs z) = true -> (z =? 0) = false.
Proof.
  rewrite FloatAxioms.ltb_spec, FloatAxioms.eqb_spec, FloatAxioms.abs_spec, zero_spec.
  destruct (Prim2SF z) as [s|s| |s m e]; simpl; try discriminate;
    destruct s; reflexivity.
Qed.

Lemma abs_not_nan (z : float) : (abs z =? abs z) = true -> (z =? z) = true.
Proof.
  intros H. apply not_nan_spec. apply not_nan_spec in H.
  rewrite FloatAxioms.abs_spec in H. destruct (Prim2SF z); simpl in *; congruence.
Qed.

(** *** Values that are not negative *)

(** Not below zero: NaN, or a number that is at least zero. *)
Lemma not_negative_cases (x : float) :
  (x <? 0) = false <-> (x =? x) = false \/ (0 <=? x) = true.
Proof.
  split.
  - intros H. destruct (x =? x) eqn:E; [right | now left].
    now apply not_ltb_geb.
  - intros [H|H]; [|now apply leb_not_gt].
    destruct (x <? 0) eqn:E; [|reflexivity].
    apply ltb_not_nan in E. destruct E; congruence.
Qed.

Lemma nan_spec (x : float) : (x =? x) = false -> Prim2SF x = S754_nan.
Proof.
  intros H. destruct (Prim2SF x) eqn:P; try reflexivity;
    exfalso; assert (N : Prim2SF x <> S754_nan) by (rewrite P; discriminate);
    apply not_nan_spec in N; congruence.
Qed.

Lemma not_nan_not_negative (x : float) : (x =? x) = false -> (x <? 0) = false.
Proof. intros H. apply not_negative_cases. now left. Qed.

Lemma add_nan (x y : float) :
  (x =? x) = false \/ (y =? y) = false -> (x + y =? x + y) = false.
Proof.
  intros H. destruct (x + y =? x + y) eqn:E; [|reflexivity].
  apply not_nan_spec in E. exfalso. apply E.
  rewrite FloatAxioms.add_spec. destruct H as [H|H]; apply nan_spec in H; rewrite H.
  - reflexivity.
  - destruct (Prim2SF x); reflexivity.
Qed.

Lemma add_not_negative (x y : float) :
  (x <? 0) = false -> (y <? 0) = false -> (x + y <? 0) = false.
Proof.
  rewrite (not_negative_cases x), (not_negative_cases y).
  intros [Hx|Hx] [Hy|Hy];
    try (apply not_nan_not_negative, add_nan; auto; fail).
  apply leb_not_gt. now apply add_nonneg.
Qed.

Lemma div_nan_l (x y : float) : (x =? x) = false -> (x / y =? x / y) = false.
Proof.
  intros H. destruct (x / y =? x / y) eqn:E; [|reflexivity].
  apply not_nan_spec in E. exfalso. apply E.
  rewrite FloatAxioms.div_spec. apply nan_spec in H. rewrite H. reflexivity.
Qed.

Lemma div_not_negative (x y : float) :
  (x <? 0) = false -> signedAs false (Prim2SF y) -> (x / y <? 0) = false.
Proof.
  intros Hx Hy. apply not_negative_cases.
  apply not_negative_cases in Hx. destruct Hx as [Hx|Hx].
  - left. now apply div_nan_l.
  - destruct (x / y =? x / y) eqn:E; [right | now left].
    now apply div_nonneg.
Qed.

(** *** Square roots and absolute values *)

Lemma sqrtrem_nonneg (n : Z) : (0 <= n -> 0 <= fst (Z.sqrtrem n))%Z.
Proof.
  intros H. pose proof (Z.sqrtrem_spec n H) as S.
  destruct (Z.sqrtrem n) as [s r]. simpl. lia.
Qed.

Lemma SFsqrt_not_negative (x : spec_float) :
  SFltb (SFsqrt prec emax x) (S754_zero false) = false.
Proof.
  destruct x as [s|s| |s m e]; try (destruct s); try reflexivity.
  unfold SFsqrt, SFsqrt_core_binary.
  set (e' := Z.min _ _). set (m' := match (e - 2 * e')%Z with
                                     | Z0 => Zpos m
                                     | Zpos _ => Z.shiftl (Zpos m) (e - 2 * e')
                                     | Zneg _ => 0%Z
                                     end).
  assert (Hm' : (0 <= m')%Z).
  { unfold m'. destruct (e - 2 * e')%Z; try lia. apply Z.shiftl_nonneg. lia. }
  pose proof (sqrtrem_nonneg m' Hm') as Hq.
  destruct (Z.sqrtrem m') as [q r]. simpl in Hq.
  destruct (FloatRounding.binary_round_aux_signed false q e'
              (if (r =? 0)%Z then loc_Exact
               else loc_Inexact (if (r <=? q)%Z then Lt else Gt)) Hq);
    reflexivity.
Qed.

Lemma sqrt_not_negative (x : float) : (sqrt x <? 0) = false.
Proof.
  rewrite FloatAxioms.ltb_spec, FloatAxioms.sqrt_spec, zero_spec.
  apply SFsqrt_not_negative.
Qed.




End FloatFacts.

(** * Facts about the engine *)

Section EngineFacts.
Context {host : Host}.
Local Open Scope float_scope.

(** ** Break detection: what a flag records *)

Lemma collect_In {A B} (f : A -> option B) (xs : list A) (y : B) :
  In y (collect f xs) <-> exists x, In x xs /\ f x = Some y.
Proof.
  unfold collect. rewrite in_flat_map. split.
  - intros [x [Hx Hy]]. exists x. split; [assumption|].
    destruct (f x); simpl in Hy; [|tauto]. destruct Hy as [->|[]]. reflexivity.
  - intros [x [Hx Hy]]. exists x. split; [assumption|]. rewrite Hy. simpl. auto.
Qed.

(** Everything [detectAt] establishes before it pushes a break. *)
Lemma detectAt_inv ts fid fromS toS cfg point b :
  detectAt ts fid fromS toS cfg point = Some b ->
  let date := RateDataPoint.date point in
  let baseline := map RateDataPoint.rate (filter (inBaselineWindow cfg date) ts) in
  let current := map RateDataPoint.rate (filter (inCurrentWindow cfg date) ts) in
  let drop := mean baseline - mean current in
  let z := drop / Num.Math_max (stddev baseline) 0.01 in
  (Num.ofNat (List.length baseline) <? BreakDetectorConfig.minBaselineDataPoints cfg) = false
  /\ current <> []
  /\ (mean baseline =? 0) = false
  /\ Num.geb (drop / mean baseline) (BreakDetectorConfig.minRelativeDrop cfg) = true
  /\ Num.geb (abs z) (BreakDetectorConfig.minZScore cfg) = true
  /\ b = Break.mk None fid fromS toS date (mean baseline) (mean current) drop
           (drop / mean baseline) z (classifySeverity (drop / mean baseline) z).
Proof.
  unfold detectAt. intros H. cbv zeta.
  rewrite length_map.
  destruct (Num.ofNat _ <? _) eqn:E1; [discriminate|].
  destruct (List.length (filter (inCurrentWindow cfg _) ts) =? 0)%nat eqn:E2;
    [discriminate|].
  destruct (mean _ =? 0) eqn:E3; [discriminate|].
  destruct (Num.geb _ _ && Num.geb _ _) eqn:E4; [|discriminate].
  apply andb_prop in E4. destruct E4 as [E4 E5].
  injection H as <-.
  repeat split; try assumption.
  intros Hnil. apply map_eq_nil in Hnil. rewrite Hnil in E2. discriminate.
Qed.

Lemma rawBreaks_In crs cfg b :
  In b (rawBreaks crs cfg) ->
  exists ts fid fromS toS point,
    In (fromS, toS) stagePairs /\ In point ts
    /\ detectAt ts fid fromS toS cfg point = Some b.
Proof.
  unfold rawBreaks. rewrite in_flat_map. intros [fid [_ H]].
  apply in_flat_map in H. destruct H as [[fromS toS] [Hp H]].
  unfold detectBreaksInSeries in H. apply collect_In in H.
  destruct H as [point [Hpt H]]. simpl in *. eauto 10.
Qed.

(** ** Deduplication only selects *)

Lemma fold_left_snoc {A} (l acc : list A) :
  fold_left (fun v b => v ++ [b]) l acc = acc ++ l.
Proof.
  revert acc. induction l as [|x l IH]; intros acc; simpl.
  - now rewrite app_nil_r.
  - rewrite IH, <- app_assoc. reflexivity.
Qed.

(** The groups of [deduplicateConsecutiveBreaks]: one per key, in order of
    first occurrence, holding the breaks of that key in input order. *)
Lemma groups_spec (breaks : list Break.t) :
  fold_left addToGroup breaks JsMap.empty =
  tabulate (fun k => withKey breakKey k breaks)
           (uniqueStrings [] (map breakKey breaks)).
Proof.
  change addToGroup with (upsert breakKey [] (fun v b => v ++ [b])).
  rewrite fold_upsert. apply tabulate_ext. intros k _.
  now rewrite fold_left_snoc.
Qed.

Lemma pickPeakBreak_In first rest : In (pickPeakBreak first rest) (first :: rest).
Proof.
  unfold pickPeakBreak. revert first.
  induction rest as [|c rest IH]; intros first; simpl; [auto|].
  destruct (Num.gtb _ _).
  - right. apply IH.
  - destruct (IH first) as [H|H]; simpl; auto.
Qed.

Lemma clusterLoop_In prev first rest remaining b :
  In b (clusterLoop prev first rest remaining) ->
  In b (first :: rest ++ remaining).
Proof.
  revert prev first rest. induction remaining as [|c remaining IH];
    intros prev first rest; simpl.
  - intros [<-|[]]. rewrite app_nil_r. apply pickPeakBreak_In.
  - destruct (_ <=? 1).
    + intros H. apply IH in H. rewrite <- app_assoc in H. exact H.
    + intros [<-|H].
      * destruct (pickPeakBreak_In first rest) as [E|E]; [now left|].
        right. apply in_or_app. now left.
      * apply IH in H. right. apply in_or_app. right. exact H.
Qed.

Lemma dedupGroup_In group b : In b (dedupGroup group) -> In b group.
Proof.
  unfold dedupGroup, sortByLocale.
  destruct (sortBy _ group) as [|first remaining] eqn:E; [intros []|].
  intros H. apply clusterLoop_In in H. simpl in H.
  eapply (proj1 (sortBy_In _ _ _ _)). rewrite E. exact H.
Qed.

Lemma withKey_In {X} (key : X -> string) k (l : list X) x :
  In x (withKey key k l) <-> In x l /\ key x = k.
Proof.
  unfold withKey. rewrite filter_In. now rewrite String.eqb_eq.
Qed.

Lemma deduplicate_In breaks b :
  In b (deduplicateConsecutiveBreaks breaks) -> In b breaks.
Proof.
  unfold deduplicateConsecutiveBreaks. destruct breaks as [|b0 breaks']; [intros []|].
  generalize (b0 :: breaks'). clear. intros breaks.
  unfold sortByLocale. rewrite sortBy_In, groups_spec, in_flat_map.
  intros [[k g] [Hg H]]. unfold tabulate in Hg. apply in_map_iff in Hg.
  destruct Hg as [k' [E _]]. injection E as <- <-. cbn [snd] in H.
  apply dedupGroup_In, withKey_In in H. tauto.
Qed.

(** C1. Whatever series and (possibly partial) configuration [detectBreaks]
    is given, every break it returns passed both thresholds of the merged
    configuration: [relativeDrop >= cfg.minRelativeDrop] and
    [|zScore| >= cfg.minZScore]. *)
Theorem detectBreaks_meets_thresholds
    (conversionRates : list ConversionRates.t)
    (config : option BreakDetectorConfig.partial) :
  let cfg := mergeBreakDetectorConfig config in
  Forall
    (fun brk =>
       Num.geb (Break.relativeDrop brk) (BreakDetectorConfig.minRelativeDrop cfg) = true
       /\ Num.geb (abs (Break.zScore brk)) (BreakDetectorConfig.minZScore cfg) = true)
    (detectBreaks conversionRates config).
Proof.
  intros cfg. apply Forall_forall. intros brk H.
  apply deduplicate_In, rawBreaks_In in H.
  destruct H as (ts & fid & fromS & toS & point & _ & _ & H).
  apply detectAt_inv in H. cbv zeta in H.
  destruct H as (_ & _ & _ & Hrel & Hz & ->). simpl. split; assumption.
Qed.

(** ** Severity *)

Lemma detectBreaks_severity conversionRates config brk :
  In brk (detectBreaks conversionRates config) ->
  Break.severity brk
  = classifySeverity (Break.relativeDrop brk) (Break.zScore brk).
Proof.
  intros H. apply deduplicate_In, rawBreaks_In in H.
  destruct H as (ts & fid & fromS & toS & point & _ & _ & H).
  apply detectAt_inv in H. cbv zeta in H.
  destruct H as (_ & _ & _ & _ & _ & ->). reflexivity.
Qed.

Lemma classifySeverity_critical r z :
  classifySeverity r z = CRITICAL
  <-> Num.gtb r 0.40 = true \/ Num.gtb (abs z) 3.0 = true.
Proof.
  unfold classifySeverity.
  destruct (Num.gtb r 0.40), (Num.gtb (abs z) 3.0); simpl;
    try (split; [auto | reflexivity]);
    destruct (Num.gtb r 0.20 || Num.gtb (abs z) 2.0);
    split; try discriminate; intros [H|H]; discriminate.
Qed.

Lemma classifySeverity_significant r z :
  classifySeverity r z = SIGNIFICANT
  <-> Num.gtb r 0.40 = false /\ Num.gtb (abs z) 3.0 = false
      /\ (Num.gtb r 0.20 = true \/ Num.gtb (abs z) 2.0 = true).
Proof.
  unfold classifySeverity.
  destruct (Num.gtb r 0.40), (Num.gtb (abs z) 3.0); simpl;
    try (split; [discriminate | intros (H1 & H2 & _); discriminate]).
  destruct (Num.gtb r 0.20), (Num.gtb (abs z) 2.0); simpl;
    split; auto; try discriminate.
  intros (_ & _ & [H|H]); discriminate.
Qed.

Lemma classifySeverity_warning r z :
  classifySeverity r z = WARNING
  <-> Num.gtb r 0.20 = false /\ Num.gtb (abs z) 2.0 = false.
Proof.
  unfold classifySeverity, Num.gtb.
  destruct (0.20 <? r) eqn:Er.
  - rewrite orb_true_l. destruct (_ || _); split; try discriminate;
      intros [H _]; discriminate.
  - destruct (2.0 <? abs z) eqn:Ez.
    + rewrite orb_true_r. destruct (_ || _); split; try discriminate;
        intros [_ H]; discriminate.
    + assert (H4 : (0.40 <? r) = false).
      { destruct (0.40 <? r) eqn:E; [|reflexivity].
        rewrite (FloatFacts.ltb_trans 0.20 0.40 r) in Er;
          [discriminate | reflexivity | assumption]. }
      assert (H3 : (3.0 <? abs z) = false).
      { destruct (3.0 <? abs z) eqn:E; [|reflexivity].
        rewrite (FloatFacts.ltb_trans 2.0 3.0 (abs z)) in Ez;
          [discriminate | reflexivity | assumption]. }
      rewrite H4, H3. simpl. tauto.
Qed.

(** The boundary of the strict comparison: a drop of exactly 0.40 with
    [|zScore| <= 3.0] is SIGNIFICANT. *)
Lemma classifySeverity_boundary z :
  (abs z <=? 3.0) = true -> classifySeverity 0.40 z = SIGNIFICANT.
Proof.
  intros H. apply classifySeverity_significant.
  split; [reflexivity|]. split; [|left; reflexivity].
  apply FloatFacts.leb_not_gt, H.
Qed.

(** C2. Every break returned by [detectBreaks] carries the severity the
    ordered rules give: CRITICAL exactly when [relativeDrop > 0.40] or
    [|zScore| > 3.0]; otherwise SIGNIFICANT exactly when
    [relativeDrop > 0.20] or [|zScore| > 2.0]; otherwise WARNING. The
    comparisons are strict: with [relativeDrop] exactly 0.40 and
    [|zScore| <= 3.0] the break is SIGNIFICANT. *)
Theorem break_severity_rules
    (conversionRates : list ConversionRates.t)
    (config : option BreakDetectorConfig.partial) :
  Forall
    (fun brk =>
       let r := Break.relativeDrop brk in
       let z := abs (Break.zScore brk) in
       (Break.severity brk = CRITICAL
        <-> Num.gtb r 0.40 = true \/ Num.gtb z 3.0 = true)
       /\ (Break.severity brk = SIGNIFICANT
           <-> Num.gtb r 0.40 = false /\ Num.gtb z 3.0 = false
               /\ (Num.gtb r 0.20 = true \/ Num.gtb z 2.0 = true))
       /\ (Break.severity brk = WARNING
           <-> Num.gtb r 0.20 = false /\ Num.gtb z 2.0 = false)
       /\ (r = 0.40 -> (z <=? 3.0) = true -> Break.severity brk = SIGNIFICANT))
    (detectBreaks conversionRates config).
Proof.
  apply Forall_forall. intros brk H. apply detectBreaks_severity in H.
  cbv zeta. rewrite H.
  split; [apply classifySeverity_critical|].
  split; [apply classifySeverity_significant|].
  split; [apply classifySeverity_warning|].
  intros -> Hz. now apply classifySeverity_boundary.
Qed.

(** ** Cause analysis: the shape of a run *)

Lemma generateSummary_total brk causes :
  exists summary,
    generateSummary brk causes (determineStatus causes) = Some summary.
Proof.
  unfold generateSummary, determineStatus.
  destruct causes as [|top rest]; [eauto|].
  destruct (Num.geb _ _); eauto.
Qed.

(** One call of [diagnoseBreak] never throws; it reads the clock once. *)
Lemma diagnoseBreak_spec brk changes cfg clock :
  exists summary,
    generateSummary brk (rankedCauses brk changes cfg)
      (determineStatus (rankedCauses brk changes cfg)) = Some summary
    /\ diagnoseBreak brk changes cfg clock
       = Some (Diagnosis.mk None (clock 0%nat) brk (rankedCauses brk changes cfg)
                 (determineStatus (rankedCauses brk changes cfg)) summary,
               fun n => clock (S n)).
Proof.
  destruct (generateSummary_total brk (rankedCauses brk changes cfg))
    as [summary Hs].
  exists summary. split; [assumption|].
  unfold diagnoseBreak. rewrite Hs. reflexivity.
Qed.

Lemma diagnoseAll_spec breaks changes cfg clock :
  exists ds clock',
    diagnoseAll breaks changes cfg clock = Some (ds, clock')
    /\ Forall2 (diagnosisOf changes cfg) breaks ds
    /\ map Diagnosis.generatedAt ds = map clock (seq 0 (List.length breaks))
    /\ (forall n, clock' n = clock (List.length breaks + n)%nat).
Proof.
  revert clock. induction breaks as [|brk breaks IH]; intros clock; simpl.
  - exists [], clock. repeat split; constructor.
  - destruct (diagnoseBreak_spec brk changes cfg clock) as (summary & Hs & ->).
    destruct (IH (fun n => clock (S n))) as (ds & clock' & -> & HF & Ht & Hc).
    eexists _, clock'. split; [reflexivity|]. split; [|split].
    + constructor; [|assumption]. repeat split; assumption.
    + simpl. f_equal. rewrite Ht, <- seq_shift, map_map. reflexivity.
    + intros n. apply Hc.
Qed.

Lemma diagnoseAll_erased breaks changes cfg clock1 clock2 ds1 ds2 c1 c2 :
  diagnoseAll breaks changes cfg clock1 = Some (ds1, c1) ->
  diagnoseAll breaks changes cfg clock2 = Some (ds2, c2) ->
  map withoutTimestamp ds1 = map withoutTimestamp ds2.
Proof.
  revert clock1 clock2 ds1 ds2 c1 c2.
  induction breaks as [|brk breaks IH]; intros clock1 clock2 ds1 ds2 c1 c2; simpl.
  - intros [= <- _] [= <- _]. reflexivity.
  - destruct (diagnoseBreak_spec brk changes cfg clock1) as (s1 & Hs1 & ->).
    destruct (diagnoseBreak_spec brk changes cfg clock2) as (s2 & Hs2 & ->).
    assert (s1 = s2) as <- by congruence.
    destruct (diagnoseAll breaks changes cfg (fun n => clock1 (S n)))
      as [[t1 k1]|] eqn:E1; [|discriminate].
    destruct (diagnoseAll breaks changes cfg (fun n => clock2 (S n)))
      as [[t2 k2]|] eqn:E2; [|discriminate].
    intros [= <- _] [= <- _]. simpl. f_equal. eapply IH; eassumption.
Qed.

Lemma analyzeCauses_spec breaks changes config clock :
  exists ds clock',
    analyzeCauses breaks changes config clock = Some (ds, clock')
    /\ Forall2 (diagnosisOf changes (mergeCauseAnalyzerConfig config)) breaks ds
    /\ map Diagnosis.generatedAt ds = map clock (seq 0 (List.length breaks))
    /\ (forall n, clock' n = clock (List.length breaks + n)%nat).
Proof. apply diagnoseAll_spec. Qed.

Lemma Forall2_right {A B} (R : A -> B -> Prop) (P : B -> Prop) l l' :
  Forall2 R l l' -> (forall a b, In a l -> R a b -> P b) -> Forall P l'.
Proof.
  induction 1 as [|a b l l' Hab _ IH]; intros HP; constructor.
  - apply (HP a); simpl; auto.
  - apply IH. intros a' b' Ha'. apply HP. simpl; auto.
Qed.

(** ** Eligibility of changes *)

Lemma isCandidateChange_true brk cfg change :
  isCandidateChange brk cfg change = true ->
  (Change.funnelId change = Break.funnelId brk
   \/ Change.funnelId change = "*"%string)
  /\ (0 <=? daysDiff (Change.date change) (Break.detectedDate brk)) = true
  /\ (daysDiff (Change.date change) (Break.detectedDate brk)
      <=? CauseAnalyzerConfig.maxTemporalDistanceDays cfg) = true.
Proof.
  unfold isCandidateChange, Num.geb.
  destruct (String.eqb (Change.funnelId change) (Break.funnelId brk)) eqn:E1;
    [|destruct (String.eqb (Change.funnelId change) "*") eqn:E2];
    simpl; try discriminate; intros H; apply andb_prop in H;
    (split; [|exact H]).
  - left. now apply String.eqb_eq.
  - right. now apply String.eqb_eq.
Qed.

Lemma excludedChange_not_candidate brk cfg change :
  excludedChange brk cfg change -> isCandidateChange brk cfg change = false.
Proof.
  unfold excludedChange, isCandidateChange, Num.gtb, Num.geb. cbv zeta.
  intros [[H1 H2]|[H|H]].
  - apply String.eqb_neq in H1, H2. now rewrite H1, H2.
  - rewrite (FloatFacts.ltb_not_ge _ _ H).
    destruct (negb _); reflexivity.
  - rewrite (FloatFacts.ltb_not_ge _ _ H), andb_false_r.
    destruct (negb _); reflexivity.
Qed.

Lemma rankedCauses_In brk changes cfg cause :
  In cause (rankedCauses brk changes cfg) ->
  exists change,
    In change changes /\ isCandidateChange brk cfg change = true
    /\ cause = scoreCandidate change brk cfg
    /\ Num.geb (CauseCandidate.confidence cause)
         (CauseAnalyzerConfig.minConfidenceThreshold cfg) = true.
Proof.
  unfold rankedCauses, survivingCandidates. rewrite sortBy_In, filter_In, in_map_iff.
  intros [[change [<- Hc]] Hthr]. apply filter_In in Hc.
  exists change. tauto.
Qed.

Lemma rankedCauses_drop brk cfg changes1 change changes2 :
  excludedChange brk cfg change ->
  rankedCauses brk (changes1 ++ change :: changes2) cfg
  = rankedCauses brk (changes1 ++ changes2) cfg.
Proof.
  intros H. unfold rankedCauses, survivingCandidates.
  rewrite !filter_app. simpl.
  now rewrite (excludedChange_not_candidate _ _ _ H).
Qed.

Lemma diagnoseAll_ext breaks changes1 changes2 cfg clock :
  (forall brk, In brk breaks ->
     rankedCauses brk changes1 cfg = rankedCauses brk changes2 cfg) ->
  diagnoseAll breaks changes1 cfg clock = diagnoseAll breaks changes2 cfg clock.
Proof.
  revert clock. induction breaks as [|brk breaks IH]; intros clock H; simpl;
    [reflexivity|].
  unfold diagnoseBreak. rewrite (H brk) by (simpl; auto).
  destruct (generateSummary _ _ _); [|reflexivity].
  simpl. rewrite IH; [reflexivity|]. intros; apply H; simpl; auto.
Qed.

(** C5. [analyzeCauses] returns normally, and in every diagnosis each cause
    is the score of a change of the input whose funnel is the break's or
    the wildcard ["*"] and whose gap [detectedDate - date] lies in
    [0, maxTemporalDistanceDays]. A change that, for every break, belongs
    to another funnel, is dated after the detection date or is older than
    the window contributes nothing: without it the diagnoses are the same. *)
Theorem causes_from_eligible_changes_only
    (breaks : list Break.t) (changes : list Change.t)
    (config : option CauseAnalyzerConfig.partial) (clock : Clock) :
  let cfg := mergeCauseAnalyzerConfig config in
  (exists ds clock',
      analyzeCauses breaks changes config clock = Some (ds, clock')
      /\ Forall
           (fun d =>
              Forall
                (fun cause =>
                   exists change,
                     In change changes
                     /\ cause = scoreCandidate change (Diagnosis.break d) cfg
                     /\ (Change.funnelId change = Break.funnelId (Diagnosis.break d)
                         \/ Change.funnelId change = "*"%string)
                     /\ (0 <=? daysDiff (Change.date change)
                                 (Break.detectedDate (Diagnosis.break d))) = true
                     /\ (daysDiff (Change.date change)
                           (Break.detectedDate (Diagnosis.break d))
                         <=? CauseAnalyzerConfig.maxTemporalDistanceDays cfg) = true)
                (Diagnosis.causes d))
           ds)
  /\ (forall changes1 change changes2,
         changes = changes1 ++ change :: changes2 ->
         (forall brk, In brk breaks -> excludedChange brk cfg change) ->
         analyzeCauses breaks changes config clock
         = analyzeCauses breaks (changes1 ++ changes2) config clock).
Proof.
  intros cfg. split.
  - destruct (analyzeCauses_spec breaks changes config clock)
      as (ds & clock' & Hrun & HF & _).
    exists ds, clock'. split; [assumption|].
    eapply Forall2_right; [exact HF|].
    intros brk d _ (_ & Hb & Hc & _). rewrite Hb, Hc.
    apply Forall_forall. intros cause Hin.
    apply rankedCauses_In in Hin.
    destruct Hin as (change & Hch & Hel & -> & _).
    apply isCandidateChange_true in Hel. exists change. tauto.
  - intros changes1 change changes2 -> Hex. unfold analyzeCauses.
    apply diagnoseAll_ext. intros brk Hb. apply rankedCauses_drop, Hex, Hb.
Qed.

(** ** Status *)

Lemma determineStatus_unknown causes :
  determineStatus causes = UNKNOWN <-> causes = [].
Proof.
  unfold determineStatus. destruct causes as [|top rest]; [tauto|].
  destruct (Num.geb _ _); split; discriminate.
Qed.

Lemma determineStatus_identified causes :
  determineStatus causes = IDENTIFIED
  <-> exists top rest,
        causes = top :: rest
        /\ Num.geb (CauseCandidate.confidence top) 0.6 = true.
Proof.
  unfold determineStatus. destruct causes as [|top rest].
  - split; [discriminate | intros (? & ? & ? & _); discriminate].
  - destruct (Num.geb _ _) eqn:E; split; try discriminate; eauto.
    intros (t & r & [= <- <-] & H). congruence.
Qed.

Lemma determineStatus_uncertain causes :
  determineStatus causes = UNCERTAIN
  <-> exists top rest,
        causes = top :: rest
        /\ Num.geb (CauseCandidate.confidence top) 0.6 = false.
Proof.
  unfold determineStatus. destruct causes as [|top rest].
  - split; [discriminate | intros (? & ? & ? & _); discriminate].
  - destruct (Num.geb _ _) eqn:E; split; try discriminate; eauto.
    intros (t & r & [= <- <-] & H). congruence.
Qed.

(** ** Determinism up to the clock *)

Lemma withoutTimestamp_inj d1 d2 :
  withoutTimestamp d1 = withoutTimestamp d2 ->
  Diagnosis.generatedAt d1 = Diagnosis.generatedAt d2 -> d1 = d2.
Proof.
  destruct d1, d2. unfold withoutTimestamp. simpl.
  intros [= -> -> -> -> ->] ->. reflexivity.
Qed.

Lemma map_withoutTimestamp_inj ds1 ds2 :
  map withoutTimestamp ds1 = map withoutTimestamp ds2 ->
  map Diagnosis.generatedAt ds1 = map Diagnosis.generatedAt ds2 -> ds1 = ds2.
Proof.
  revert ds2. induction ds1 as [|d1 ds1 IH]; intros [|d2 ds2]; simpl;
    try discriminate; [reflexivity|].
  intros Ha Hb.
  assert (Ha1 : withoutTimestamp d1 = withoutTimestamp d2) by congruence.
  assert (Ha2 : map withoutTimestamp ds1 = map withoutTimestamp ds2) by congruence.
  assert (Hb1 : Diagnosis.generatedAt d1 = Diagnosis.generatedAt d2) by congruence.
  assert (Hb2 : map Diagnosis.generatedAt ds1 = map Diagnosis.generatedAt ds2)
    by congruence.
  f_equal; [now apply withoutTimestamp_inj | now apply IH].
Qed.

(** ** Deduplication: groups, clusters and peaks *)

Lemma stageToken_no_pipe s : Str.mem Str.pipe (stageToken s) = false.
Proof. destruct s; reflexivity. Qed.

Lemma stageToken_inj a b : stageToken a = stageToken b -> a = b.
Proof. destruct a, b; simpl; intros H; try reflexivity; discriminate H. Qed.

Lemma stageEqb_eq a b : stageEqb a b = true <-> a = b.
Proof. destruct a, b; simpl; split; intros H; try reflexivity; discriminate H. Qed.

Lemma split_breakKey brk :
  Str.split Str.pipe (breakKey brk)
  = Str.split Str.pipe (Break.funnelId brk)
    ++ [stageToken (Break.fromStage brk); stageToken (Break.toStage brk)].
Proof.
  unfold breakKey.
  change ("|" +++ stageToken (Break.fromStage brk) +++ "|"
          +++ stageToken (Break.toStage brk))%string
    with (String Str.pipe (stageToken (Break.fromStage brk)
                           +++ String Str.pipe (stageToken (Break.toStage brk)))).
  rewrite !StrFacts.split_app_sep.
  rewrite (StrFacts.split_no_sep _ (stageToken (Break.fromStage brk)))
    by apply stageToken_no_pipe.
  rewrite (StrFacts.split_no_sep _ (stageToken (Break.toStage brk)))
    by apply stageToken_no_pipe.
  reflexivity.
Qed.

(** The key of a group determines the funnel and the stage pair, whatever
    the funnel id contains. *)
Lemma breakKey_inj a b : breakKey a = breakKey b <-> sameGroupb b a = true.
Proof.
  unfold sameGroupb. rewrite !andb_true_iff, String.eqb_eq, !stageEqb_eq. split.
  - intros H. apply (f_equal (Str.split Str.pipe)) in H.
    rewrite !split_breakKey in H.
    change [stageToken (Break.fromStage a); stageToken (Break.toStage a)]
      with ([stageToken (Break.fromStage a)] ++ [stageToken (Break.toStage a)]) in H.
    change [stageToken (Break.fromStage b); stageToken (Break.toStage b)]
      with ([stageToken (Break.fromStage b)] ++ [stageToken (Break.toStage b)]) in H.
    rewrite !app_assoc in H.
    apply app_inj_tail in H. destruct H as [H Hto].
    apply app_inj_tail in H. destruct H as [H Hfrom].
    apply StrFacts.split_inj in H. apply stageToken_inj in Hto, Hfrom.
    repeat split; congruence.
  - intros [[Hf Hs] Ht]. unfold breakKey. now rewrite Hf, Hs, Ht.
Qed.

Lemma withKey_breakKey rep breaks :
  withKey breakKey (breakKey rep) breaks = filter (sameGroupb rep) breaks.
Proof.
  unfold withKey. apply filter_ext. intros x.
  destruct (sameGroupb rep x) eqn:E.
  - apply String.eqb_eq, breakKey_inj, E.
  - apply String.eqb_neq. intros H. apply breakKey_inj in H. congruence.
Qed.

(** The groups, taken together, are the input. *)
Lemma filter_disjoint_perm {A} (p q : A -> bool) (l : list A) :
  (forall x, In x l -> p x = true -> q x = false) ->
  Permutation (filter p l ++ filter q l) (filter (fun x => p x || q x) l).
Proof.
  induction l as [|x l IH]; intros H; simpl; [constructor|].
  assert (IH' := IH (fun y Hy => H y (or_intror Hy))).
  destruct (p x) eqn:Hp; simpl.
  - rewrite (H x) by (simpl; auto). now constructor.
  - destruct (q x); [|assumption].
    rewrite <- Permutation_middle. now constructor.
Qed.

Lemma groups_cover {X} (key : X -> string) (l : list X) (ks : list string) :
  NoDup ks ->
  Permutation (flat_map (fun k => withKey key k l) ks)
              (filter (fun x => existsb (String.eqb (key x)) ks) l).
Proof.
  induction ks as [|k ks IH]; intros Hnd; simpl.
  - induction l; simpl; auto.
  - inversion Hnd as [|? ? Hk Hnd']; subst.
    rewrite (IH Hnd'). unfold withKey. apply filter_disjoint_perm.
    intros x _ Hx. apply String.eqb_eq in Hx. subst k.
    destruct (existsb _ ks) eqn:E; [|reflexivity].
    apply existsb_eqb_In in E. tauto.
Qed.

Lemma filter_all {A} (p : A -> bool) (l : list A) :
  (forall x, In x l -> p x = true) -> filter p l = l.
Proof.
  induction l as [|x l IH]; intros H; simpl; [reflexivity|].
  rewrite H by (simpl; auto). f_equal. apply IH. intros; apply H; simpl; auto.
Qed.

Lemma pickPeak_fold rest : forall before best after,
  Forall hasZScore (before ++ best :: after ++ rest) ->
  Forall (fun b => (absZ b <? absZ best) = true) before ->
  Forall (fun b => (absZ best <? absZ b) = false) after ->
  let p := fold_left
             (fun best curr =>
                if Num.gtb (abs (Break.zScore curr)) (abs (Break.zScore best))
                then curr else best) rest best in
  exists before' after',
    before ++ best :: after ++ rest = before' ++ p :: after'
    /\ Forall (fun b => (absZ b <? absZ p) = true) before'
    /\ Forall (fun b => (absZ p <? absZ b) = false) after'.
Proof.
  induction rest as [|curr rest IH]; intros before best after Hn Hb Ha; simpl.
  - exists before, after. now rewrite app_nil_r.
  - fold (absZ curr). fold (absZ best). unfold Num.gtb.
    assert (Hn' := Hn). rewrite Forall_forall in Hn'.
    assert (Hbest : hasZScore best).
    { apply Hn'. apply in_or_app. right. simpl. auto. }
    destruct (absZ best <? absZ curr) eqn:E.
    + destruct (IH (before ++ best :: after) curr []) as (b' & a' & Heq & Hb' & Ha').
      * rewrite <- app_assoc. simpl. exact Hn.
      * apply Forall_app. split; [|constructor].
        -- eapply Forall_impl; [|exact Hb]. intros b H.
           exact (FloatFacts.ltb_trans _ _ _ H E).
        -- assumption.
        -- rewrite Forall_forall in Ha |- *. intros a Hin.
           eapply FloatFacts.leb_ltb_trans; [|exact E].
           apply FloatFacts.not_ltb_geb; [assumption| |now apply Ha].
           apply Hn'. apply in_or_app. right. right. apply in_or_app. now left.
      * constructor.
      * exists b', a'. split; [|split; assumption].
        transitivity ((before ++ best :: after) ++ curr :: [] ++ rest);
          [now rewrite <- app_assoc | exact Heq].
    + destruct (IH before best (after ++ [curr])) as (b' & a' & Heq & Hb' & Ha').
      * rewrite <- app_assoc. exact Hn.
      * assumption.
      * apply Forall_app. split; [assumption|]. now repeat constructor.
      * exists b', a'. split; [|split; assumption].
        transitivity (before ++ best :: (after ++ [curr]) ++ rest);
          [now rewrite <- app_assoc | exact Heq].
Qed.

(** [pickPeakBreak] returns the first member with the largest |zScore|. *)
Lemma pickPeakBreak_isPeak first rest :
  Forall hasZScore (first :: rest) ->
  isPeak (first, rest) (pickPeakBreak first rest).
Proof.
  intros Hn. unfold isPeak, pickPeakBreak. simpl.
  destruct (pickPeak_fold rest [] first []) as (b & a & Heq & Hb & Ha);
    [exact Hn | constructor | constructor |].
  exists b, a. auto.
Qed.

Lemma last_cons {A} (l : list A) (x d : A) : last (x :: l) d = last l x.
Proof.
  revert x d. induction l as [|y l IH]; intros x d; [reflexivity|].
  change (last (x :: y :: l) d) with (last (y :: l) d).
  now rewrite (IH y d), (IH y x).
Qed.

Lemma chained_snoc prev l b :
  chained prev l -> gapWithin (last l prev) b -> chained prev (l ++ [b]).
Proof.
  revert prev. induction l as [|x l IH]; intros prev; simpl.
  - tauto.
  - intros [H1 H2] H3. split; [assumption|]. apply IH; [assumption|].
    now rewrite <- (last_cons l x prev).
Qed.

Lemma last_snoc {A} (l : list A) (x d : A) : last (l ++ [x]) d = x.
Proof. apply last_last. Qed.

(** The inner loop cuts what is left into clusters and picks their peaks. *)
Lemma clusterLoop_spec remaining : forall prev first rest,
  chained first rest -> last rest first = prev ->
  Forall hasZScore (first :: rest ++ remaining) ->
  exists cs,
    Clusters (first :: rest ++ remaining) cs
    /\ Forall2 isPeak cs (clusterLoop prev first rest remaining).
Proof.
  induction remaining as [|curr remaining IH]; intros prev first rest Hc Hl Hn.
  - rewrite app_nil_r in *. exists [(first, rest)]. split.
    + now constructor.
    + simpl. constructor; [|constructor]. now apply pickPeakBreak_isPeak.
  - simpl. destruct (_ <=? 1) eqn:E.
    + destruct (IH curr first (rest ++ [curr])) as (cs & Hcs & Hp).
      * apply chained_snoc; [assumption|]. rewrite Hl. exact E.
      * apply last_snoc.
      * rewrite <- app_assoc. exact Hn.
      * exists cs. rewrite <- app_assoc in Hcs. split; assumption.
    + destruct (IH curr curr []) as (cs & Hcs & Hp).
      * exact I.
      * reflexivity.
      * simpl. apply Forall_inv_tail in Hn. apply Forall_app in Hn. tauto.
      * exists ((first, rest) :: cs). split.
        -- constructor; [assumption| |exact Hcs].
           rewrite Hl. unfold gapWithin. rewrite E. discriminate.
        -- constructor; [|exact Hp]. apply pickPeakBreak_isPeak.
           change (first :: rest ++ curr :: remaining)
             with ((first :: rest) ++ curr :: remaining) in Hn.
           apply Forall_app in Hn. tauto.
Qed.

Lemma dedupGroup_spec group :
  Forall hasZScore group ->
  exists cs,
    Clusters (sortByLocale Break.detectedDate group) cs
    /\ Forall2 isPeak cs (dedupGroup group).
Proof.
  intros Hn. unfold dedupGroup.
  assert (Hs : Forall hasZScore (sortByLocale Break.detectedDate group)).
  { rewrite Forall_forall in *. intros b Hb. apply Hn.
    unfold sortByLocale in Hb. now apply sortBy_In in Hb. }
  destruct (sortByLocale Break.detectedDate group) as [|first remaining].
  - exists []. split; constructor.
  - apply (clusterLoop_spec remaining first first []); [exact I | reflexivity | exact Hs].
Qed.

Lemma Sorted_impl {A} (R R' : A -> A -> Prop) (l : list A) :
  (forall a b, R a b -> R' a b) -> Sorted R l -> Sorted R' l.
Proof.
  intros H. induction 1 as [|a l _ IH Hd]; constructor; [assumption|].
  destruct Hd; constructor. auto.
Qed.

Lemma sortByLocale_sorted {A} (field : A -> string) (l : list A) :
  (forall x y : string, (0 < localeCompare x y)%Z -> (localeCompare y x <= 0)%Z) ->
  Sorted (fun a b => (localeCompare (field a) (field b) <= 0)%Z)
         (sortByLocale field l).
Proof.
  intros Hcmp. unfold sortByLocale.
  eapply Sorted_impl; [|apply sortBy_sorted].
  - unfold inOrder. intros a b H. apply Z.ltb_ge in H. exact H.
  - intros x y _ _ H. apply Z.ltb_lt, Hcmp in H. now apply Z.ltb_ge.
Qed.

Lemma rawBreaks_hasZScore conversionRates cfg :
  Forall hasZScore (rawBreaks conversionRates cfg).
Proof.
  apply Forall_forall. intros brk H. apply rawBreaks_In in H.
  destruct H as (ts & fid & fromS & toS & point & _ & _ & H).
  apply detectAt_inv in H. cbv zeta in H.
  destruct H as (_ & _ & _ & _ & Hz & ->).
  unfold hasZScore, absZ. simpl. apply FloatFacts.leb_not_nan in Hz. tauto.
Qed.

Lemma groups_clustered (groups : list (list Break.t)) :
  Forall (Forall hasZScore) groups ->
  exists clusters,
    Forall2 (fun g cs => Clusters (sortByLocale Break.detectedDate g) cs)
            groups clusters
    /\ Forall2 (Forall2 isPeak) clusters (map dedupGroup groups).
Proof.
  induction 1 as [|g groups Hg _ (clusters & H1 & H2)].
  - exists []. split; constructor.
  - destruct (dedupGroup_spec g Hg) as (cs & Hc & Hp).
    exists (cs :: clusters). split; constructor; assumption.
Qed.

Lemma deduplicate_eq raw :
  deduplicateConsecutiveBreaks raw
  = sortByLocale Break.detectedDate
      (List.concat
         (map dedupGroup
            (map (fun k => withKey breakKey k raw)
                 (uniqueStrings [] (map breakKey raw))))).
Proof.
  destruct raw as [|b0 raw']; [reflexivity|].
  unfold deduplicateConsecutiveBreaks. generalize (b0 :: raw'). intros raw.
  rewrite groups_spec, flat_map_concat_map. unfold tabulate.
  now rewrite !map_map.
Qed.

(** C3. With a [localeCompare] that never asks for both orders, the breaks
    [detectBreaks] returns are obtained from the raw flags as follows. The
    flags are split into groups, each holding all the flags of one
    (funnelId, fromStage, toStage) in the order they were raised. Each group,
    sorted by detection date, is cut into clusters: maximal runs in which
    every flag is at most one day after the one before. Each cluster gives
    exactly one break, its member with the largest |zScore|, the first of
    them on a tie. The result is these breaks sorted by detection date. *)
Theorem detectBreaks_deduplicates
    (conversionRates : list ConversionRates.t)
    (config : option BreakDetectorConfig.partial) :
  (forall x y : string, (0 < localeCompare x y)%Z -> (localeCompare y x <= 0)%Z) ->
  let raw := rawBreaks conversionRates (mergeBreakDetectorConfig config) in
  exists (groups : list (list Break.t))
         (clusters : list (list (Break.t * list Break.t)))
         (peaks : list (list Break.t)),
    Permutation (List.concat groups) raw
    /\ Forall (fun g => exists rep, In rep raw /\ g = filter (sameGroupb rep) raw)
              groups
    /\ Forall2 (fun g cs => Clusters (sortByLocale Break.detectedDate g) cs)
               groups clusters
    /\ Forall2 (Forall2 isPeak) clusters peaks
    /\ Permutation (detectBreaks conversionRates config) (List.concat peaks)
    /\ Sorted dateOrdered (detectBreaks conversionRates config).
Proof.
  intros Hcmp raw.
  assert (Hraw : Forall hasZScore raw) by apply rawBreaks_hasZScore.
  assert (Hout : detectBreaks conversionRates config
                 = deduplicateConsecutiveBreaks raw) by reflexivity.
  rewrite Hout, deduplicate_eq. clearbody raw. clear Hout.
  set (keys := uniqueStrings [] (map breakKey raw)).
  set (groups := map (fun k => withKey breakKey k raw) keys).
  assert (Hkeys : forall k, In k keys <-> In k (map breakKey raw)).
  { intros k. unfold keys. rewrite uniqueStrings_In. simpl. tauto. }
  assert (Hgroups : Forall (fun g => exists rep,
                                In rep raw /\ g = filter (sameGroupb rep) raw) groups).
  { apply Forall_forall. intros g Hg. apply in_map_iff in Hg.
    destruct Hg as (k & <- & Hk). apply Hkeys, in_map_iff in Hk.
    destruct Hk as (rep & <- & Hrep). exists rep. split; [assumption|].
    apply withKey_breakKey. }
  assert (Hz : Forall (Forall hasZScore) groups).
  { apply Forall_forall. intros g Hg. rewrite Forall_forall in Hgroups.
    destruct (Hgroups g Hg) as (rep & _ & ->).
    apply Forall_forall. intros b Hb. apply filter_In in Hb.
    rewrite Forall_forall in Hraw. apply Hraw. tauto. }
  destruct (groups_clustered groups Hz) as (clusters & Hcl & Hpk).
  exists groups, clusters, (map dedupGroup groups).
  split; [|split; [exact Hgroups | split; [exact Hcl | split; [exact Hpk|]]]].
  - unfold groups. rewrite <- flat_map_concat_map.
    rewrite groups_cover by apply uniqueStrings_NoDup.
    rewrite filter_all; [reflexivity|].
    intros x Hx. apply existsb_eqb_In, Hkeys, in_map, Hx.
  - split; [apply sortBy_perm | now apply sortByLocale_sorted].
Qed.

(** ** No division by zero *)

Lemma Math_max_floor_not_zero (s : float) : (Num.Math_max s 0.01 =? 0) = false.
Proof.
  unfold Num.Math_max.
  destruct (is_nan s || is_nan 0.01) eqn:En; [reflexivity|].
  apply orb_false_elim in En. destruct En as [En _].
  unfold is_nan in En. apply negb_false_iff in En.
  destruct (s <? 0.01) eqn:E1; [reflexivity|].
  assert (Hpos : (0 <? s) = true).
  { apply (FloatFacts.ltb_leb_trans 0 0.01 s); [reflexivity|].
    apply FloatFacts.not_ltb_geb; [assumption | reflexivity | assumption]. }
  assert (Hs : (s =? 0) = false) by now apply FloatFacts.ltb_not_eq.
  destruct (0.01 <? s); [assumption|].
  destruct (get_sign s); [reflexivity | assumption].
Qed.

Lemma rateOf_rate snapshot pair :
  let fromCount := FunnelSnapshot.stageCounts snapshot (fst pair) in
  let toCount := FunnelSnapshot.stageCounts snapshot (snd pair) in
  (Num.gtb fromCount 0 = true -> Rate.rate (rateOf snapshot pair) = toCount / fromCount)
  /\ ((fromCount =? 0) = true -> Rate.rate (rateOf snapshot pair) = 0).
Proof.
  unfold rateOf, Num.gtb. simpl. split.
  - intros ->. reflexivity.
  - intros H. rewrite FloatFacts.eqb_sym in H.
    now rewrite (FloatFacts.eqb_not_lt _ _ H).
Qed.

Lemma rateOfChecked_done snapshot pair :
  rateOfChecked snapshot pair = Done (rateOf snapshot pair).
Proof.
  unfold rateOfChecked, rateOf, checkedDiv, Num.gtb.
  destruct (0 <? FunnelSnapshot.stageCounts snapshot (fst pair)) eqn:E;
    [|reflexivity].
  now rewrite (FloatFacts.ltb_not_eq _ _ E).
Qed.

Lemma detectAtChecked_done ts fid fromS toS cfg point :
  detectAtChecked ts fid fromS toS cfg point
  = Done (detectAt ts fid fromS toS cfg point).
Proof.
  unfold detectAtChecked, detectAt, checkedDiv.
  destruct (_ <? _); [reflexivity|].
  destruct (_ =? _)%nat; [reflexivity|].
  destruct (mean _ =? 0) eqn:E; [reflexivity|].
  simpl. rewrite Math_max_floor_not_zero. simpl.
  destruct (_ && _); reflexivity.
Qed.

Lemma detectAt_zero_baseline ts fid fromS toS cfg point :
  (mean (map RateDataPoint.rate
           (filter (inBaselineWindow cfg (RateDataPoint.date point)) ts)) =? 0) = true ->
  detectAt ts fid fromS toS cfg point = None.
Proof.
  intros H. unfold detectAt.
  destruct (_ <? _); [reflexivity|].
  destruct (_ =? _)%nat; [reflexivity|].
  now rewrite H.
Qed.

Lemma Forall2_map_self {A B} (R : A -> B -> Prop) (f : A -> B) (l : list A) :
  (forall x, R x (f x)) -> Forall2 R l (map f l).
Proof. intros H. induction l; simpl; constructor; auto. Qed.

(** C8. The three divisions of the core never meet a zero divisor. In
    [calculateConversionRates], every entry of every snapshot has
    [rate = toCount / fromCount] when [fromCount > 0] and [rate = 0] when
    [fromCount = 0], and the division is only made on a non-zero
    [fromCount]. In [detectBreaks], a detection date whose baseline mean is
    zero is skipped, and at every other date the divisions by the baseline
    mean (relative drop) and by the floored standard deviation (z-score) are
    made on non-zero divisors: the watched code never reports a division by
    zero and returns what the code returns. *)
Theorem core_never_divides_by_zero :
  (forall snapshots,
      Forall2
        (fun snapshot cr =>
           Forall2
             (fun pair r =>
                let fromCount := FunnelSnapshot.stageCounts snapshot (fst pair) in
                let toCount := FunnelSnapshot.stageCounts snapshot (snd pair) in
                rateOfChecked snapshot pair = Done r
                /\ (Num.gtb fromCount 0 = true -> Rate.rate r = toCount / fromCount)
                /\ ((fromCount =? 0) = true -> Rate.rate r = 0))
             stagePairs (ConversionRates.rates cr))
        snapshots (calculateConversionRates snapshots))
  /\ (forall ts fid fromS toS cfg point,
         detectAtChecked ts fid fromS toS cfg point
         = Done (detectAt ts fid fromS toS cfg point)
         /\ ((mean (map RateDataPoint.rate
                      (filter (inBaselineWindow cfg (RateDataPoint.date point)) ts))
              =? 0) = true ->
             detectAt ts fid fromS toS cfg point = None)).
Proof.
  split.
  - intros snapshots. unfold calculateConversionRates.
    apply Forall2_map_self. intros snapshot.
    cbn [ConversionRates.rates]. apply Forall2_map_self. intros pair.
    split; [apply rateOfChecked_done | apply rateOf_rate].
  - intros. split; [apply detectAtChecked_done | apply detectAt_zero_baseline].
Qed.

(** ** Confidence: the clamp *)

Lemma Math_max_zero (x : float) :
  Num.Math_max 0 x
  = if is_nan x then nan else if 0 <? x then x else 0.
Proof.
  unfold Num.Math_max. change (is_nan 0) with false. change (get_sign 0) with false.
  simpl. destruct (is_nan x), (0 <? x), (x <? 0); reflexivity.
Qed.

Lemma Math_min_one (m : float) :
  Num.Math_min 1 m
  = if is_nan m then nan else if 1 <? m then 1 else m.
Proof.
  unfold Num.Math_min. change (is_nan 1) with false. change (get_sign 1) with false.
  simpl. destruct (is_nan m), (1 <? m), (m <? 1); reflexivity.
Qed.

Lemma is_nan_false (x : float) : is_nan x = false <-> (x =? x) = true.
Proof. unfold is_nan. destruct (x =? x); simpl; split; congruence. Qed.

(** The clamp takes NaN to NaN and every number into [0, 1], leaving the
    numbers of [0, 1] as they are. *)
Lemma clamp01_spec (x : float) :
  ((x =? x) = false -> (clamp01 x =? clamp01 x) = false)
  /\ ((x =? x) = true ->
      (0 <=? clamp01 x) = true /\ (clamp01 x <=? 1) = true)
  /\ ((0 <=? x) = true -> (x <=? 1) = true -> (clamp01 x =? x) = true)
  /\ ((x <? 0) = true -> (clamp01 x =? 0) = true)
  /\ ((1 <? x) = true -> (clamp01 x =? 1) = true).
Proof.
  unfold clamp01. rewrite Math_max_zero, Math_min_one.
  destruct (x =? x) eqn:Ex.
  - assert (Hn : is_nan x = false) by now apply is_nan_false.
    rewrite Hn. split; [discriminate|].
    destruct (0 <? x) eqn:E0.
    + rewrite Hn. destruct (1 <? x) eqn:E1.
      * repeat split; try reflexivity.
        -- intros _ H. now rewrite (FloatFacts.leb_not_gt _ _ H) in E1.
        -- intros H. pose proof (FloatFacts.ltb_trans _ _ _ H E0) as F.
           now rewrite FloatFacts.ltb_irrefl in F.
      * repeat split.
        -- now apply FloatFacts.ltb_leb.
        -- apply FloatFacts.not_ltb_geb; [reflexivity | assumption | assumption].
        -- intros _ _. assumption.
        -- intros H. pose proof (FloatFacts.ltb_trans _ _ _ H E0) as F.
           now rewrite FloatFacts.ltb_irrefl in F.
        -- discriminate.
    + change (is_nan 0) with false. change (1 <? 0) with false. cbv iota.
      repeat split; try reflexivity.
      * intros H _.
        apply FloatFacts.leb_cases in H. destruct H as [H|H]; [congruence | exact H].
      * intros H. pose proof (FloatFacts.ltb_trans 0 1 x eq_refl H). congruence.
  - assert (Hn : is_nan x = true) by (unfold is_nan; now rewrite Ex).
    rewrite Hn. change (is_nan nan) with true. cbv iota.
    split; [reflexivity|]. split; [discriminate|].
    split; [|split]; intros H.
    + apply FloatFacts.leb_not_nan in H. destruct H; congruence.
    + apply FloatFacts.ltb_not_nan in H. destruct H; congruence.
    + apply FloatFacts.ltb_not_nan in H. destruct H; congruence.
Qed.

(** ** Confidence: the score of an eligible change *)

Lemma calcTemporalScore_eligible brk cfg change :
  isCandidateChange brk cfg change = true ->
  calcTemporalScore (Change.date change) (Break.detectedDate brk)
    (CauseAnalyzerConfig.maxTemporalDistanceDays cfg)
  = Math_exp (-0.5 * daysDiff (Change.date change) (Break.detectedDate brk)).
Proof.
  intros H. apply isCandidateChange_true in H. destruct H as (_ & H0 & Hmax).
  unfold calcTemporalScore, Num.gtb.
  now rewrite (FloatFacts.leb_not_gt _ _ H0), (FloatFacts.leb_not_gt _ _ Hmax).
Qed.

Lemma calcStageMatchBonus_spec change brk :
  calcStageMatchBonus change brk
  = if existsb (fun s => String.eqb s (stageToken (Break.fromStage brk))
                         || String.eqb s (stageToken (Break.toStage brk)))
               (orElse (Change.affectedStages change) [])
    then 0.2 else 0.
Proof.
  unfold calcStageMatchBonus. destruct (Change.affectedStages change) as [[|s l]|];
    reflexivity.
Qed.

(** ** Confidence: the ranking *)

Lemma lessConfident_ltb a b :
  lessConfident a b
  = (CauseCandidate.confidence a <? CauseCandidate.confidence b).
Proof. unfold lessConfident. apply FloatFacts.sub_pos. Qed.

Lemma ltb_asym (x y : float) : (x <? y) = true -> (y <? x) = false.
Proof.
  intros H. destruct (y <? x) eqn:E; [|reflexivity].
  pose proof (FloatFacts.ltb_trans _ _ _ H E) as F.
  now rewrite FloatFacts.ltb_irrefl in F.
Qed.

Lemma Sorted_impl_on {A} (P : A -> Prop) (R R' : A -> A -> Prop) (l : list A) :
  (forall a b, P a -> P b -> R a b -> R' a b) ->
  Forall P l -> Sorted R l -> Sorted R' l.
Proof.
  intros H HP HS. induction HS as [|a l _ IH Hd]; constructor.
  - apply IH. now inversion HP.
  - inversion HP as [|? ? Ha Hl]; subst.
    destruct Hd as [|b l Hab]; constructor.
    inversion Hl; subst. auto.
Qed.

Lemma survivingCandidates_threshold brk changes cfg :
  Forall (fun c => Num.geb (CauseCandidate.confidence c)
                     (CauseAnalyzerConfig.minConfidenceThreshold cfg) = true)
         (survivingCandidates brk changes cfg).
Proof.
  apply Forall_forall. intros c H. unfold survivingCandidates in H.
  apply filter_In in H. tauto.
Qed.

Lemma rankedCauses_spec brk changes cfg :
  let survivors := survivingCandidates brk changes cfg in
  let causes := rankedCauses brk changes cfg in
  Permutation causes survivors
  /\ Forall (fun c => Num.geb (CauseCandidate.confidence c)
                        (CauseAnalyzerConfig.minConfidenceThreshold cfg) = true)
            causes
  /\ Sorted moreConfident causes
  /\ (forall v, withConfidence v causes = withConfidence v survivors).
Proof.
  intros survivors causes.
  assert (Hperm : Permutation causes survivors) by apply sortBy_perm.
  assert (Hthr : Forall (fun c => Num.geb (CauseCandidate.confidence c)
                                    (CauseAnalyzerConfig.minConfidenceThreshold cfg) = true)
                        causes).
  { eapply Permutation_Forall; [symmetry; exact Hperm|].
    apply survivingCandidates_threshold. }
  split; [exact Hperm|]. split; [exact Hthr|]. split.
  - unfold causes, rankedCauses.
    eapply (Sorted_impl_on
              (fun c => (CauseCandidate.confidence c =? CauseCandidate.confidence c) = true));
      [| |apply sortBy_sorted].
    + unfold inOrder, moreConfident. intros a b Ha Hb H.
      rewrite lessConfident_ltb in H. now apply FloatFacts.not_ltb_geb.
    + eapply Forall_impl; [|exact Hthr]. intros c H.
      unfold Num.geb in H. apply FloatFacts.leb_not_nan in H. tauto.
    + intros x y _ _. rewrite !lessConfident_ltb. apply ltb_asym.
  - intros v. unfold withConfidence, causes, rankedCauses. apply sortBy_stable.
    intros x y _ _ Hx Hy. rewrite lessConfident_ltb.
    destruct (_ <? _) eqn:E; [|reflexivity].
    pose proof (FloatFacts.ltb_leb_trans _ _ _ E (FloatFacts.eqb_leb _ _ Hy)) as F.
    now rewrite (FloatFacts.eqb_not_lt _ _ Hx) in F.
Qed.

(** The first of a ranked list is not below any other. *)
Lemma rankedCauses_top brk changes cfg top rest cause :
  rankedCauses brk changes cfg = top :: rest -> In cause (top :: rest) ->
  (CauseCandidate.confidence cause <=? CauseCandidate.confidence top) = true.
Proof.
  intros E Hin.
  destruct (rankedCauses_spec brk changes cfg) as (_ & Hthr & Hs & _).
  cbv zeta in Hthr, Hs. rewrite E in Hthr, Hs.
  assert (Hnum : forall c, In c (top :: rest) ->
                           (CauseCandidate.confidence c =? CauseCandidate.confidence c) = true).
  { rewrite Forall_forall in Hthr. intros c Hc. specialize (Hthr c Hc).
    unfold Num.geb in Hthr. apply FloatFacts.leb_not_nan in Hthr. tauto. }
  apply Sorted_StronglySorted in Hs.
  - apply StronglySorted_inv in Hs. destruct Hs as [_ Hall].
    destruct Hin as [<-|Hin].
    + apply FloatFacts.eqb_leb, Hnum. now left.
    + rewrite Forall_forall in Hall. apply Hall, Hin.
  - intros a b c Hab Hbc. unfold moreConfident in *.
    exact (FloatFacts.leb_trans _ _ _ Hbc Hab).
Qed.

(** C6. For a change that passes the eligibility filter of a break, the
    temporal score is [exp(-0.5 * gapDays)], the severity score is
    [(min(5, max(1, severity)) - 1) / 4], the stage bonus is 0.2 when the
    affected stages are given and contain the break's from- or to-stage and 0
    otherwise, the category score is the entry of the category x transition
    table with 0.3 for a missing entry, and the confidence is the clamp to
    [0, 1] of the weighted sum of the four. The clamp takes every number into
    [0, 1] and leaves the numbers of [0, 1] as they are. [analyzeCauses]
    returns one diagnosis per break, in the order of the breaks; the
    diagnosis of a break carries that break, and its causes are the scored
    eligible changes of that break whose confidence is at least
    [minConfidenceThreshold], sorted by confidence descending, candidates of
    equal confidence keeping the order of the input. *)
Theorem confidence_and_ranking
    (breaks : list Break.t) (changes : list Change.t)
    (config : option CauseAnalyzerConfig.partial) (clock : Clock) :
  let cfg := mergeCauseAnalyzerConfig config in
  (forall brk change,
      isCandidateChange brk cfg change = true ->
      let gapDays := daysDiff (Change.date change) (Break.detectedDate brk) in
      let candidate := scoreCandidate change brk cfg in
      let scores := CauseCandidate.scoreBreakdown candidate in
      ScoreBreakdown.temporalScore scores = Math_exp (-0.5 * gapDays)
      /\ ScoreBreakdown.severityScore scores
         = (Num.Math_min 5 (Num.Math_max 1 (Change.severity change)) - 1) / 4
      /\ ScoreBreakdown.stageMatchBonus scores
         = (if existsb
                 (fun s => String.eqb s (stageToken (Break.fromStage brk))
                           || String.eqb s (stageToken (Break.toStage brk)))
                 (orElse (Change.affectedStages change) [])
            then 0.2 else 0)
      /\ ScoreBreakdown.categoryRelevanceScore scores
         = orElse (JsMap.get (CATEGORY_STAGE_RELEVANCE (Change.category change))
                     (stageToken (Break.fromStage brk) +++ "->"
                      +++ stageToken (Break.toStage brk)))
                  0.3
      /\ CauseCandidate.confidence candidate
         = clamp01
             (ScoreBreakdown.temporalScore scores
              * CauseAnalyzerConfig.temporalWeight cfg
              + ScoreBreakdown.categoryRelevanceScore scores
                * CauseAnalyzerConfig.categoryWeight cfg
              + ScoreBreakdown.severityScore scores
                * CauseAnalyzerConfig.severityWeight cfg
              + ScoreBreakdown.stageMatchBonus scores
                * CauseAnalyzerConfig.stageMatchWeight cfg))
  /\ (forall x,
         ((x =? x) = true -> (0 <=? clamp01 x) = true /\ (clamp01 x <=? 1) = true)
         /\ ((0 <=? x) = true -> (x <=? 1) = true -> (clamp01 x =? x) = true))
  /\ (exists ds clock',
         analyzeCauses breaks changes config clock = Some (ds, clock')
         /\ Forall2
              (fun brk d =>
                 let survivors :=
                   filter
                     (fun c => Num.geb (CauseCandidate.confidence c)
                                 (CauseAnalyzerConfig.minConfidenceThreshold cfg))
                     (map (fun change => scoreCandidate change brk cfg)
                          (filter (isCandidateChange brk cfg) changes)) in
                 Diagnosis.break d = brk
                 /\ Permutation (Diagnosis.causes d) survivors
                 /\ Sorted moreConfident (Diagnosis.causes d)
                 /\ (forall v, withConfidence v (Diagnosis.causes d)
                               = withConfidence v survivors))
              breaks ds).
Proof.
  intros cfg. split; [|split].
  - intros brk change H. cbv zeta.
    split; [now apply calcTemporalScore_eligible|].
    split; [reflexivity|]. split; [apply calcStageMatchBonus_spec|].
    split; reflexivity.
  - intros x. pose proof (clamp01_spec x). tauto.
  - destruct (analyzeCauses_spec breaks changes config clock)
      as (ds & clock' & Hrun & HF & _).
    exists ds, clock'. split; [assumption|].
    eapply Forall2_impl; [|exact HF].
    intros brk d (_ & Hb & Hc & _). rewrite Hc.
    pose proof (rankedCauses_spec brk changes cfg) as H. cbv zeta in H.
    cbv zeta. fold (survivingCandidates brk changes cfg). tauto.
Qed.

(** C7. [analyzeCauses] returns one diagnosis per break, in the order of
    the breaks. In the diagnosis of a break the causes are the candidates
    that survive the filters for that break (eligible changes, scored, with
    a confidence of at least [minConfidenceThreshold]), and the first of
    them is a survivor whose confidence no survivor exceeds. The status is
    UNKNOWN exactly when no candidate survives, and then the causes are
    empty; IDENTIFIED exactly when some candidate survives and the
    confidence of the top one is at least 0.6; UNCERTAIN exactly when some
    candidate survives and that confidence is not at least 0.6. *)
Theorem diagnosis_status_rules
    (breaks : list Break.t) (changes : list Change.t)
    (config : option CauseAnalyzerConfig.partial) (clock : Clock) :
  let cfg := mergeCauseAnalyzerConfig config in
  exists ds clock',
    analyzeCauses breaks changes config clock = Some (ds, clock')
    /\ Forall2
         (fun brk d =>
            let survivors := survivingCandidates brk changes cfg in
            Diagnosis.break d = brk
            /\ Permutation (Diagnosis.causes d) survivors
            /\ (forall top rest,
                  Diagnosis.causes d = top :: rest ->
                  In top survivors
                  /\ Forall
                       (fun c => (CauseCandidate.confidence c
                                  <=? CauseCandidate.confidence top) = true)
                       survivors)
            /\ (Diagnosis.diagnosisStatus d = UNKNOWN <-> survivors = [])
            /\ (survivors = [] -> Diagnosis.causes d = [])
            /\ (Diagnosis.diagnosisStatus d = IDENTIFIED
                <-> exists top rest,
                      Diagnosis.causes d = top :: rest
                      /\ Num.geb (CauseCandidate.confidence top) 0.6 = true)
            /\ (Diagnosis.diagnosisStatus d = UNCERTAIN
                <-> exists top rest,
                      Diagnosis.causes d = top :: rest
                      /\ Num.geb (CauseCandidate.confidence top) 0.6 = false))
         breaks ds.
Proof.
  intros cfg.
  destruct (analyzeCauses_spec breaks changes config clock)
    as (ds & clock' & Hrun & HF & _).
  exists ds, clock'. split; [assumption|].
  eapply Forall2_impl; [|exact HF].
  intros brk d (_ & Hb & Hc & Hs & _). fold cfg in Hc. cbv zeta.
  assert (Hperm : Permutation (Diagnosis.causes d) (survivingCandidates brk changes cfg))
    by (rewrite Hc; apply sortBy_perm).
  assert (Hnil : survivingCandidates brk changes cfg = [] -> Diagnosis.causes d = []).
  { intros E. rewrite E in Hperm. now apply Permutation_nil, Permutation_sym. }
  split; [exact Hb|]. split; [exact Hperm|]. split; [|split; [|split; [exact Hnil|]]].
  - intros top rest E. split.
    + eapply Permutation_in; [exact Hperm|]. rewrite E. now left.
    + apply Forall_forall. intros c Hin.
      apply (rankedCauses_top brk changes cfg top rest c); [congruence|].
      rewrite <- E. eapply Permutation_in; [symmetry; exact Hperm | exact Hin].
  - rewrite Hs, determineStatus_unknown. split; [|exact Hnil].
    intros E. rewrite E in Hperm. now apply Permutation_nil.
  - rewrite Hs. split; [apply determineStatus_identified | apply determineStatus_uncertain].
Qed.

(** ** Genuine drops *)

Lemma sum_nonneg (values : list float) :
  Forall (fun v => (0 <=? v) = true) values -> (0 <=? Num.sum values) = true.
Proof.
  intros H. unfold Num.sum.
  assert (G : forall acc, (0 <=? acc) = true ->
                          (0 <=? fold_left (fun a v => a + v) values acc) = true).
  { induction H as [|v values Hv _ IH]; intros acc Hacc; simpl; [assumption|].
    apply IH. now apply FloatFacts.add_nonneg. }
  apply G. reflexivity.
Qed.

(** The mean of values not below zero is NaN or not below zero. *)
Lemma mean_nonneg (values : list float) :
  Forall (fun v => (0 <=? v) = true) values ->
  (mean values =? mean values) = true -> (0 <=? mean values) = true.
Proof.
  intros H. unfold mean. destruct values as [|v values]; [reflexivity|].
  apply FloatFacts.div_nonneg; [now apply sum_nonneg|].
  apply FloatFacts.of_uint63_signed.
Qed.

Lemma Math_max_floor_pos (s : float) :
  (Num.Math_max s 0.01 =? Num.Math_max s 0.01) = true ->
  (0 <? Num.Math_max s 0.01) = true.
Proof.
  unfold Num.Math_max.
  destruct (is_nan s || is_nan 0.01) eqn:En; [discriminate|]. intros _.
  apply orb_false_elim in En. destruct En as [En _].
  apply is_nan_false in En.
  destruct (s <? 0.01) eqn:E1; [reflexivity|].
  assert (Hpos : (0 <? s) = true).
  { apply (FloatFacts.ltb_leb_trans 0 0.01 s); [reflexivity|].
    apply FloatFacts.not_ltb_geb; [assumption | reflexivity | assumption]. }
  destruct (0.01 <? s); [assumption|].
  destruct (get_sign s); [reflexivity | assumption].
Qed.

Lemma nonneg_nonzero_pos (x : float) :
  (0 <=? x) = true -> (x =? 0) = false -> (0 <? x) = true.
Proof.
  intros H Hz. apply FloatFacts.leb_cases in H. destruct H as [H|H]; [exact H|].
  rewrite FloatFacts.eqb_sym in H. congruence.
Qed.

Lemma extractTimeSeries_nonneg conversionRates fromS toS :
  ratesNonNegative conversionRates ->
  Forall (fun v => (0 <=? v) = true)
         (map RateDataPoint.rate (extractTimeSeries conversionRates fromS toS)).
Proof.
  intros H. apply Forall_forall. intros v Hv. apply in_map_iff in Hv.
  destruct Hv as (dp & <- & Hdp). unfold extractTimeSeries, sortByLocale in Hdp.
  apply sortBy_In, in_map_iff in Hdp. destruct Hdp as (cr & <- & Hcr). simpl.
  unfold ratesNonNegative in H. rewrite Forall_forall in H. specialize (H cr Hcr).
  destruct (find _ (ConversionRates.rates cr)) as [r|] eqn:E; simpl; [|reflexivity].
  apply find_some in E. rewrite Forall_forall in H. apply H. tauto.
Qed.

Lemma Forall_filter {A} (P : A -> Prop) (p : A -> bool) (l : list A) :
  Forall P l -> Forall P (filter p l).
Proof.
  intros H. rewrite Forall_forall in *. intros x Hx. apply filter_In in Hx.
  apply H. tauto.
Qed.

Lemma rawBreaks_In_series crs cfg b :
  In b (rawBreaks crs cfg) ->
  exists fid fromS toS point,
    let ts := extractTimeSeries
                (sortByLocale ConversionRates.date
                   (filter (fun cr => String.eqb (ConversionRates.funnelId cr) fid) crs))
                fromS toS in
    detectAt ts fid fromS toS cfg point = Some b.
Proof.
  unfold rawBreaks. rewrite in_flat_map. intros [fid [_ H]].
  apply in_flat_map in H. destruct H as [[fromS toS] [Hp H]].
  unfold detectBreaksInSeries in H. apply collect_In in H.
  destruct H as [point [Hpt H]]. simpl in *. eauto 10.
Qed.

Lemma map_filter_Forall {A B} (P : B -> Prop) (f : A -> B) (p : A -> bool) l :
  Forall P (map f l) -> Forall P (map f (filter p l)).
Proof.
  intros H. rewrite Forall_forall in *. intros y Hy. apply in_map_iff in Hy.
  destruct Hy as (x & <- & Hx). apply filter_In in Hx. apply H, in_map. tauto.
Qed.

(** C10, on the series the pipeline produces. When every rate of the input
    is a number not below zero and [minRelativeDrop > 0], every break
    returned by [detectBreaks] is a genuine drop: its baseline rate and its
    absolute drop are strictly positive, its current rate is strictly below
    its baseline rate, and its z-score is not negative; the z-score is
    strictly positive as soon as [minZScore > 0], as in the default
    configuration. *)
Theorem detectBreaks_reports_genuine_drops
    (conversionRates : list ConversionRates.t)
    (config : option BreakDetectorConfig.partial) :
  let cfg := mergeBreakDetectorConfig config in
  ratesNonNegative conversionRates ->
  (0 <? BreakDetectorConfig.minRelativeDrop cfg) = true ->
  Forall
    (fun brk =>
       (0 <? Break.baselineRate brk) = true
       /\ (0 <? Break.absoluteDrop brk) = true
       /\ (Break.currentRate brk <? Break.baselineRate brk) = true
       /\ (0 <=? Break.zScore brk) = true
       /\ ((0 <? BreakDetectorConfig.minZScore cfg) = true ->
           (0 <? Break.zScore brk) = true))
    (detectBreaks conversionRates config).
Proof.
  intros cfg Hrates Hmin. apply Forall_forall. intros brk H.
  apply deduplicate_In, rawBreaks_In_series in H.
  destruct H as (fid & fromS & toS & point & H). cbv zeta in H.
  set (ts := extractTimeSeries _ fromS toS) in H.
  assert (Hts : Forall (fun v => (0 <=? v) = true) (map RateDataPoint.rate ts)).
  { apply extractTimeSeries_nonneg. unfold ratesNonNegative, sortByLocale.
    rewrite Forall_forall. intros cr Hcr. apply sortBy_In, filter_In in Hcr.
    unfold ratesNonNegative in Hrates. rewrite Forall_forall in Hrates.
    apply Hrates. tauto. }
  apply detectAt_inv in H. cbv zeta in H.
  set (baseline := map RateDataPoint.rate (filter _ ts)) in H.
  set (current := map RateDataPoint.rate (filter _ ts)) in H.
  destruct H as (_ & _ & Hbm & Hrel & Hz & ->). simpl.
  unfold Num.geb in Hrel, Hz.
  set (bm := mean baseline) in *. set (cm := mean current) in *.
  set (eff := Num.Math_max (stddev baseline) 0.01) in *.
  assert (Hrelpos : (0 <? (bm - cm) / bm) = true)
    by (eapply FloatFacts.ltb_leb_trans; eassumption).
  assert (Hbmpos : (0 <? bm) = true).
  { apply nonneg_nonzero_pos; [|assumption].
    apply mean_nonneg; [now apply map_filter_Forall|].
    apply (FloatFacts.div_not_nan_r (bm - cm)).
    apply FloatFacts.ltb_not_nan in Hrelpos. tauto. }
  assert (Hdrop : (0 <? bm - cm) = true)
    by (eapply FloatFacts.div_pos_inv; eassumption).
  assert (Hznan : ((bm - cm) / eff =? (bm - cm) / eff) = true).
  { apply FloatFacts.abs_not_nan. apply FloatFacts.leb_not_nan in Hz. tauto. }
  assert (Heff : (0 <? eff) = true).
  { apply Math_max_floor_pos. eapply FloatFacts.div_not_nan_r. exact Hznan. }
  assert (Hznn : (0 <=? (bm - cm) / eff) = true).
  { apply FloatFacts.div_nonneg; [now apply FloatFacts.ltb_leb| |assumption].
    now apply FloatFacts.pos_signed. }
  split; [assumption|]. split; [assumption|].
  split; [now rewrite <- FloatFacts.sub_pos|]. split; [assumption|].
  intros HminZ. apply nonneg_nonzero_pos; [assumption|].
  apply FloatFacts.abs_pos. eapply FloatFacts.ltb_leb_trans; eassumption.
Qed.

(** ** Snapshots of events without the separator *)


Lemma stageEqb_sym a b : stageEqb a b = stageEqb b a.
Proof. destruct a, b; reflexivity. Qed.

Lemma stageMap_fold (stage : FunnelStage) (events : list Event.t) :
  forall counts : StageMap,
    orElse (fold_left
              (fun (sc : StageMap) e =>
                 stageMapSet sc (Event.stage e)
                   (orElse (sc (Event.stage e)) 0 + Event.count e))
              events counts stage) 0
    = fold_left (fun acc v => acc + v)
        (map Event.count
           (filter (fun e => stageEqb (Event.stage e) stage) events))
        (orElse (counts stage) 0).
Proof.
  induction events as [|e events IH]; intros counts; simpl; [reflexivity|].
  rewrite IH. unfold stageMapSet. rewrite (stageEqb_sym stage (Event.stage e)).
  destruct (stageEqb (Event.stage e) stage) eqn:E; [|reflexivity].
  apply stageEqb_eq in E. subst stage. reflexivity.
Qed.





(** ** Breaks come from the input *)

Lemma rawBreaks_origin crs cfg b :
  In b (rawBreaks crs cfg) ->
  exists fromS toS point,
    let funnelRates :=
      sortByLocale ConversionRates.date
        (filter (fun cr => String.eqb (ConversionRates.funnelId cr) (Break.funnelId b))
                crs) in
    let ts := extractTimeSeries funnelRates fromS toS in
    In (fromS, toS) stagePairs /\ In point ts
    /\ detectAt ts (Break.funnelId b) fromS toS cfg point = Some b.
Proof.
  unfold rawBreaks. rewrite in_flat_map. intros [fid [_ H]].
  apply in_flat_map in H. destruct H as [[fromS toS] [Hp H]].
  unfold detectBreaksInSeries in H. apply collect_In in H.
  destruct H as [point [Hpt H]]. cbn [fst snd] in *.
  assert (E : Break.funnelId b = fid).
  { pose proof (detectAt_inv _ _ _ _ _ _ _ H) as Hi. cbv zeta in Hi.
    destruct Hi as (_ & _ & _ & _ & _ & ->). reflexivity. }
  rewrite E. exists fromS, toS, point. cbv zeta. auto.
Qed.

Lemma extractTimeSeries_dates crs fromS toS point :
  In point (extractTimeSeries crs fromS toS) ->
  exists cr, In cr crs /\ ConversionRates.date cr = RateDataPoint.date point.
Proof.
  unfold extractTimeSeries, sortByLocale. rewrite sortBy_In, in_map_iff.
  intros (cr & <- & Hcr). exists cr. split; [assumption | reflexivity].
Qed.

Lemma extractTimeSeries_length crs fromS toS :
  List.length (extractTimeSeries crs fromS toS) = List.length crs.
Proof.
  unfold extractTimeSeries, sortByLocale. now rewrite sortBy_length, length_map.
Qed.

(** X1. Every break [detectBreaks] returns is about a day of the input: its
    [id] is unset, its two stages are adjacent stages of the funnel, and
    the input holds conversion rates of its funnel on its detection date.
    In particular no input gives no break. *)
Theorem detectBreaks_reports_input_days
    (conversionRates : list ConversionRates.t)
    (config : option BreakDetectorConfig.partial) :
  Forall
    (fun brk =>
       Break.id brk = None
       /\ In (Break.fromStage brk, Break.toStage brk) stagePairs
       /\ exists cr,
            In cr conversionRates
            /\ ConversionRates.funnelId cr = Break.funnelId brk
            /\ ConversionRates.date cr = Break.detectedDate brk)
    (detectBreaks conversionRates config).
Proof.
  apply Forall_forall. intros brk H.
  apply deduplicate_In, rawBreaks_origin in H.
  destruct H as (fromS & toS & point & Hp & Hpt & H). cbv zeta in Hpt, H.
  apply extractTimeSeries_dates in Hpt. destruct Hpt as (cr & Hcr & Hd).
  unfold sortByLocale in Hcr. apply sortBy_In, filter_In in Hcr.
  destruct Hcr as [Hcr Hf]. apply String.eqb_eq in Hf.
  apply detectAt_inv in H. cbv zeta in H.
  destruct H as (_ & _ & _ & _ & _ & E).
  pose proof (f_equal Break.id E) as E1.
  pose proof (f_equal Break.fromStage E) as E2.
  pose proof (f_equal Break.toStage E) as E3.
  pose proof (f_equal Break.detectedDate E) as E4.
  cbn [Break.id Break.fromStage Break.toStage Break.detectedDate] in E1, E2, E3, E4.
  rewrite E1, E2, E3, E4.
  split; [reflexivity|]. split; [assumption|].
  exists cr. auto.
Qed.

Lemma filter_disjoint_length {A} (p q : A -> bool) (l : list A) :
  (forall x, p x = true -> q x = false) ->
  (List.length (filter p l) + List.length (filter q l) <= List.length l)%nat.
Proof.
  intros H. induction l as [|x l IH]; simpl; [lia|].
  destruct (p x) eqn:Ep.
  - rewrite (H x Ep). simpl. lia.
  - destruct (q x); simpl; lia.
Qed.

Lemma windows_disjoint cfg date dp :
  inBaselineWindow cfg date dp = true -> inCurrentWindow cfg date dp = false.
Proof.
  unfold inBaselineWindow, inCurrentWindow, Num.geb. intros H.
  apply andb_prop in H. destruct H as [H _].
  rewrite (FloatFacts.leb_not_gt _ _ H). apply andb_false_r.
Qed.

Lemma ofNat_below_7 (n : nat) :
  (Num.ofNat n <? 7) = false -> (7 <= n)%nat.
Proof.
  intros H. destruct (Nat.lt_ge_cases n 7) as [Hlt|]; [|assumption].
  exfalso. do 7 (destruct n as [|n]; [vm_compute in H; discriminate|]). lia.
Qed.

(** X2. A break needs history, whatever the configuration: the funnel of
    every returned break has at least two entries in the input, one for the
    baseline window and one for the current window, which never share a
    point; with the default [minBaselineDataPoints] of 7 it has at least
    eight. *)
Theorem detectBreaks_needs_history
    (conversionRates : list ConversionRates.t)
    (config : option BreakDetectorConfig.partial) :
  Forall
    (fun brk =>
       let days :=
         List.length
           (filter (fun cr => String.eqb (ConversionRates.funnelId cr)
                                (Break.funnelId brk))
                   conversionRates) in
       (2 <= days)%nat
       /\ (BreakDetectorConfig.minBaselineDataPoints (mergeBreakDetectorConfig config)
           = 7 -> (8 <= days)%nat))
    (detectBreaks conversionRates config).
Proof.
  apply Forall_forall. intros brk H.
  apply deduplicate_In, rawBreaks_origin in H.
  destruct H as (fromS & toS & point & _ & _ & H). cbv zeta in H.
  set (ts := extractTimeSeries _ fromS toS) in H.
  assert (Hlen : List.length ts
                 = List.length
                     (filter (fun cr => String.eqb (ConversionRates.funnelId cr)
                                          (Break.funnelId brk))
                             conversionRates)).
  { unfold ts, sortByLocale. now rewrite extractTimeSeries_length, sortBy_length. }
  cbv zeta. rewrite <- Hlen.
  apply detectAt_inv in H. cbv zeta in H.
  destruct H as (Hmin & Hcur & Hmean & _).
  set (date := RateDataPoint.date point) in *.
  pose proof (filter_disjoint_length (inBaselineWindow (mergeBreakDetectorConfig config) date)
                (inCurrentWindow (mergeBreakDetectorConfig config) date) ts
                (windows_disjoint _ _)) as Hsum.
  rewrite length_map in Hmin.
  assert (Hc : (1 <= List.length (filter (inCurrentWindow (mergeBreakDetectorConfig config) date) ts))%nat).
  { destruct (filter (inCurrentWindow _ date) ts); [now elim Hcur | simpl; lia]. }
  assert (Hb : (1 <= List.length (filter (inBaselineWindow (mergeBreakDetectorConfig config) date) ts))%nat).
  { destruct (filter (inBaselineWindow _ date) ts); [discriminate Hmean | simpl; lia]. }
  split; [lia|].
  intros E. rewrite E in Hmin. apply ofNat_below_7 in Hmin. lia.
Qed.

(** ** Thresholds and later days *)

Lemma detectAt_stricter ts fid fromS toS cfg cfg' point b :
  BreakDetectorConfig.baselineWindowDays cfg' = BreakDetectorConfig.baselineWindowDays cfg ->
  BreakDetectorConfig.currentWindowDays cfg' = BreakDetectorConfig.currentWindowDays cfg ->
  BreakDetectorConfig.minBaselineDataPoints cfg'
  = BreakDetectorConfig.minBaselineDataPoints cfg ->
  (BreakDetectorConfig.minRelativeDrop cfg
   <=? BreakDetectorConfig.minRelativeDrop cfg') = true ->
  (BreakDetectorConfig.minZScore cfg <=? BreakDetectorConfig.minZScore cfg') = true ->
  detectAt ts fid fromS toS cfg' point = Some b ->
  detectAt ts fid fromS toS cfg point = Some b.
Proof.
  intros Hb Hc Hm Hr Hz. unfold detectAt, inCurrentWindow, inBaselineWindow.
  rewrite Hb, Hc, Hm.
  destruct (_ <? BreakDetectorConfig.minBaselineDataPoints cfg); [discriminate|].
  destruct (_ =? 0)%nat; [discriminate|].
  destruct (mean _ =? 0); [discriminate|].
  unfold Num.geb.
  destruct (BreakDetectorConfig.minRelativeDrop cfg' <=? _) eqn:E1; [|discriminate].
  destruct (BreakDetectorConfig.minZScore cfg' <=? _) eqn:E2; [|discriminate].
  rewrite (FloatFacts.leb_trans _ _ _ Hr E1), (FloatFacts.leb_trans _ _ _ Hz E2).
  trivial.
Qed.

(** X3. Raising the thresholds never creates a flag: with the same windows
    and the same [minBaselineDataPoints], every break that
    [detectBreaksInSeries] flags under the higher [minRelativeDrop] and
    [minZScore] is flagged, identical, under the lower ones. *)
Theorem stricter_thresholds_flag_less
    (timeSeries : list RateDataPoint.t) (funnelId : string)
    (fromStage toStage : FunnelStage) (cfg cfg' : BreakDetectorConfig.t) :
  BreakDetectorConfig.baselineWindowDays cfg' = BreakDetectorConfig.baselineWindowDays cfg ->
  BreakDetectorConfig.currentWindowDays cfg' = BreakDetectorConfig.currentWindowDays cfg ->
  BreakDetectorConfig.minBaselineDataPoints cfg'
  = BreakDetectorConfig.minBaselineDataPoints cfg ->
  (BreakDetectorConfig.minRelativeDrop cfg
   <=? BreakDetectorConfig.minRelativeDrop cfg') = true ->
  (BreakDetectorConfig.minZScore cfg <=? BreakDetectorConfig.minZScore cfg') = true ->
  forall brk,
    In brk (detectBreaksInSeries timeSeries funnelId fromStage toStage cfg') ->
    In brk (detectBreaksInSeries timeSeries funnelId fromStage toStage cfg).
Proof.
  intros Hb Hc Hm Hr Hz brk. unfold detectBreaksInSeries. rewrite !collect_In.
  intros (point & Hin & H). exists point. split; [assumption|].
  now apply (detectAt_stricter _ _ _ _ cfg cfg').
Qed.

Lemma filter_remove {A} (p : A -> bool) (l1 l2 : list A) (x : A) :
  p x = false -> filter p (l1 ++ x :: l2) = filter p (l1 ++ l2).
Proof. intros H. rewrite !filter_app. simpl. now rewrite H. Qed.

Lemma detectAt_ignores_later
    (before after : list RateDataPoint.t) (later point : RateDataPoint.t)
    (funnelId : string) (fromStage toStage : FunnelStage)
    (cfg : BreakDetectorConfig.t) :
  (0 <=? BreakDetectorConfig.currentWindowDays cfg) = true ->
  (daysDiff (RateDataPoint.date later) (RateDataPoint.date point) <? 0) = true ->
  detectAt (before ++ later :: after) funnelId fromStage toStage cfg point
  = detectAt (before ++ after) funnelId fromStage toStage cfg point.
Proof.
  intros Hcw Hlater. unfold detectAt.
  assert (Hc : inCurrentWindow cfg (RateDataPoint.date point) later = false).
  { unfold inCurrentWindow, Num.geb.
    now rewrite (FloatFacts.ltb_not_ge _ _ Hlater). }
  assert (Hb : inBaselineWindow cfg (RateDataPoint.date point) later = false).
  { unfold inBaselineWindow, Num.geb.
    pose proof (FloatFacts.ltb_leb_trans _ _ _ Hlater Hcw) as H.
    now rewrite (FloatFacts.ltb_not_ge _ _ H). }
  now rewrite (filter_remove _ before after later Hc),
              (filter_remove _ before after later Hb).
Qed.

Lemma collect_ext_in {A B} (f g : A -> option B) (xs : list A) :
  (forall x, In x xs -> f x = g x) -> collect f xs = collect g xs.
Proof.
  intros H. unfold collect. induction xs as [|x xs IH]; simpl; [reflexivity|].
  rewrite (H x) by now left. f_equal. apply IH. intros y Hy. apply H. now right.
Qed.

(** X4. [detectBreaksInSeries] never looks ahead: when [currentWindowDays]
    is not negative, adding to a series a point dated after all the others
    leaves the flags of the earlier dates as they were, and adds at most the
    flag of the new date. *)
Theorem later_day_keeps_earlier_flags
    (timeSeries : list RateDataPoint.t) (later : RateDataPoint.t)
    (funnelId : string) (fromStage toStage : FunnelStage)
    (cfg : BreakDetectorConfig.t) :
  (0 <=? BreakDetectorConfig.currentWindowDays cfg) = true ->
  Forall
    (fun point =>
       (daysDiff (RateDataPoint.date later) (RateDataPoint.date point) <? 0) = true)
    timeSeries ->
  detectBreaksInSeries (timeSeries ++ [later]) funnelId fromStage toStage cfg
  = detectBreaksInSeries timeSeries funnelId fromStage toStage cfg
    ++ match detectAt (timeSeries ++ [later]) funnelId fromStage toStage cfg later with
       | Some brk => [brk]
       | None => []
       end.
Proof.
  intros Hcw Hall. unfold detectBreaksInSeries.
  unfold collect at 1. rewrite flat_map_app. simpl. rewrite app_nil_r. f_equal.
  apply collect_ext_in. intros point Hin.
  rewrite Forall_forall in Hall.
  rewrite (detectAt_ignores_later timeSeries [] later point _ _ _ _ Hcw (Hall _ Hin)).
  now rewrite app_nil_r.
Qed.

(** ** Severity is monotone *)

(** X5. [classifySeverity] is monotone: a relative drop and a |zScore| that
    are both at least as large never give a lower severity. *)
Theorem classifySeverity_monotone (r1 z1 r2 z2 : float) :
  (r1 <=? r2) = true -> (abs z1 <=? abs z2) = true ->
  (severityRank (classifySeverity r1 z1)
   <= severityRank (classifySeverity r2 z2))%nat.
Proof.
  intros Hr Hz. unfold classifySeverity, Num.gtb.
  assert (Lr : forall t, (t <? r1) = true -> (t <? r2) = true)
    by (intros t H; exact (FloatFacts.ltb_leb_trans _ _ _ H Hr)).
  assert (Lz : forall t, (t <? abs z1) = true -> (t <? abs z2) = true)
    by (intros t H; exact (FloatFacts.ltb_leb_trans _ _ _ H Hz)).
  assert (C : (0.40 <? r1) || (3.0 <? abs z1) = true ->
              (0.40 <? r2) || (3.0 <? abs z2) = true).
  { rewrite !orb_true_iff. intros [H|H]; [left | right]; auto. }
  assert (S : (0.20 <? r1) || (2.0 <? abs z1) = true ->
              (0.20 <? r2) || (2.0 <? abs z2) = true).
  { rewrite !orb_true_iff. intros [H|H]; [left | right]; auto. }
  destruct ((0.40 <? r1) || (3.0 <? abs z1)).
  - rewrite C by reflexivity. simpl. lia.
  - destruct ((0.20 <? r1) || (2.0 <? abs z1)).
    + rewrite S by reflexivity. destruct (_ || _); simpl; lia.
    + simpl. lia.
Qed.

Lemma calcCategoryRelevance_range category fromS toS :
  (0.05 <=? calcCategoryRelevance category fromS toS) = true
  /\ (calcCategoryRelevance category fromS toS <=? 0.95) = true.
Proof. destruct category, fromS, toS; vm_compute; split; reflexivity. Qed.

Lemma calcStageMatchBonus_values change brk :
  calcStageMatchBonus change brk = 0 \/ calcStageMatchBonus change brk = 0.2.
Proof.
  rewrite calcStageMatchBonus_spec. destruct (existsb _ _); auto.
Qed.

Lemma clamp01_number (x : float) :
  (clamp01 x =? clamp01 x) = true ->
  (0 <=? clamp01 x) = true /\ (clamp01 x <=? 1) = true.
Proof.
  intros H. destruct (clamp01_spec x) as (Hnan & Hin & _).
  destruct (x =? x) eqn:E; [now apply Hin|].
  rewrite Hnan in H by reflexivity. discriminate.
Qed.

(** X9. [analyzeCauses] returns normally and every cause of every diagnosis
    has a confidence that is a number of [0, 1], whatever the weights of the
    configuration (a candidate whose confidence is NaN is never reported),
    a category relevance between 0.05 and 0.95 and a stage bonus of 0 or
    0.2. *)
Theorem reported_causes_are_well_scored
    (breaks : list Break.t) (changes : list Change.t)
    (config : option CauseAnalyzerConfig.partial) (clock : Clock) :
  exists ds clock',
    analyzeCauses breaks changes config clock = Some (ds, clock')
    /\ Forall
         (fun d =>
            Forall
              (fun cause =>
                 let scores := CauseCandidate.scoreBreakdown cause in
                 (0 <=? CauseCandidate.confidence cause) = true
                 /\ (CauseCandidate.confidence cause <=? 1) = true
                 /\ (0.05 <=? ScoreBreakdown.categoryRelevanceScore scores) = true
                 /\ (ScoreBreakdown.categoryRelevanceScore scores <=? 0.95) = true
                 /\ (ScoreBreakdown.stageMatchBonus scores = 0
                     \/ ScoreBreakdown.stageMatchBonus scores = 0.2))
              (Diagnosis.causes d))
         ds.
Proof.
  destruct (analyzeCauses_spec breaks changes config clock)
    as (ds & clock' & Hrun & HF & _).
  exists ds, clock'. split; [assumption|].
  eapply Forall2_right; [exact HF|].
  intros brk d _ (_ & Hb & Hc & _). rewrite Hc.
  apply Forall_forall. intros cause Hin.
  apply rankedCauses_In in Hin.
  destruct Hin as (change & _ & _ & -> & Hthr). cbv zeta.
  unfold Num.geb in Hthr. apply FloatFacts.leb_not_nan in Hthr.
  destruct Hthr as [_ Hnum].
  destruct (clamp01_number _ Hnum) as [H0 H1].
  split; [exact H0|]. split; [exact H1|].
  cbn [scoreCandidate CauseCandidate.scoreBreakdown
       ScoreBreakdown.categoryRelevanceScore ScoreBreakdown.stageMatchBonus].
  destruct (calcCategoryRelevance_range (Change.category change)
              (Break.fromStage brk) (Break.toStage brk)) as [Hc1 Hc2].
  split; [exact Hc1|]. split; [exact Hc2|].
  apply calcStageMatchBonus_values.
Qed.

(** ** The order of the changes *)

Lemma Permutation_filter {A} (p : A -> bool) (l l' : list A) :
  Permutation l l' -> Permutation (filter p l) (filter p l').
Proof.
  intros H. induction H as [|x l l' _ IH|x y l|l l' l'' _ IH1 _ IH2]; simpl.
  - constructor.
  - destruct (p x); [now constructor | assumption].
  - destruct (p x), (p y); try reflexivity. apply perm_swap.
  - now transitivity (filter p l').
Qed.

Lemma rankedCauses_perm brk cfg changes changes' :
  Permutation changes changes' ->
  Permutation (rankedCauses brk changes cfg) (rankedCauses brk changes' cfg).
Proof.
  intros H. unfold rankedCauses.
  rewrite !sortBy_perm. unfold survivingCandidates.
  now apply Permutation_filter, Permutation_map, Permutation_filter.
Qed.

Lemma determineStatus_perm brk cfg changes changes' :
  Permutation changes changes' ->
  determineStatus (rankedCauses brk changes cfg)
  = determineStatus (rankedCauses brk changes' cfg).
Proof.
  intros H. pose proof (rankedCauses_perm brk cfg _ _ H) as Hp.
  destruct (rankedCauses brk changes cfg) as [|top rest] eqn:E1;
    destruct (rankedCauses brk changes' cfg) as [|top' rest'] eqn:E2.
  - reflexivity.
  - apply Permutation_nil in Hp. discriminate.
  - symmetry in Hp. apply Permutation_nil in Hp. discriminate.
  - assert (H1 : (CauseCandidate.confidence top <=? CauseCandidate.confidence top') = true).
    { apply (rankedCauses_top brk changes' cfg top' rest' top E2).
      eapply Permutation_in; [exact Hp | now left]. }
    assert (H2 : (CauseCandidate.confidence top' <=? CauseCandidate.confidence top) = true).
    { apply (rankedCauses_top brk changes cfg top rest top' E1).
      eapply Permutation_in; [symmetry; exact Hp | now left]. }
    unfold determineStatus, Num.geb.
    destruct (0.6 <=? CauseCandidate.confidence top) eqn:A.
    + now rewrite (FloatFacts.leb_trans _ _ _ A H1).
    + destruct (0.6 <=? CauseCandidate.confidence top') eqn:B; [|reflexivity].
      now rewrite (FloatFacts.leb_trans _ _ _ B H2) in A.
Qed.

(** X10. The order in which the changes are listed does not change the
    verdict: on a permutation of the changes, [analyzeCauses] gives, break
    by break, the same status and the same causes up to their order (which
    can differ only among causes of equal confidence). *)
Theorem diagnosis_independent_of_change_order
    (breaks : list Break.t) (changes changes' : list Change.t)
    (config : option CauseAnalyzerConfig.partial) (clock : Clock) :
  Permutation changes changes' ->
  exists ds ds' rest rest',
    analyzeCauses breaks changes config clock = Some (ds, rest)
    /\ analyzeCauses breaks changes' config clock = Some (ds', rest')
    /\ Forall2
         (fun d d' =>
            Diagnosis.break d = Diagnosis.break d'
            /\ Diagnosis.diagnosisStatus d = Diagnosis.diagnosisStatus d'
            /\ Permutation (Diagnosis.causes d) (Diagnosis.causes d'))
         ds ds'.
Proof.
  intros Hperm.
  destruct (analyzeCauses_spec breaks changes config clock)
    as (ds & rest & Hrun & HF & _).
  destruct (analyzeCauses_spec breaks changes' config clock)
    as (ds' & rest' & Hrun' & HF' & _).
  exists ds, ds', rest, rest'. split; [assumption|]. split; [assumption|].
  clear Hrun Hrun'. revert ds' HF'.
  induction HF as [|brk d breaks ds Hd _ IH]; intros ds' HF'.
  - inversion HF'. constructor.
  - inversion HF' as [|? d' ? ds0 Hd' HF0]; subst. constructor; [|now apply IH].
    destruct Hd as (_ & Hb & Hc & Hs & _), Hd' as (_ & Hb' & Hc' & Hs' & _).
    split; [congruence|]. split.
    + rewrite Hs, Hs', Hc, Hc'. now apply determineStatus_perm.
    + rewrite Hc, Hc'. now apply rankedCauses_perm.
Qed.

Lemma Forall2_map_eq {A B C} (R : A -> B -> Prop) (f : B -> C) (g : A -> C) l l' :
  Forall2 R l l' -> (forall a b, R a b -> f b = g a) -> map f l' = map g l.
Proof.
  intros H HR. induction H; simpl; [reflexivity|]. f_equal; auto.
Qed.

(** X11. [analyzeCauses] returns one diagnosis per break, in the order of
    the breaks, each carrying its break unchanged and no [id], and it reads
    the clock once per break. *)
Theorem analyzeCauses_one_diagnosis_per_break
    (breaks : list Break.t) (changes : list Change.t)
    (config : option CauseAnalyzerConfig.partial) (clock : Clock) :
  exists ds clock',
    analyzeCauses breaks changes config clock = Some (ds, clock')
    /\ map Diagnosis.break ds = breaks
    /\ Forall (fun d => Diagnosis.id d = None) ds
    /\ (forall n, clock' n = clock (List.length breaks + n)%nat).
Proof.
  destruct (analyzeCauses_spec breaks changes config clock)
    as (ds & clock' & Hrun & HF & _ & Hc).
  exists ds, clock'. split; [assumption|]. split; [|split; [|assumption]].
  - rewrite <- (map_id breaks).
    eapply Forall2_map_eq; [exact HF|]. intros brk d H. unfold diagnosisOf in H. tauto.
  - eapply Forall2_right; [exact HF|]. intros brk d _ H. unfold diagnosisOf in H. tauto.
Qed.

(** ** Counts that are not negative *)

Lemma buildSnapshots_grouped (events : list Event.t) :
  buildSnapshots events
  = sortBy (fun a b => (0 <? compareSnapshots a b)%Z)
      (map snapshotOfEntry
         (tabulate
            (fun k =>
               fold_left
                 (fun (sc : StageMap) e =>
                    stageMapSet sc (Event.stage e)
                      (orElse (sc (Event.stage e)) 0 + Event.count e))
                 (withKey (fun e => snapshotKey (Event.funnelId e) (Event.date e))
                          k events)
                 emptyStageMap)
            (uniqueStrings []
               (map (fun e => snapshotKey (Event.funnelId e) (Event.date e))
                    events)))).
Proof.
  unfold buildSnapshots.
  change addEvent
    with (upsert (fun e => snapshotKey (Event.funnelId e) (Event.date e))
            emptyStageMap
            (fun (sc : StageMap) e =>
               stageMapSet sc (Event.stage e)
                 (orElse (sc (Event.stage e)) 0 + Event.count e))).
  now rewrite fold_upsert.
Qed.

Lemma buildSnapshots_counts_nonneg (events : list Event.t) :
  Forall (fun e => (0 <=? Event.count e) = true) events ->
  Forall (fun s => forall stage, (0 <=? FunnelSnapshot.stageCounts s stage) = true)
         (buildSnapshots events).
Proof.
  intros H. rewrite buildSnapshots_grouped.
  apply Forall_forall. intros s Hs. apply sortBy_In, in_map_iff in Hs.
  destruct Hs as ([k sm] & <- & Hin). unfold tabulate in Hin.
  apply in_map_iff in Hin. destruct Hin as (k' & E & _). injection E as <- <-.
  intros stage. unfold snapshotOfEntry. cbn [FunnelSnapshot.stageCounts snd].
  rewrite stageMap_fold. change (orElse (emptyStageMap stage) 0) with 0.
  apply sum_nonneg. apply Forall_forall. intros v Hv.
  apply in_map_iff in Hv. destruct Hv as (e & <- & He).
  apply filter_In in He. destruct He as [He _]. apply withKey_In in He.
  rewrite Forall_forall in H. apply H. tauto.
Qed.

Lemma rateOf_not_negative snapshot pair :
  (forall stage, (0 <=? FunnelSnapshot.stageCounts snapshot stage) = true) ->
  (Rate.rate (rateOf snapshot pair) <? 0) = false.
Proof.
  intros H. unfold rateOf, Num.gtb. cbn [Rate.rate].
  destruct (0 <? FunnelSnapshot.stageCounts snapshot (fst pair)) eqn:E;
    [|reflexivity].
  apply FloatFacts.div_not_negative.
  - apply FloatFacts.leb_not_gt, H.
  - now apply FloatFacts.pos_signed.
Qed.

Lemma sum_not_negative (values : list float) :
  Forall (fun v => (v <? 0) = false) values -> (Num.sum values <? 0) = false.
Proof.
  intros H. unfold Num.sum.
  assert (G : forall acc, (acc <? 0) = false ->
                          (fold_left (fun a v => a + v) values acc <? 0) = false).
  { induction H as [|v values Hv _ IH]; intros acc Hacc; simpl; [assumption|].
    apply IH. now apply FloatFacts.add_not_negative. }
  apply G. reflexivity.
Qed.

Lemma mean_not_negative (values : list float) :
  Forall (fun v => (v <? 0) = false) values -> (mean values <? 0) = false.
Proof.
  intros H. unfold mean. destruct values as [|v values]; [reflexivity|].
  apply FloatFacts.div_not_negative; [now apply sum_not_negative|].
  apply FloatFacts.of_uint63_signed.
Qed.

(** What a flag records when no rate of the series is negative. *)
Lemma detectAt_genuine ts fid fromS toS cfg point b :
  Forall (fun v => (v <? 0) = false) (map RateDataPoint.rate ts) ->
  (0 <? BreakDetectorConfig.minRelativeDrop cfg) = true ->
  detectAt ts fid fromS toS cfg point = Some b ->
  (0 <? Break.baselineRate b) = true
  /\ (0 <? Break.absoluteDrop b) = true
  /\ (Break.currentRate b <? Break.baselineRate b) = true
  /\ (0 <=? Break.zScore b) = true
  /\ ((0 <? BreakDetectorConfig.minZScore cfg) = true ->
      (0 <? Break.zScore b) = true).
Proof.
  intros Hts Hmin H.
  apply detectAt_inv in H. cbv zeta in H.
  set (baseline := map RateDataPoint.rate (filter _ ts)) in H.
  set (current := map RateDataPoint.rate (filter _ ts)) in H.
  destruct H as (_ & _ & Hbm & Hrel & Hz & ->). simpl.
  unfold Num.geb in Hrel, Hz.
  set (bm := mean baseline) in *. set (cm := mean current) in *.
  set (eff := Num.Math_max (stddev baseline) 0.01) in *.
  assert (Hrelpos : (0 <? (bm - cm) / bm) = true)
    by (eapply FloatFacts.ltb_leb_trans; eassumption).
  assert (Hbmnum : (bm =? bm) = true).
  { apply (FloatFacts.div_not_nan_r (bm - cm)).
    apply FloatFacts.ltb_not_nan in Hrelpos. tauto. }
  assert (Hbmpos : (0 <? bm) = true).
  { apply nonneg_nonzero_pos; [|assumption].
    apply FloatFacts.not_ltb_geb; [assumption | reflexivity |].
    apply mean_not_negative. now apply map_filter_Forall. }
  assert (Hdrop : (0 <? bm - cm) = true)
    by (eapply FloatFacts.div_pos_inv; eassumption).
  assert (Hznan : ((bm - cm) / eff =? (bm - cm) / eff) = true).
  { apply FloatFacts.abs_not_nan. apply FloatFacts.leb_not_nan in Hz. tauto. }
  assert (Heff : (0 <? eff) = true).
  { apply Math_max_floor_pos. eapply FloatFacts.div_not_nan_r. exact Hznan. }
  assert (Hznn : (0 <=? (bm - cm) / eff) = true).
  { apply FloatFacts.div_nonneg; [now apply FloatFacts.ltb_leb| |assumption].
    now apply FloatFacts.pos_signed. }
  split; [assumption|]. split; [assumption|].
  split; [now rewrite <- FloatFacts.sub_pos|]. split; [assumption|].
  intros HminZ. apply nonneg_nonzero_pos; [assumption|].
  apply FloatFacts.abs_pos. eapply FloatFacts.ltb_leb_trans; eassumption.
Qed.

Lemma extractTimeSeries_not_negative conversionRates fromS toS :
  Forall (fun cr => Forall (fun r => (Rate.rate r <? 0) = false)
                           (ConversionRates.rates cr))
         conversionRates ->
  Forall (fun v => (v <? 0) = false)
         (map RateDataPoint.rate (extractTimeSeries conversionRates fromS toS)).
Proof.
  intros H. apply Forall_forall. intros v Hv. apply in_map_iff in Hv.
  destruct Hv as (dp & <- & Hdp). unfold extractTimeSeries, sortByLocale in Hdp.
  apply sortBy_In, in_map_iff in Hdp. destruct Hdp as (cr & <- & Hcr). simpl.
  rewrite Forall_forall in H. specialize (H cr Hcr).
  destruct (find _ (ConversionRates.rates cr)) as [r|] eqn:E; simpl; [|reflexivity].
  apply find_some in E. rewrite Forall_forall in H. apply H. tauto.
Qed.

(** The rates the pipeline computes from counts that are not negative are
    not negative: each is NaN or at least zero. *)
Lemma pipeline_rates_not_negative (events : list Event.t) :
  Forall (fun e => (0 <=? Event.count e) = true) events ->
  Forall (fun cr => Forall (fun r => (Rate.rate r <? 0) = false)
                           (ConversionRates.rates cr))
         (calculateConversionRates (buildSnapshots events)).
Proof.
  intros Hcounts. apply Forall_forall. intros cr Hcr.
  unfold calculateConversionRates in Hcr. apply in_map_iff in Hcr.
  destruct Hcr as (snapshot & <- & Hs). cbn [ConversionRates.rates].
  apply Forall_forall. intros r Hr. apply in_map_iff in Hr.
  destruct Hr as (pair & <- & _). apply rateOf_not_negative.
  pose proof (buildSnapshots_counts_nonneg events Hcounts) as Hall.
  rewrite Forall_forall in Hall. now apply Hall.
Qed.

(** The series of one funnel and one transition, cut out of rates that are
    not negative. *)
Lemma funnelSeries_not_negative conversionRates funnelId fromS toS :
  Forall (fun cr => Forall (fun r => (Rate.rate r <? 0) = false)
                           (ConversionRates.rates cr))
         conversionRates ->
  Forall (fun v => (v <? 0) = false)
         (map RateDataPoint.rate
            (extractTimeSeries
               (sortByLocale ConversionRates.date
                  (filter (fun cr => String.eqb (ConversionRates.funnelId cr) funnelId)
                          conversionRates))
               fromS toS)).
Proof.
  intros H. apply extractTimeSeries_not_negative.
  apply Forall_forall. intros cr Hcr. unfold sortByLocale in Hcr.
  apply sortBy_In, filter_In in Hcr. destruct Hcr as [Hcr _].
  rewrite Forall_forall in H. now apply H.
Qed.

(** X8. On the rates the pipeline itself computes, the detector reports
    genuine drops only: when every event count is a number not below zero
    and [minRelativeDrop > 0], every break of
    [detectBreaks(calculateConversionRates(buildSnapshots(events)))] has a
    strictly positive baseline rate and absolute drop, a current rate
    strictly below the baseline rate and a z-score that is not negative,
    strictly positive when [minZScore > 0]. Counts that overflow to
    infinity give NaN rates, which are never flagged. *)
Theorem pipeline_reports_genuine_drops
    (events : list Event.t) (config : option BreakDetectorConfig.partial) :
  let cfg := mergeBreakDetectorConfig config in
  Forall (fun e => (0 <=? Event.count e) = true) events ->
  (0 <? BreakDetectorConfig.minRelativeDrop cfg) = true ->
  Forall
    (fun brk =>
       (0 <? Break.baselineRate brk) = true
       /\ (0 <? Break.absoluteDrop brk) = true
       /\ (Break.currentRate brk <? Break.baselineRate brk) = true
       /\ (0 <=? Break.zScore brk) = true
       /\ ((0 <? BreakDetectorConfig.minZScore cfg) = true ->
           (0 <? Break.zScore brk) = true))
    (detectBreaks (calculateConversionRates (buildSnapshots events)) config).
Proof.
  intros cfg Hcounts Hmin. apply Forall_forall. intros brk H.
  apply deduplicate_In, rawBreaks_In_series in H.
  destruct H as (fid & fromS & toS & point & H). cbv zeta in H.
  eapply detectAt_genuine; [|exact Hmin|exact H].
  apply funnelSeries_not_negative, pipeline_rates_not_negative, Hcounts.
Qed.

(** ** The standard deviation and the distance in days *)

Lemma Math_max_floor_ge (s : float) : (Num.Math_max s 0.01 <? 0.01) = false.
Proof.
  unfold Num.Math_max.
  destruct (is_nan s || is_nan 0.01); [reflexivity|].
  destruct (s <? 0.01) eqn:E1; [reflexivity|].
  destruct (0.01 <? s) eqn:E2; [now apply ltb_asym|].
  destruct (get_sign s); [reflexivity | assumption].
Qed.

(** X6. The standard deviation of the baseline is never negative (it is
    NaN or at least zero), it is 0 for fewer than two values, the mean of no
    value is 0, and the divisor of the z-score, [Math.max(stddev, 0.01)], is
    never below 0.01. *)
Theorem stddev_is_never_negative (values : list float) :
  (stddev values <? 0) = false
  /\ ((List.length values < 2)%nat -> stddev values = 0)
  /\ (values = [] -> mean values = 0)
  /\ (Num.Math_max (stddev values) 0.01 <? 0.01) = false.
Proof.
  split; [|split; [|split]].
  - unfold stddev. destruct (_ <? 2)%nat; [reflexivity|].
    apply FloatFacts.sqrt_not_negative.
  - intros H. unfold stddev. apply Nat.ltb_lt in H. now rewrite H.
  - intros ->. reflexivity.
  - apply Math_max_floor_ge.
Qed.


(** ** Settings that are not numbers *)

Lemma is_nan_true (x : float) : is_nan x = true <-> (x =? x) = false.
Proof. unfold is_nan. destruct (x =? x); simpl; split; congruence. Qed.

Lemma ltb_nan_r (x y : float) : (y =? y) = false -> (x <? y) = false.
Proof.
  intros H. destruct (x <? y) eqn:E; [|reflexivity].
  apply FloatFacts.ltb_not_nan in E. destruct E; congruence.
Qed.

Lemma leb_nan_l (x y : float) : (x =? x) = false -> (x <=? y) = false.
Proof.
  intros H. destruct (x <=? y) eqn:E; [|reflexivity].
  apply FloatFacts.leb_not_nan in E. destruct E; congruence.
Qed.

Lemma filter_none {A} (p : A -> bool) (l : list A) :
  (forall x, p x = false) -> filter p l = [].
Proof. intros H. induction l as [|x l IH]; simpl; [reflexivity|]. now rewrite H. Qed.

Lemma detectAt_NaN ts fid fromS toS cfg point :
  is_nan (BreakDetectorConfig.baselineWindowDays cfg)
  || is_nan (BreakDetectorConfig.currentWindowDays cfg)
  || is_nan (BreakDetectorConfig.minRelativeDrop cfg)
  || is_nan (BreakDetectorConfig.minZScore cfg) = true ->
  detectAt ts fid fromS toS cfg point = None.
Proof.
  intros H. rewrite !orb_true_iff, !is_nan_true in H. unfold detectAt.
  destruct (_ <? BreakDetectorConfig.minBaselineDataPoints cfg); [reflexivity|].
  destruct H as [[[H|H]|H]|H].
  - rewrite (filter_none (inBaselineWindow cfg (RateDataPoint.date point))).
    + destruct (_ =? 0)%nat; reflexivity.
    + intros dp. unfold inBaselineWindow.
      rewrite (ltb_nan_r _ _ (FloatFacts.add_nan _ _ (or_introl H))).
      apply andb_false_r.
  - rewrite (filter_none (inCurrentWindow cfg (RateDataPoint.date point)));
      [reflexivity|].
    intros dp. unfold inCurrentWindow. rewrite (ltb_nan_r _ _ H).
    apply andb_false_r.
  - destruct (_ =? 0)%nat; [reflexivity|]. destruct (mean _ =? 0); [reflexivity|].
    unfold Num.geb. now rewrite (leb_nan_l _ _ H).
  - destruct (_ =? 0)%nat; [reflexivity|]. destruct (mean _ =? 0); [reflexivity|].
    unfold Num.geb. rewrite (leb_nan_l _ _ H). now rewrite andb_false_r.
Qed.

Lemma collect_none {A B} (f : A -> option B) (xs : list A) :
  (forall x, f x = None) -> collect f xs = [].
Proof.
  intros H. unfold collect. induction xs as [|x xs IH]; simpl; [reflexivity|].
  now rewrite H.
Qed.

Lemma flat_map_nil {A B} (f : A -> list B) (l : list A) :
  (forall x, f x = []) -> flat_map f l = [].
Proof.
  intros H. induction l as [|x l IH]; simpl; [reflexivity|]. now rewrite H.
Qed.

(** X20. A setting that is not a number silently disables the detector:
    when [baselineWindowDays], [currentWindowDays], [minRelativeDrop] or
    [minZScore] of the merged configuration is NaN (as [parseInt] and
    [parseFloat] give for an option of the command line that is no number),
    [detectBreaks] returns no break, whatever the rates. *)
Theorem detectBreaks_with_NaN_setting
    (conversionRates : list ConversionRates.t)
    (config : option BreakDetectorConfig.partial) :
  let cfg := mergeBreakDetectorConfig config in
  is_nan (BreakDetectorConfig.baselineWindowDays cfg)
  || is_nan (BreakDetectorConfig.currentWindowDays cfg)
  || is_nan (BreakDetectorConfig.minRelativeDrop cfg)
  || is_nan (BreakDetectorConfig.minZScore cfg) = true ->
  detectBreaks conversionRates config = [].
Proof.
  intros cfg H. unfold detectBreaks. fold cfg.
  assert (E : rawBreaks conversionRates cfg = []).
  { unfold rawBreaks. apply flat_map_nil. intros funnelId.
    apply flat_map_nil. intros pair. unfold detectBreaksInSeries.
    apply collect_none. intros point. now apply detectAt_NaN. }
  now rewrite E.
Qed.

Lemma deduplicate_In_iff raw b :
  In b (deduplicateConsecutiveBreaks raw)
  <-> exists rep, In rep raw /\ In b (dedupGroup (withKey breakKey (breakKey rep) raw)).
Proof.
  unfold deduplicateConsecutiveBreaks. destruct raw as [|b0 raw'].
  - split; [intros [] | intros (rep & [] & _)].
  - generalize (b0 :: raw'). clear. intros raw.
    unfold sortByLocale. rewrite sortBy_In, groups_spec, in_flat_map. split.
    + intros [[k g] [Hg H]]. unfold tabulate in Hg. apply in_map_iff in Hg.
      destruct Hg as [k' [E Hk]]. injection E as <- <-. cbn [snd] in H.
      apply uniqueStrings_In in Hk. destruct Hk as [Hk _].
      apply in_map_iff in Hk. destruct Hk as (rep & <- & Hrep). eauto.
    + intros (rep & Hrep & H).
      exists (breakKey rep, withKey breakKey (breakKey rep) raw). split; [|exact H].
      unfold tabulate. apply in_map_iff. exists (breakKey rep). split; [reflexivity|].
      apply uniqueStrings_In. split; [now apply in_map | intros []].
Qed.

Lemma uniqueStrings_all_seen (x : string) (l seen : list string) :
  Forall (fun y => y = x) l -> In x seen -> uniqueStrings seen l = [].
Proof.
  intros H Hx. induction H as [|y l -> _ IH]; simpl; [reflexivity|].
  now rewrite (proj2 (existsb_eqb_In x seen) Hx).
Qed.

Lemma uniqueStrings_constant (x : string) (l : list string) :
  Forall (fun y => y = x) l ->
  uniqueStrings [] l = match l with [] => [] | _ => [x] end.
Proof.
  intros H. destruct H as [|y l -> H]; simpl; [reflexivity|].
  f_equal. apply (uniqueStrings_all_seen x); [assumption | now left].
Qed.

Lemma filter_NoDup_eqb (x : string) (l : list string) :
  NoDup l ->
  filter (fun y => String.eqb y x) l = if existsb (String.eqb x) l then [x] else [].
Proof.
  intros H. induction H as [|y l Hy _ IH]; simpl; [reflexivity|].
  rewrite (String.eqb_sym x y). destruct (String.eqb y x) eqn:E.
  - apply String.eqb_eq in E. subst y. simpl. f_equal. rewrite IH.
    destruct (existsb (String.eqb x) l) eqn:Ex; [|reflexivity].
    apply existsb_eqb_In in Ex. tauto.
  - simpl. exact IH.
Qed.

Lemma filter_keyed_chunk {B} (key : B -> string) (k x : string) (l : list B) :
  (forall b, In b l -> key b = k) ->
  filter (fun b => String.eqb (key b) x) l = if String.eqb k x then l else [].
Proof.
  intros H. induction l as [|b l IH]; simpl; [now destruct (String.eqb k x)|].
  rewrite IH by (intros; apply H; now right).
  rewrite (H b) by now left. now destruct (String.eqb k x).
Qed.

Lemma filter_flat_map_keyed {B} (key : B -> string) (chunk : string -> list B)
    (x : string) (ks : list string) :
  (forall k b, In b (chunk k) -> key b = k) ->
  filter (fun b => String.eqb (key b) x) (flat_map chunk ks)
  = flat_map chunk (filter (fun k => String.eqb k x) ks).
Proof.
  intros H. induction ks as [|k ks IH]; simpl; [reflexivity|].
  rewrite filter_app, IH, (filter_keyed_chunk key k x) by apply H.
  now destruct (String.eqb k x).
Qed.

Lemma funnelBreaks_funnelId crs cfg f b :
  In b (funnelBreaks crs cfg f) -> Break.funnelId b = f.
Proof.
  unfold funnelBreaks. intros H. apply in_flat_map in H.
  destruct H as [[fromS toS] [_ H]]. unfold detectBreaksInSeries in H.
  apply collect_In in H. destruct H as [point [_ H]].
  apply detectAt_inv in H. destruct H as (_ & _ & _ & _ & _ & ->). reflexivity.
Qed.

Lemma filter_idem {A} (p : A -> bool) (l : list A) :
  filter p (filter p l) = filter p l.
Proof. apply filter_all. intros x H. now apply filter_In in H. Qed.

Lemma rawBreaks_of_funnel crs cfg f :
  rawBreaks (filter (fun cr => String.eqb (ConversionRates.funnelId cr) f) crs) cfg
  = filter (ofFunnel f) (rawBreaks crs cfg).
Proof.
  set (mine := fun cr => String.eqb (ConversionRates.funnelId cr) f).
  change (rawBreaks (filter mine crs) cfg)
    with (flat_map (funnelBreaks (filter mine crs) cfg)
            (uniqueStrings [] (map ConversionRates.funnelId (filter mine crs)))).
  change (rawBreaks crs cfg)
    with (flat_map (funnelBreaks crs cfg)
            (uniqueStrings [] (map ConversionRates.funnelId crs))).
  unfold ofFunnel.
  rewrite (filter_flat_map_keyed Break.funnelId)
    by (intros k b; apply funnelBreaks_funnelId).
  rewrite filter_NoDup_eqb by apply uniqueStrings_NoDup.
  rewrite (uniqueStrings_constant f).
  2:{ apply Forall_forall. intros y Hy. apply in_map_iff in Hy.
      destruct Hy as (cr & <- & Hcr). apply filter_In in Hcr.
      now apply String.eqb_eq. }
  assert (Same : funnelBreaks (filter mine crs) cfg f = funnelBreaks crs cfg f).
  { unfold funnelBreaks. fold mine. now rewrite filter_idem. }
  destruct (existsb (String.eqb f) _) eqn:Ex.
  - apply existsb_eqb_In, uniqueStrings_In in Ex. destruct Ex as [Ex _].
    apply in_map_iff in Ex. destruct Ex as (cr & Ef & Hcr).
    assert (Hin : In cr (filter mine crs)).
    { apply filter_In. split; [assumption|]. now apply String.eqb_eq. }
    destruct (filter mine crs) as [|c l]; [destruct Hin|]. simpl.
    now rewrite Same.
  - destruct (filter mine crs) as [|c l] eqn:Ef; [reflexivity|]. exfalso.
    assert (Hc : In c (filter mine crs)) by (rewrite Ef; now left).
    apply filter_In in Hc. destruct Hc as [Hc Hm]. apply String.eqb_eq in Hm.
    assert (Hin : In f (uniqueStrings [] (map ConversionRates.funnelId crs))).
    { apply uniqueStrings_In. split; [|intros []]. rewrite <- Hm. now apply in_map. }
    apply existsb_eqb_In in Hin. congruence.
Qed.

Lemma withKey_of_funnel rep raw :
  withKey breakKey (breakKey rep) (filter (ofFunnel (Break.funnelId rep)) raw)
  = withKey breakKey (breakKey rep) raw.
Proof.
  rewrite !withKey_breakKey. induction raw as [|b raw IH]; simpl; [reflexivity|].
  destruct (sameGroupb rep b) eqn:E.
  - assert (Hf : ofFunnel (Break.funnelId rep) b = true).
    { unfold sameGroupb in E. apply andb_prop in E. destruct E as [E _].
      apply andb_prop in E. destruct E as [E _]. unfold ofFunnel.
      now rewrite String.eqb_sym. }
    rewrite Hf. simpl. rewrite E. now f_equal.
  - destruct (ofFunnel _ b); simpl; [rewrite E|]; exact IH.
Qed.

(** X26. Funnels are analysed independently: the breaks [detectBreaks]
    reports on the rates of one funnel alone are exactly the breaks of that
    funnel it reports on all the rates. What the other funnels hold neither
    adds a break to a funnel nor removes one. *)
Theorem funnels_are_analysed_independently crs config f brk :
  In brk (detectBreaks
            (filter (fun cr => String.eqb (ConversionRates.funnelId cr) f) crs) config)
  <-> In brk (detectBreaks crs config) /\ Break.funnelId brk = f.
Proof.
  unfold detectBreaks. rewrite rawBreaks_of_funnel.
  set (raw := rawBreaks crs (mergeBreakDetectorConfig config)).
  rewrite !deduplicate_In_iff. split.
  - intros (rep & Hrep & H). apply filter_In in Hrep. destruct Hrep as [Hrep Hf].
    apply String.eqb_eq in Hf. subst f. rewrite withKey_of_funnel in H. split.
    + eauto.
    + apply dedupGroup_In in H. rewrite withKey_breakKey in H.
      apply filter_In in H. destruct H as [_ H]. unfold sameGroupb in H.
      apply andb_prop in H. destruct H as [H _]. apply andb_prop in H.
      destruct H as [H _]. apply String.eqb_eq in H. now symmetry.
  - intros [(rep & Hrep & H) Hf]. exists rep.
    assert (Er : Break.funnelId rep = f).
    { pose proof (dedupGroup_In _ _ H) as Hb. rewrite withKey_breakKey in Hb.
      apply filter_In in Hb. destruct Hb as [_ Hb]. unfold sameGroupb in Hb.
      apply andb_prop in Hb. destruct Hb as [Hb _]. apply andb_prop in Hb.
      destruct Hb as [Hb _]. apply String.eqb_eq in Hb. congruence. }
    clear Hf. subst f. rewrite withKey_of_funnel. split; [|exact H].
    apply filter_In. split; [exact Hrep|]. unfold ofFunnel. apply String.eqb_refl.
Qed.

End EngineFacts.

(** * Facts about what could throw *)

Lemma traverse_map {A B} (f : A -> option B) (g : A -> B) (xs : list A) :
  (forall x, In x xs -> f x = Some (g x)) -> traverse f xs = Some (map g xs).
Proof.
  induction xs as [|x xs IH]; intros H; simpl; [reflexivity|].
  rewrite (H x) by now left. rewrite IH; [reflexivity|].
  intros y Hy. apply H. now right.
Qed.

Lemma get_set_same {V} (m : JsMap.t V) (k : string) (v : V) :
  JsMap.get (JsMap.set m k v) k = Some v.
Proof.
  induction m as [|[k' v'] m IH]; simpl.
  - now rewrite String.eqb_refl.
  - destruct (String.eqb k k') eqn:E; simpl; rewrite E; [reflexivity | exact IH].
Qed.

Lemma concat_flat_map_map {A B C} (f : A -> B -> list C) (ys : list B) (xs : list A) :
  List.concat (flat_map (fun x => map (f x) ys) xs)
  = flat_map (fun x => flat_map (f x) ys) xs.
Proof.
  induction xs as [|x xs IH]; simpl; [reflexivity|].
  rewrite List.concat_app, IH. f_equal. symmetry. apply flat_map_concat_map.
Qed.

Lemma collect_length {A B} (f : A -> option B) (xs : list A) :
  (List.length (collect f xs) <= List.length xs)%nat.
Proof.
  unfold collect. induction xs as [|x xs IH]; simpl; [lia|].
  rewrite length_app. destruct (f x); simpl; lia.
Qed.

Lemma filter_length_le' {A} (p : A -> bool) (l : list A) :
  (List.length (filter p l) <= List.length l)%nat.
Proof. induction l as [|x l IH]; simpl; [lia|]. destruct (p x); simpl; lia. Qed.

Section OutcomeFacts.
Context {host : Host} {runtime : Runtime}.
Local Open Scope float_scope.

Lemma addEventWatched_spec grouped event :
  addEventWatched grouped event = Some (addEvent grouped event).
Proof.
  unfold addEventWatched, addEvent.
  set (key := snapshotKey (Event.funnelId event) (Event.date event)).
  destruct (JsMap.has grouped key) eqn:H.
  - unfold JsMap.has in H. destruct (JsMap.get grouped key); [reflexivity | discriminate].
  - now rewrite get_set_same.
Qed.

Lemma addEventWatched_fold events : forall grouped,
  fold_left
    (fun grouped event =>
       match grouped with
       | None => None
       | Some grouped => addEventWatched grouped event
       end)
    events (Some grouped)
  = Some (fold_left addEvent events grouped).
Proof.
  induction events as [|e events IH]; intros grouped; simpl; [reflexivity|].
  rewrite addEventWatched_spec. apply IH.
Qed.

Lemma snapshotOfEntryWatched_spec funnelId date (counts : StageMap) :
  snapshotOfEntryWatched (snapshotKey funnelId date, counts)
  = Some (snapshotOfEntry (snapshotKey funnelId date, counts)).
Proof.
  unfold snapshotOfEntryWatched, snapshotOfEntry, snapshotKey. cbn [fst snd].
  change ("|" +++ date)%string with (String Str.pipe date).
  rewrite StrFacts.split_app_sep.
  pose proof (StrFacts.split_nonempty Str.pipe funnelId) as Hf.
  pose proof (StrFacts.split_nonempty Str.pipe date) as Hd.
  destruct (Str.split Str.pipe funnelId) as [|a [|b l]]; [congruence| |reflexivity].
  destruct (Str.split Str.pipe date) as [|c l]; [congruence | reflexivity].
Qed.

Lemma grouped_keys (events : list Event.t) entry :
  In entry (fold_left addEvent events JsMap.empty) ->
  exists funnelId date, fst entry = snapshotKey funnelId date.
Proof.
  change addEvent
    with (upsert (fun e => snapshotKey (Event.funnelId e) (Event.date e))
            emptyStageMap
            (fun (sc : StageMap) e =>
               stageMapSet sc (Event.stage e)
                 (orElse (sc (Event.stage e)) 0 + Event.count e))).
  rewrite fold_upsert. unfold tabulate. intros H. apply in_map_iff in H.
  destruct H as (k & <- & Hk). apply uniqueStrings_In in Hk. destruct Hk as [Hk _].
  apply in_map_iff in Hk. destruct Hk as (e & <- & _). cbn [fst]. eauto.
Qed.

Lemma buildSnapshotsWatched_spec (events : list Event.t) :
  buildSnapshotsWatched events = Some (buildSnapshots events).
Proof.
  unfold buildSnapshotsWatched, buildSnapshots. rewrite addEventWatched_fold.
  rewrite (traverse_map _ snapshotOfEntry); [reflexivity|].
  intros [key counts] H. apply grouped_keys in H. destruct H as (f & d & E).
  cbn [fst] in E. subst key. apply snapshotOfEntryWatched_spec.
Qed.

Lemma calculateConversionRatesWatched_spec (snapshots : list FunnelSnapshot.t) :
  calculateConversionRatesWatched snapshots = Some (calculateConversionRates snapshots).
Proof.
  unfold calculateConversionRatesWatched, calculateConversionRates.
  apply traverse_map. intros snapshot _. reflexivity.
Qed.

Lemma addToGroupWatched_spec groups brk :
  addToGroupWatched groups brk = Some (addToGroup groups brk).
Proof.
  unfold addToGroupWatched, addToGroup.
  destruct (JsMap.has groups (breakKey brk)) eqn:H.
  - unfold JsMap.has in H.
    destruct (JsMap.get groups (breakKey brk)); [reflexivity | discriminate].
  - now rewrite get_set_same.
Qed.

Lemma addToGroupWatched_fold breaks : forall groups,
  fold_left
    (fun groups brk =>
       match groups with
       | None => None
       | Some groups => addToGroupWatched groups brk
       end)
    breaks (Some groups)
  = Some (fold_left addToGroup breaks groups).
Proof.
  induction breaks as [|b breaks IH]; intros groups; simpl; [reflexivity|].
  rewrite addToGroupWatched_spec. apply IH.
Qed.

Lemma clusterLoopWatched_spec remaining : forall prev first rest,
  clusterLoopWatched prev (first :: rest) remaining
  = Some (clusterLoop prev first rest remaining).
Proof.
  induction remaining as [|curr remaining IH]; intros prev first rest; simpl;
    [reflexivity|].
  destruct (_ <=? 1).
  - apply (IH curr first (rest ++ [curr])).
  - now rewrite (IH curr curr []).
Qed.

Lemma dedupGroupWatched_spec group :
  group <> [] -> dedupGroupWatched group = Some (dedupGroup group).
Proof.
  intros H. unfold dedupGroupWatched, dedupGroup.
  destruct (sortByLocale Break.detectedDate group) as [|first remaining] eqn:E.
  - apply sortBy_nil_inv in E. contradiction.
  - apply clusterLoopWatched_spec.
Qed.

Lemma deduplicateWatched_spec breaks :
  deduplicateWatched breaks = Some (deduplicateConsecutiveBreaks breaks).
Proof.
  unfold deduplicateWatched, deduplicateConsecutiveBreaks.
  destruct breaks as [|b0 breaks0]; [reflexivity|].
  generalize (b0 :: breaks0). clear. intros breaks.
  rewrite addToGroupWatched_fold, groups_spec.
  rewrite (traverse_map _ (fun entry => dedupGroup (snd entry))).
  - cbv zeta. now rewrite flat_map_concat_map.
  - intros [k group] H. unfold tabulate in H. apply in_map_iff in H.
    destruct H as (k' & [= <- <-] & Hk). cbn [snd].
    apply dedupGroupWatched_spec.
    apply uniqueStrings_In in Hk. destruct Hk as [Hk _].
    apply in_map_iff in Hk. destruct Hk as (b & <- & Hb).
    intros E. assert (Hin : In b (withKey breakKey (breakKey b) breaks))
      by (apply withKey_In; tauto).
    rewrite E in Hin. destruct Hin.
Qed.

Lemma pushSpread_fold {A B} (F : B -> list A) (xs : list B) :
  forall start : Outcome (list A),
    fold_left
      (fun all x =>
         match all with
         | Thrown message => Thrown message
         | Returned all => pushSpread all (F x)
         end)
      xs start
    = match start with
      | Thrown message => Thrown message
      | Returned all =>
          if forallb fits (map F xs) then Returned (all ++ List.concat (map F xs))
          else Thrown rangeErrorMessage
      end.
Proof.
  induction xs as [|x xs IH]; intros start; simpl.
  - destruct start; [now rewrite app_nil_r | reflexivity].
  - rewrite IH. destruct start as [all|message]; [|reflexivity].
    unfold pushSpread. destruct (fits (F x)); simpl; [|reflexivity].
    now rewrite app_assoc.
Qed.

Lemma pushSpread_fold2 {A B C} (F : C -> B -> list A) (ys : list B) (xs : list C) :
  forall start : Outcome (list A),
    fold_left
      (fun all x =>
         fold_left
           (fun all y =>
              match all with
              | Thrown message => Thrown message
              | Returned all => pushSpread all (F x y)
              end)
           ys all)
      xs start
    = match start with
      | Thrown message => Thrown message
      | Returned all =>
          if forallb fits (flat_map (fun x => map (F x) ys) xs)
          then Returned (all ++ List.concat (flat_map (fun x => map (F x) ys) xs))
          else Thrown rangeErrorMessage
      end.
Proof.
  induction xs as [|x xs IH]; intros start; simpl.
  - destruct start; [now rewrite app_nil_r | reflexivity].
  - rewrite IH, pushSpread_fold. destruct start as [all|message]; [|reflexivity].
    rewrite forallb_app, List.concat_app.
    destruct (forallb fits (map (F x) ys)); simpl; [|reflexivity].
    now rewrite app_assoc.
Qed.

Lemma rawBreaks_concat conversionRates cfg :
  rawBreaks conversionRates cfg = List.concat (flagsBySeries conversionRates cfg).
Proof. unfold rawBreaks, flagsBySeries. now rewrite concat_flat_map_map. Qed.

Lemma detectBreaksOutcome_spec conversionRates config :
  detectBreaksOutcome conversionRates config
  = if forallb fits (flagsBySeries conversionRates (mergeBreakDetectorConfig config))
    then Returned (detectBreaks conversionRates config)
    else Thrown rangeErrorMessage.
Proof.
  unfold detectBreaksOutcome, detectBreaks. rewrite rawBreaks_concat.
  cbv zeta.
  rewrite (pushSpread_fold2
             (fun funnelId pair =>
                detectBreaksInSeries
                  (extractTimeSeries
                     (sortByLocale ConversionRates.date
                        (filter (fun cr => String.eqb (ConversionRates.funnelId cr) funnelId)
                                conversionRates))
                     (fst pair) (snd pair))
                  funnelId (fst pair) (snd pair) (mergeBreakDetectorConfig config))).
  fold (flagsBySeries conversionRates (mergeBreakDetectorConfig config)).
  destruct (forallb fits _); [|reflexivity].
  now rewrite app_nil_l, deduplicateWatched_spec.
Qed.

Lemma flagsBySeries_length conversionRates cfg :
  Forall (fun breaks => (List.length breaks <= List.length conversionRates)%nat)
         (flagsBySeries conversionRates cfg).
Proof.
  apply Forall_forall. intros breaks H. unfold flagsBySeries in H.
  apply in_flat_map in H. destruct H as (funnelId & _ & H).
  apply in_map_iff in H. destruct H as (pair & <- & _).
  unfold detectBreaksInSeries.
  etransitivity; [apply collect_length|].
  rewrite extractTimeSeries_length. unfold sortByLocale. rewrite sortBy_length.
  apply filter_length_le'.
Qed.

Lemma detectBreaksOutcome_small conversionRates config :
  (N.of_nat (List.length conversionRates) <= argumentLimit)%N ->
  detectBreaksOutcome conversionRates config
  = Returned (detectBreaks conversionRates config).
Proof.
  intros H. rewrite detectBreaksOutcome_spec.
  rewrite (proj2 (forallb_forall _ _)); [reflexivity|].
  intros breaks Hb.
  pose proof (flagsBySeries_length conversionRates (mergeBreakDetectorConfig config)) as Hl.
  rewrite Forall_forall in Hl. specialize (Hl breaks Hb).
  unfold fits. apply N.leb_le. lia.
Qed.

Lemma detectBreaksOutcome_returned conversionRates config breaks :
  detectBreaksOutcome conversionRates config = Returned breaks ->
  breaks = detectBreaks conversionRates config.
Proof.
  rewrite detectBreaksOutcome_spec. destruct (forallb fits _); congruence.
Qed.

End OutcomeFacts.

(** ** Two hosts *)

Lemma sortBy_ext {A} (f g : A -> A -> bool) (l : list A) :
  (forall a b, f a b = g a b) -> sortBy f l = sortBy g l.
Proof.
  intros H. unfold sortBy. induction l as [|x l IH]; simpl; [reflexivity|].
  rewrite IH. generalize (fold_right (insertSorted g) [] l). intros s.
  induction s as [|y s IHs]; simpl; [reflexivity|]. now rewrite H, IHs.
Qed.

Section TwoHosts.
Variables host host' : Host.
Hypothesis collation : sameCollation host host'.

Lemma sortByLocale_hosts {A} (field : A -> string) (l : list A) :
  @sortByLocale host A field l = @sortByLocale host' A field l.
Proof. apply sortBy_ext. intros a b. now rewrite collation. Qed.

Lemma buildSnapshots_hosts (events : list Event.t) :
  @buildSnapshots host events = @buildSnapshots host' events.
Proof.
  unfold buildSnapshots. apply sortBy_ext. intros a b.
  unfold compareSnapshots. now rewrite !collation.
Qed.

Lemma extractTimeSeries_hosts crs fromS toS :
  @extractTimeSeries host crs fromS toS = @extractTimeSeries host' crs fromS toS.
Proof. apply sortByLocale_hosts. Qed.

Hypothesis calendar : sameCalendar host host'.

Lemma daysDiff_hosts a b : @daysDiff host a b = @daysDiff host' a b.
Proof. apply calendar. Qed.

Lemma detectAt_hosts ts fid fromS toS cfg point :
  @detectAt host ts fid fromS toS cfg point = @detectAt host' ts fid fromS toS cfg point.
Proof.
  unfold detectAt.
  assert (Hc : filter (@inCurrentWindow host cfg (RateDataPoint.date point)) ts
               = filter (@inCurrentWindow host' cfg (RateDataPoint.date point)) ts).
  { apply filter_ext. intros dp. unfold inCurrentWindow. now rewrite daysDiff_hosts. }
  assert (Hb : filter (@inBaselineWindow host cfg (RateDataPoint.date point)) ts
               = filter (@inBaselineWindow host' cfg (RateDataPoint.date point)) ts).
  { apply filter_ext. intros dp. unfold inBaselineWindow. now rewrite daysDiff_hosts. }
  now rewrite Hc, Hb.
Qed.

Lemma clusterLoop_hosts remaining : forall prev first rest,
  @clusterLoop host prev first rest remaining
  = @clusterLoop host' prev first rest remaining.
Proof.
  induction remaining as [|curr remaining IH]; intros prev first rest; simpl;
    [reflexivity|].
  now rewrite daysDiff_hosts, !IH.
Qed.

Lemma deduplicate_hosts breaks :
  @deduplicateConsecutiveBreaks host breaks
  = @deduplicateConsecutiveBreaks host' breaks.
Proof.
  unfold deduplicateConsecutiveBreaks. destruct breaks as [|b breaks]; [reflexivity|].
  cbv zeta. rewrite sortByLocale_hosts. f_equal.
  apply flat_map_ext. intros entry. unfold dedupGroup.
  rewrite sortByLocale_hosts.
  destruct (@sortByLocale host' _ _ _); [reflexivity | apply clusterLoop_hosts].
Qed.

Lemma flagsBySeries_hosts crs cfg :
  @flagsBySeries host crs cfg = @flagsBySeries host' crs cfg.
Proof.
  unfold flagsBySeries. apply flat_map_ext. intros funnelId.
  apply map_ext. intros pair. unfold detectBreaksInSeries.
  rewrite sortByLocale_hosts, extractTimeSeries_hosts.
  unfold collect. apply flat_map_ext. intros point. now rewrite detectAt_hosts.
Qed.

Lemma detectBreaks_hosts crs config :
  @detectBreaks host crs config = @detectBreaks host' crs config.
Proof.
  unfold detectBreaks. rewrite !rawBreaks_concat.
  now rewrite flagsBySeries_hosts, deduplicate_hosts.
Qed.

Lemma detectBreaksOutcome_hosts (runtime : Runtime) crs config :
  @detectBreaksOutcome host runtime crs config
  = @detectBreaksOutcome host' runtime crs config.
Proof.
  now rewrite !detectBreaksOutcome_spec, flagsBySeries_hosts, detectBreaks_hosts.
Qed.

End TwoHosts.

Section TwoHostsCauses.
Variables host host' : Host.
Hypothesis calendar : sameCalendar host host'.
Hypothesis arithmetic : sameArithmetic host host'.

Lemma scoreCandidate_hosts change brk cfg :
  @scoreCandidate host change brk cfg = @scoreCandidate host' change brk cfg.
Proof.
  unfold scoreCandidate, calcTemporalScore, daysDiff.
  now rewrite calendar, (proj1 arithmetic).
Qed.

Lemma rankedCauses_hosts brk changes cfg :
  @rankedCauses host brk changes cfg = @rankedCauses host' brk changes cfg.
Proof.
  unfold rankedCauses, survivingCandidates. f_equal. f_equal.
  assert (E : filter (@isCandidateChange host brk cfg) changes
              = filter (@isCandidateChange host' brk cfg) changes).
  { apply filter_ext. intros change. unfold isCandidateChange, daysDiff.
    now rewrite calendar. }
  rewrite E. apply map_ext. intros change. apply scoreCandidate_hosts.
Qed.

Lemma generateSummary_hosts brk causes status :
  @generateSummary host brk causes status = @generateSummary host' brk causes status.
Proof.
  unfold generateSummary. rewrite (proj2 arithmetic).
  destruct status, causes as [|topCause rest]; try reflexivity;
    now rewrite (proj2 arithmetic).
Qed.

Lemma diagnoseAll_hosts breaks changes cfg : forall clock,
  @diagnoseAll host breaks changes cfg clock
  = @diagnoseAll host' breaks changes cfg clock.
Proof.
  induction breaks as [|brk breaks IH]; intros clock; simpl; [reflexivity|].
  unfold diagnoseBreak. rewrite rankedCauses_hosts, generateSummary_hosts.
  destruct (@generateSummary host' _ _ _); [|reflexivity]. cbn [now]. now rewrite IH.
Qed.

Lemma analyzeCauses_hosts breaks changes config clock :
  @analyzeCauses host breaks changes config clock
  = @analyzeCauses host' breaks changes config clock.
Proof. apply diagnoseAll_hosts. Qed.

End TwoHostsCauses.

(** ** The four core functions *)

Section CoreFunctions.
Context {host : Host} {runtime : Runtime}.

(** C9, as the code has it. [buildSnapshots] and
    [calculateConversionRates] return for every input: no access they make
    is undefined. [detectBreaks] returns unless one series raises more
    flags than a call takes arguments, in which case
    [allBreaks.push(...breaks)] throws a RangeError; it throws nothing
    else, the lookups of its deduplication being never undefined, and it
    returns whenever the input has no more entries than a call takes
    arguments. These three read no clock:
    two runs on equal inputs and configuration give equal results, on any
    two hosts that compare strings alike and, for [detectBreaks], count
    days alike. [analyzeCauses] returns under any clock; two runs on the
    same breaks, changes and configuration, on hosts that count days and
    compute [Math.exp] and [toFixed] alike, produce diagnoses that agree in
    every field except [generatedAt], which holds the successive readings
    of the clock; when the clocks read the same, the two results are
    equal. *)
Theorem core_functions_up_to_clock_and_argument_limit
    (events : list Event.t) (snapshots : list FunnelSnapshot.t)
    (conversionRates : list ConversionRates.t)
    (detectorConfig : option BreakDetectorConfig.partial)
    (breaks : list Break.t) (changes : list Change.t)
    (config : option CauseAnalyzerConfig.partial) (clock1 clock2 : Clock) :
  (buildSnapshotsWatched events = Some (buildSnapshots events)
   /\ forall host',
        sameCollation host host' ->
        @buildSnapshots host' events = @buildSnapshots host events)
  /\ calculateConversionRatesWatched snapshots
     = Some (calculateConversionRates snapshots)
  /\ (detectBreaksOutcome conversionRates detectorConfig
      = (if forallb fits
              (flagsBySeries conversionRates
                 (mergeBreakDetectorConfig detectorConfig))
         then Returned (detectBreaks conversionRates detectorConfig)
         else Thrown rangeErrorMessage)
      /\ ((N.of_nat (List.length conversionRates) <= argumentLimit)%N ->
          detectBreaksOutcome conversionRates detectorConfig
          = Returned (detectBreaks conversionRates detectorConfig))
      /\ forall host',
           sameCollation host host' -> sameCalendar host host' ->
           @detectBreaksOutcome host' runtime conversionRates detectorConfig
           = @detectBreaksOutcome host runtime conversionRates detectorConfig)
  /\ forall host',
       sameCalendar host host' -> sameArithmetic host host' ->
       exists ds1 ds2 rest1 rest2,
         @analyzeCauses host breaks changes config clock1 = Some (ds1, rest1)
         /\ @analyzeCauses host' breaks changes config clock2 = Some (ds2, rest2)
         /\ map withoutTimestamp ds1 = map withoutTimestamp ds2
         /\ map Diagnosis.generatedAt ds1 = map clock1 (seq 0 (List.length breaks))
         /\ map Diagnosis.generatedAt ds2 = map clock2 (seq 0 (List.length breaks))
         /\ ((forall n, (n < List.length breaks)%nat -> clock1 n = clock2 n) ->
             ds1 = ds2).
Proof.
  split; [split|split; [|split; [split; [|split]|]]].
  - apply buildSnapshotsWatched_spec.
  - intros host' Hc. symmetry. now apply buildSnapshots_hosts.
  - apply calculateConversionRatesWatched_spec.
  - apply detectBreaksOutcome_spec.
  - apply detectBreaksOutcome_small.
  - intros host' Hc Hd. symmetry. now apply detectBreaksOutcome_hosts.
  - intros host' Hd Ha.
    rewrite <- (analyzeCauses_hosts host host' Hd Ha breaks changes config clock2).
    destruct (@analyzeCauses_spec host breaks changes config clock1)
      as (ds1 & rest1 & Hrun1 & _ & Ht1 & _).
    destruct (@analyzeCauses_spec host breaks changes config clock2)
      as (ds2 & rest2 & Hrun2 & _ & Ht2 & _).
    exists ds1, ds2, rest1, rest2.
    assert (He : map withoutTimestamp ds1 = map withoutTimestamp ds2)
      by (eapply (@diagnoseAll_erased host); eassumption).
    do 5 (split; [assumption|]).
    intros Hc. apply map_withoutTimestamp_inj; [assumption|].
    rewrite Ht1, Ht2. apply map_ext_in. intros n Hn. apply in_seq in Hn.
    apply Hc. lia.
Qed.

End CoreFunctions.

(** * Facts about the loaders and the service *)

(** ** Arrays with their indices *)

Lemma combine_seq_app {A} (l l' : list A) (n : nat) :
  combine (seq n (List.length (l ++ l'))) (l ++ l')
  = combine (seq n (List.length l)) l
    ++ combine (seq (n + List.length l) (List.length l')) l'.
Proof.
  revert n. induction l as [|x l IH]; intros n; simpl.
  - now rewrite Nat.add_0_r.
  - f_equal. rewrite IH. now rewrite Nat.add_succ_r.
Qed.

Lemma combine_seq_shift {A} (l : list A) (n k : nat) :
  combine (seq (k + n) (List.length l)) l
  = map (fun entry => (k + fst entry, snd entry)%nat)
        (combine (seq n (List.length l)) l).
Proof.
  revert n. induction l as [|x l IH]; intros n; simpl; [reflexivity|].
  f_equal. rewrite <- Nat.add_succ_r. apply IH.
Qed.

Lemma indexed_app {A} (l l' : list A) :
  indexed (l ++ l')
  = indexed l
    ++ map (fun entry => (List.length l + fst entry, snd entry)%nat) (indexed l').
Proof.
  unfold indexed. rewrite combine_seq_app. f_equal. simpl.
  rewrite <- combine_seq_shift. now rewrite Nat.add_0_r.
Qed.

Lemma indexed_In {A} (l : list A) (i : nat) (x : A) :
  In (i, x) (indexed l) <-> nth_error l i = Some x.
Proof.
  induction l as [|y l IH] using rev_ind.
  - simpl. destruct i; split; try tauto; discriminate.
  - rewrite indexed_app, in_app_iff, IH. simpl. rewrite Nat.add_0_r.
    destruct (Nat.lt_ge_cases i (List.length l)) as [Hlt|Hge].
    + rewrite nth_error_app1 by assumption. split; [|tauto].
      intros [H|[H|[]]]; [assumption|]. injection H as <- <-. lia.
    + rewrite nth_error_app2 by assumption. split.
      * intros [H|[H|[]]].
        -- apply nth_error_None in Hge. congruence.
        -- injection H as <- <-. now rewrite Nat.sub_diag.
      * intros H. right. left.
        destruct (i - List.length l)%nat as [|k] eqn:E; simpl in H.
        -- injection H as <-. f_equal. lia.
        -- destruct k; discriminate.
Qed.

Lemma indexed_length {A} (l : list A) : List.length (indexed l) = List.length l.
Proof. unfold indexed. rewrite length_combine, length_seq. lia. Qed.

(** A loop that pushes each element of an indexed array either to the
    rejected or to the kept. *)
Section Sieve.
Variables R E V : Type.
Variable f : nat * R -> E + V.
Variable line : E -> nat.
Hypothesis line_of : forall i x e, f (i, x) = inl e -> line e = (i + 2)%nat.

Lemma sieve_length (entries : list (nat * R)) :
  (List.length (flat_map (fun entry => keptOf (f entry)) entries)
   + List.length (flat_map (fun entry => rejectedOf (f entry)) entries)
   = List.length entries)%nat.
Proof.
  induction entries as [|entry entries IH]; simpl; [reflexivity|].
  rewrite !length_app. destruct (f entry); simpl; lia.
Qed.

Lemma sieve_lines (l : list R) : forall n,
  StronglySorted lt
    (map line (flat_map (fun entry => rejectedOf (f entry))
                 (combine (seq n (List.length l)) l)))
  /\ Forall (fun e => n + 2 <= line e < n + 2 + List.length l)%nat
       (flat_map (fun entry => rejectedOf (f entry))
          (combine (seq n (List.length l)) l)).
Proof.
  induction l as [|x l IH]; intros n; simpl; [split; constructor|].
  destruct (IH (S n)) as [Hs Hb].
  assert (Hb' : Forall (fun e => n + 2 <= line e < n + 2 + S (List.length l))%nat
                  (flat_map (fun entry => rejectedOf (f entry))
                     (combine (seq (S n) (List.length l)) l))).
  { eapply Forall_impl; [|exact Hb]. simpl. intros e. lia. }
  destruct (f (n, x)) as [e|v] eqn:Hf; simpl; [|split; assumption].
  pose proof (line_of _ _ _ Hf) as He. split.
  - constructor; [assumption|]. rewrite Forall_map.
    eapply Forall_impl; [|exact Hb]. simpl. intros e'. lia.
  - constructor; [lia | assumption].
Qed.

Lemma sieve_kept_In (l : list R) (v : V) :
  In v (flat_map (fun entry => keptOf (f entry)) (indexed l))
  <-> exists i x, nth_error l i = Some x /\ f (i, x) = inr v.
Proof.
  rewrite in_flat_map. split.
  - intros ([i x] & Hin & Hv). apply indexed_In in Hin. exists i, x.
    split; [assumption|]. destruct (f (i, x)); simpl in Hv; [tauto|].
    destruct Hv as [->|[]]. reflexivity.
  - intros (i & x & Hn & Hf). exists (i, x). split; [now apply indexed_In|].
    rewrite Hf. now left.
Qed.

Lemma sieve_rejected_In (l : list R) (e : E) :
  In e (flat_map (fun entry => rejectedOf (f entry)) (indexed l))
  <-> exists i x, nth_error l i = Some x /\ f (i, x) = inl e.
Proof.
  rewrite in_flat_map. split.
  - intros ([i x] & Hin & Hv). apply indexed_In in Hin. exists i, x.
    split; [assumption|]. destruct (f (i, x)); simpl in Hv; [|tauto].
    destruct Hv as [->|[]]. reflexivity.
  - intros (i & x & Hn & Hf). exists (i, x). split; [now apply indexed_In|].
    rewrite Hf. now left.
Qed.

End Sieve.

(** ** The loaders *)

Section LoaderFacts.
Context {platform : Platform}.
Local Open Scope float_scope.

Lemma loadEventRecords_fold (entries : list (nat * Row)) (result : EventLoaderResult.t) :
  fold_left
    (fun result entry =>
       match loadEventRow (fst entry + 2) (snd entry) with
       | inl error =>
           EventLoaderResult.mk (EventLoaderResult.events result)
             (EventLoaderResult.errors result ++ [error])
       | inr event =>
           EventLoaderResult.mk (EventLoaderResult.events result ++ [event])
             (EventLoaderResult.errors result)
       end)
    entries result
  = EventLoaderResult.mk
      (EventLoaderResult.events result
       ++ flat_map (fun entry => keptOf (loadEventRow (fst entry + 2) (snd entry)))
            entries)
      (EventLoaderResult.errors result
       ++ flat_map (fun entry => rejectedOf (loadEventRow (fst entry + 2) (snd entry)))
            entries).
Proof.
  revert result. induction entries as [|entry entries IH]; intros result; simpl.
  - rewrite !app_nil_r. now destruct result.
  - rewrite IH. destruct (loadEventRow _ _); simpl; now rewrite <- ?app_assoc.
Qed.

Lemma loadEventRecords_spec (records : list Row) :
  loadEventRecords records
  = EventLoaderResult.mk
      (flat_map (fun entry => keptOf (loadEventRow (fst entry + 2) (snd entry)))
         (indexed records))
      (flat_map (fun entry => rejectedOf (loadEventRow (fst entry + 2) (snd entry)))
         (indexed records)).
Proof. unfold loadEventRecords. now rewrite loadEventRecords_fold. Qed.

Lemma loadEventRow_line lineNum row error :
  loadEventRow lineNum row = inl error -> LoaderError.line error = lineNum.
Proof.
  unfold loadEventRow.
  destruct (JsMap.get row "date") as [date|]; [|intros [= <-]; reflexivity].
  destruct (JsMap.get row "funnel_id") as [funnel_id|]; [|intros [= <-]; reflexivity].
  destruct (JsMap.get row "stage") as [stageField|]; [|intros [= <-]; reflexivity].
  destruct (JsMap.get row "count") as [countField|]; [|intros [= <-]; reflexivity].
  destruct (_ || _); [intros [= <-]; reflexivity|].
  destruct (negb _); [intros [= <-]; reflexivity|].
  destruct (stageOfToken _); [|intros [= <-]; reflexivity].
  destruct (_ || _); [intros [= <-]; reflexivity | discriminate].
Qed.

Lemma stageOfToken_Some s stage :
  stageOfToken s = Some stage -> stageToken stage = s.
Proof.
  unfold stageOfToken. intros H. apply find_some in H.
  destruct H as [_ H]. now apply String.eqb_eq.
Qed.

Lemma truthy_Some s : truthy (Some s) = true <-> s <> EmptyString.
Proof. destruct s; simpl; split; congruence. Qed.

Lemma orUndefined_not_empty v : orUndefined v <> Some EmptyString.
Proof. unfold orUndefined. destruct v as [[|c s]|]; simpl; congruence. Qed.

(** What the loop establishes before it pushes an event. *)
Lemma loadEventRow_inv lineNum row event :
  loadEventRow lineNum row = inr event ->
  exists date funnel_id stageField countField,
    JsMap.get row "date" = Some date
    /\ JsMap.get row "funnel_id" = Some funnel_id
    /\ JsMap.get row "stage" = Some stageField
    /\ JsMap.get row "count" = Some countField
    /\ date <> EmptyString /\ funnel_id <> EmptyString
    /\ stageField <> EmptyString
    /\ isoDatePattern date = true
    /\ exists stage,
         stageOfToken (toLowerCase stageField) = Some stage
         /\ is_nan (parseInt countField 10) = false
         /\ (parseInt countField 10 <? 0) = false
         /\ event = Event.mk None date funnel_id stage (parseInt countField 10)
                      (orUndefined (JsMap.get row "source")).
Proof.
  unfold loadEventRow.
  destruct (JsMap.get row "date") as [date|]; [|discriminate].
  destruct (JsMap.get row "funnel_id") as [funnel_id|]; [|discriminate].
  destruct (JsMap.get row "stage") as [stageField|]; [|discriminate].
  destruct (JsMap.get row "count") as [countField|]; [|discriminate].
  destruct (negb (truthy (Some date)) || negb (truthy (Some funnel_id))
            || negb (truthy (Some stageField))) eqn:E1; [discriminate|].
  apply orb_false_elim in E1. destruct E1 as [E1 E3].
  apply orb_false_elim in E1. destruct E1 as [E1 E2].
  apply negb_false_iff, truthy_Some in E1, E2, E3.
  destruct (negb (isoDatePattern date)) eqn:E4; [discriminate|].
  apply negb_false_iff in E4.
  destruct (stageOfToken (toLowerCase stageField)) as [stage|] eqn:E5;
    [|discriminate].
  destruct (is_nan (parseInt countField 10) || (parseInt countField 10 <? 0)) eqn:E6;
    [discriminate|].
  apply orb_false_elim in E6. destruct E6 as [E6 E7].
  intros [= <-]. exists date, funnel_id, stageField, countField.
  repeat (split; [assumption || reflexivity|]).
  exists stage. repeat split; assumption.
Qed.

(** X13. The loop of [loadEventsFromCsv] accounts for every record: each
    record gives either one event or one error, so the events and the
    errors together are as many as the records; the error of the record of
    index [i] carries the line number [i + 2] (the header is line 1), and
    the errors come in ascending order of line. *)
Theorem loadEventRecords_accounts_for_every_record (records : list Row) :
  let result := loadEventRecords records in
  (List.length (EventLoaderResult.events result)
   + List.length (EventLoaderResult.errors result) = List.length records)%nat
  /\ StronglySorted lt (map LoaderError.line (EventLoaderResult.errors result))
  /\ Forall
       (fun error =>
          exists i row,
            nth_error records i = Some row
            /\ LoaderError.line error = (i + 2)%nat
            /\ loadEventRow (i + 2) row = inl error)
       (EventLoaderResult.errors result)
  /\ Forall
       (fun event =>
          exists i row,
            nth_error records i = Some row
            /\ loadEventRow (i + 2) row = inr event)
       (EventLoaderResult.events result).
Proof.
  cbv zeta. rewrite loadEventRecords_spec.
  cbn [EventLoaderResult.events EventLoaderResult.errors].
  set (f := fun entry : nat * Row => loadEventRow (fst entry + 2) (snd entry)).
  assert (Hline : forall i x e, f (i, x) = inl e -> LoaderError.line e = (i + 2)%nat).
  { intros i x e H. apply loadEventRow_line in H. exact H. }
  split; [|split; [|split]].
  - rewrite (sieve_length _ _ _ f), indexed_length. reflexivity.
  - apply (sieve_lines _ _ _ f LoaderError.line Hline records 0).
  - apply Forall_forall. intros error H.
    apply (sieve_rejected_In _ _ _ f) in H. destruct H as (i & row & Hn & Hf).
    exists i, row. split; [assumption|]. split; [|exact Hf].
    now apply (Hline i row).
  - apply Forall_forall. intros event H.
    apply (sieve_kept_In _ _ _ f) in H. destruct H as (i & row & Hn & Hf).
    exists i, row. split; assumption.
Qed.

(** X14. Every event [loadEventsFromCsv] returns is valid: its [id] is
    unset, its date has the form [dddd-dd-dd], its funnel id is the
    [funnel_id] field as written and is not empty, its stage is the
    lower-cased [stage] field, its count is [parseInt] of the [count] field
    and is a number not below zero, and its source is never the empty
    string. *)
Theorem loaded_events_are_valid (records : list Row) :
  Forall
    (fun event =>
       Event.id event = None
       /\ isoDatePattern (Event.date event) = true
       /\ Event.funnelId event <> EmptyString
       /\ (0 <=? Event.count event) = true
       /\ Event.source event <> Some EmptyString
       /\ exists row stageField countField,
            In row records
            /\ JsMap.get row "date" = Some (Event.date event)
            /\ JsMap.get row "funnel_id" = Some (Event.funnelId event)
            /\ JsMap.get row "stage" = Some stageField
            /\ toLowerCase stageField = stageToken (Event.stage event)
            /\ JsMap.get row "count" = Some countField
            /\ parseInt countField 10 = Event.count event)
    (EventLoaderResult.events (loadEventRecords records)).
Proof.
  rewrite loadEventRecords_spec. cbn [EventLoaderResult.events].
  apply Forall_forall. intros event H.
  apply (sieve_kept_In _ _ _
           (fun entry : nat * Row => loadEventRow (fst entry + 2) (snd entry))) in H.
  destruct H as (i & row & Hn & Hf). cbn [fst snd] in Hf.
  apply loadEventRow_inv in Hf.
  destruct Hf as (date & funnel_id & stageField & countField & Hd & Hf & Hs & Hc
                  & Nd & Nf & Ns & Hiso & stage & Hst & Hnan & Hneg & ->).
  cbn [Event.id Event.date Event.funnelId Event.count Event.source Event.stage].
  split; [reflexivity|]. split; [assumption|]. split; [assumption|].
  split; [|split; [apply orUndefined_not_empty|]].
  - apply FloatFacts.not_ltb_geb; [now apply is_nan_false | reflexivity | assumption].
  - exists row, stageField, countField. apply nth_error_In in Hn.
    apply stageOfToken_Some in Hst. repeat split; auto.
Qed.

Lemma loadChangeRecords_fold (entries : list (nat * Row)) (result : ChangeLoaderResult.t) :
  fold_left
    (fun result entry =>
       match loadChangeRow (fst entry + 2) (snd entry) with
       | inl error =>
           ChangeLoaderResult.mk (ChangeLoaderResult.changes result)
             (ChangeLoaderResult.errors result ++ [error])
       | inr change =>
           ChangeLoaderResult.mk (ChangeLoaderResult.changes result ++ [change])
             (ChangeLoaderResult.errors result)
       end)
    entries result
  = ChangeLoaderResult.mk
      (ChangeLoaderResult.changes result
       ++ flat_map (fun entry => keptOf (loadChangeRow (fst entry + 2) (snd entry)))
            entries)
      (ChangeLoaderResult.errors result
       ++ flat_map (fun entry => rejectedOf (loadChangeRow (fst entry + 2) (snd entry)))
            entries).
Proof.
  revert result. induction entries as [|entry entries IH]; intros result; simpl.
  - rewrite !app_nil_r. now destruct result.
  - rewrite IH. destruct (loadChangeRow _ _); simpl; now rewrite <- ?app_assoc.
Qed.

Lemma loadChangeRecords_spec (records : list Row) :
  loadChangeRecords records
  = ChangeLoaderResult.mk
      (flat_map (fun entry => keptOf (loadChangeRow (fst entry + 2) (snd entry)))
         (indexed records))
      (flat_map (fun entry => rejectedOf (loadChangeRow (fst entry + 2) (snd entry)))
         (indexed records)).
Proof. unfold loadChangeRecords. now rewrite loadChangeRecords_fold. Qed.

Lemma loadChangeRow_line lineNum row error :
  loadChangeRow lineNum row = inl error -> LoaderError.line error = lineNum.
Proof.
  unfold loadChangeRow.
  destruct (JsMap.get row "date") as [date|]; [|intros [= <-]; reflexivity].
  destruct (JsMap.get row "funnel_id") as [funnel_id|]; [|intros [= <-]; reflexivity].
  destruct (JsMap.get row "category") as [categoryField|]; [|intros [= <-]; reflexivity].
  destruct (JsMap.get row "description") as [description|]; [|intros [= <-]; reflexivity].
  destruct (JsMap.get row "severity") as [severityField|]; [|intros [= <-]; reflexivity].
  destruct (_ || _); [intros [= <-]; reflexivity|].
  destruct (negb _); [intros [= <-]; reflexivity|].
  destruct (categoryOfToken _); [|intros [= <-]; reflexivity].
  destruct (_ || _); [intros [= <-]; reflexivity | discriminate].
Qed.

Lemma categoryOfToken_Some s category :
  categoryOfToken s = Some category -> categoryToken category = s.
Proof.
  unfold categoryOfToken. intros H. apply find_some in H.
  destruct H as [_ H]. now apply String.eqb_eq.
Qed.

(** What the loop establishes before it pushes a change. *)
Lemma loadChangeRow_inv lineNum row change :
  loadChangeRow lineNum row = inr change ->
  exists date funnel_id categoryField description severityField,
    JsMap.get row "date" = Some date
    /\ JsMap.get row "funnel_id" = Some funnel_id
    /\ JsMap.get row "category" = Some categoryField
    /\ JsMap.get row "description" = Some description
    /\ JsMap.get row "severity" = Some severityField
    /\ date <> EmptyString /\ funnel_id <> EmptyString
    /\ categoryField <> EmptyString /\ description <> EmptyString
    /\ isoDatePattern date = true
    /\ exists category,
         categoryOfToken (toLowerCase categoryField) = Some category
         /\ is_nan (parseInt severityField 10) = false
         /\ (parseInt severityField 10 <? 1) = false
         /\ (5 <? parseInt severityField 10) = false
         /\ change
            = Change.mk None date funnel_id category description
                (parseInt severityField 10)
                (if truthy (JsMap.get row "affected_stages")
                 then option_map parseAffectedStages (JsMap.get row "affected_stages")
                 else None).
Proof.
  unfold loadChangeRow.
  destruct (JsMap.get row "date") as [date|]; [|discriminate].
  destruct (JsMap.get row "funnel_id") as [funnel_id|]; [|discriminate].
  destruct (JsMap.get row "category") as [categoryField|]; [|discriminate].
  destruct (JsMap.get row "description") as [description|]; [|discriminate].
  destruct (JsMap.get row "severity") as [severityField|]; [|discriminate].
  destruct (negb (truthy (Some date)) || negb (truthy (Some funnel_id))
            || negb (truthy (Some categoryField))
            || negb (truthy (Some description))) eqn:E1; [discriminate|].
  apply orb_false_elim in E1. destruct E1 as [E1 E4].
  apply orb_false_elim in E1. destruct E1 as [E1 E3].
  apply orb_false_elim in E1. destruct E1 as [E1 E2].
  apply negb_false_iff, truthy_Some in E1, E2, E3, E4.
  destruct (negb (isoDatePattern date)) eqn:E5; [discriminate|].
  apply negb_false_iff in E5.
  destruct (categoryOfToken (toLowerCase categoryField)) as [category|] eqn:E6;
    [|discriminate].
  destruct (is_nan (parseInt severityField 10) || (parseInt severityField 10 <? 1)
            || (5 <? parseInt severityField 10)) eqn:E7; [discriminate|].
  apply orb_false_elim in E7. destruct E7 as [E7 E9].
  apply orb_false_elim in E7. destruct E7 as [E7 E8].
  intros [= <-]. exists date, funnel_id, categoryField, description, severityField.
  repeat (split; [assumption || reflexivity|]).
  exists category. repeat split; assumption.
Qed.

(** X15. The loop of [loadChangesFromCsv] accounts for every record: each
    record gives either one change or one error, the error of the record of
    index [i] carries the line number [i + 2], and the errors come in
    ascending order of line. *)
Theorem loadChangeRecords_accounts_for_every_record (records : list Row) :
  let result := loadChangeRecords records in
  (List.length (ChangeLoaderResult.changes result)
   + List.length (ChangeLoaderResult.errors result) = List.length records)%nat
  /\ StronglySorted lt (map LoaderError.line (ChangeLoaderResult.errors result))
  /\ Forall
       (fun error =>
          exists i row,
            nth_error records i = Some row
            /\ LoaderError.line error = (i + 2)%nat
            /\ loadChangeRow (i + 2) row = inl error)
       (ChangeLoaderResult.errors result)
  /\ Forall
       (fun change =>
          exists i row,
            nth_error records i = Some row
            /\ loadChangeRow (i + 2) row = inr change)
       (ChangeLoaderResult.changes result).
Proof.
  cbv zeta. rewrite loadChangeRecords_spec.
  cbn [ChangeLoaderResult.changes ChangeLoaderResult.errors].
  set (f := fun entry : nat * Row => loadChangeRow (fst entry + 2) (snd entry)).
  assert (Hline : forall i x e, f (i, x) = inl e -> LoaderError.line e = (i + 2)%nat).
  { intros i x e H. apply loadChangeRow_line in H. exact H. }
  split; [|split; [|split]].
  - rewrite (sieve_length _ _ _ f), indexed_length. reflexivity.
  - apply (sieve_lines _ _ _ f LoaderError.line Hline records 0).
  - apply Forall_forall. intros error H.
    apply (sieve_rejected_In _ _ _ f) in H. destruct H as (i & row & Hn & Hf).
    exists i, row. split; [assumption|]. split; [|exact Hf].
    now apply (Hline i row).
  - apply Forall_forall. intros change H.
    apply (sieve_kept_In _ _ _ f) in H. destruct H as (i & row & Hn & Hf).
    exists i, row. split; assumption.
Qed.

(** X16. Every change [loadChangesFromCsv] returns is valid: its [id] is
    unset, its date has the form [dddd-dd-dd], its funnel id and its
    description are the fields as written and are not empty, its category
    is the lower-cased [category] field, its severity is [parseInt] of the
    [severity] field and lies between 1 and 5, and its affected stages, when
    given, contain no empty string. *)
Theorem loaded_changes_are_valid (records : list Row) :
  Forall
    (fun change =>
       Change.id change = None
       /\ isoDatePattern (Change.date change) = true
       /\ Change.funnelId change <> EmptyString
       /\ Change.description change <> EmptyString
       /\ (1 <=? Change.severity change) = true
       /\ (Change.severity change <=? 5) = true
       /\ Forall (fun stage => stage <> EmptyString)
            (orElse (Change.affectedStages change) [])
       /\ exists row categoryField severityField,
            In row records
            /\ JsMap.get row "date" = Some (Change.date change)
            /\ JsMap.get row "funnel_id" = Some (Change.funnelId change)
            /\ JsMap.get row "description" = Some (Change.description change)
            /\ JsMap.get row "category" = Some categoryField
            /\ toLowerCase categoryField = categoryToken (Change.category change)
            /\ JsMap.get row "severity" = Some severityField
            /\ parseInt severityField 10 = Change.severity change)
    (ChangeLoaderResult.changes (loadChangeRecords records)).
Proof.
  rewrite loadChangeRecords_spec. cbn [ChangeLoaderResult.changes].
  apply Forall_forall. intros change H.
  apply (sieve_kept_In _ _ _
           (fun entry : nat * Row => loadChangeRow (fst entry + 2) (snd entry))) in H.
  destruct H as (i & row & Hn & Hf). cbn [fst snd] in Hf.
  apply loadChangeRow_inv in Hf.
  destruct Hf as (date & funnel_id & categoryField & description & severityField
                  & Hd & Hf & Hc & Hde & Hs & Nd & Nf & Nc & Nde & Hiso
                  & category & Hcat & Hnan & Hlow & Hhigh & ->).
  cbn [Change.id Change.date Change.funnelId Change.description Change.severity
       Change.affectedStages Change.category].
  apply is_nan_false in Hnan.
  split; [reflexivity|]. split; [assumption|]. split; [assumption|].
  split; [assumption|].
  split; [apply FloatFacts.not_ltb_geb; [assumption | reflexivity | assumption]|].
  split; [apply FloatFacts.not_ltb_geb; [reflexivity | assumption | assumption]|].
  split.
  - destruct (truthy (JsMap.get row "affected_stages")); [|constructor].
    destruct (JsMap.get row "affected_stages") as [field|]; [|constructor].
    simpl. unfold parseAffectedStages. apply Forall_forall. intros stage Hin.
    apply filter_In in Hin. destruct Hin as [_ Hin]. now apply truthy_Some.
  - exists row, categoryField, severityField. apply nth_error_In in Hn.
    apply categoryOfToken_Some in Hcat. repeat split; auto.
Qed.

End LoaderFacts.

(** ** The service *)

Section ServiceFacts.
Context {host : Host} {runtime : Runtime} {platform : Platform}.
Local Open Scope float_scope.

Lemma analyzeCauses_breaks breaks changes config clock :
  exists ds clock',
    analyzeCauses breaks changes config clock = Some (ds, clock')
    /\ map Diagnosis.break ds = breaks
    /\ (forall n, clock' n = clock (List.length breaks + n)%nat).
Proof.
  destruct (analyzeCauses_spec breaks changes config clock)
    as (ds & clock' & Hrun & HF & _ & Hc).
  exists ds, clock'. split; [assumption|]. split; [|assumption].
  rewrite <- (map_id breaks).
  eapply Forall2_map_eq; [exact HF|]. intros brk d H. unfold diagnosisOf in H. tauto.
Qed.

Lemma uniqueStrings_length (seen l : list string) :
  (List.length (uniqueStrings seen l) <= List.length l)%nat.
Proof.
  revert seen. induction l as [|x l IH]; intros seen; simpl; [lia|].
  destruct (existsb (String.eqb x) seen); simpl.
  - specialize (IH seen). lia.
  - specialize (IH (x :: seen)). lia.
Qed.

Lemma pipeline_length (events : list Event.t) :
  (List.length (calculateConversionRates (buildSnapshots events))
   <= List.length events)%nat.
Proof.
  unfold calculateConversionRates. rewrite length_map, buildSnapshots_grouped.
  rewrite sortBy_length, length_map. unfold tabulate. rewrite length_map.
  etransitivity; [apply uniqueStrings_length|]. now rewrite length_map.
Qed.

(** X17. [runDiagnosisFromData] throws what [detectBreaks] throws, the
    RangeError of a series with more flags than a call takes arguments,
    and otherwise returns, with metadata that agree with its diagnoses:
    the diagnoses carry, in order, the breaks that [detectBreaks] finds on
    the rates of the snapshots of the events, so [breaksDetected] is the
    number of diagnoses; [eventsLoaded] and [changesLoaded] are the lengths
    of the inputs, [loadErrors] is empty, [executionTimeMs] is the
    difference of the two readings of [Date.now()], and the clock is read
    once per diagnosis. It returns whenever the events are no more than a
    call takes arguments. *)
Theorem runDiagnosisFromData_metadata
    (events : list Event.t) (changes : list Change.t)
    (config : option DiagnosisServiceConfig.engines)
    (clock : Clock) (timer : Timer) :
  let breakDetectorConfig :=
    match config with
    | Some c => DiagnosisServiceConfig.breakDetectorConfig' c
    | None => None
    end in
  let conversionRates := calculateConversionRates (buildSnapshots events) in
  match detectBreaksOutcome conversionRates breakDetectorConfig with
  | Thrown message =>
      runDiagnosisFromData events changes config clock timer = Thrown message
      /\ message = rangeErrorMessage
      /\ (argumentLimit < N.of_nat (List.length events))%N
  | Returned breaks =>
      breaks = detectBreaks conversionRates breakDetectorConfig
      /\ exists result clock',
           runDiagnosisFromData events changes config clock timer
           = Returned (result, clock', fun n => timer (2 + n)%nat)
           /\ map Diagnosis.break (DiagnosisResult.diagnoses result) = breaks
           /\ Metadata.breaksDetected (DiagnosisResult.metadata result)
              = List.length (DiagnosisResult.diagnoses result)
           /\ Metadata.eventsLoaded (DiagnosisResult.metadata result)
              = List.length events
           /\ Metadata.changesLoaded (DiagnosisResult.metadata result)
              = List.length changes
           /\ Metadata.loadErrors (DiagnosisResult.metadata result) = []
           /\ Metadata.executionTimeMs (DiagnosisResult.metadata result)
              = timer 1%nat - timer 0%nat
           /\ (forall n,
                 clock' n
                 = clock (List.length (DiagnosisResult.diagnoses result) + n)%nat)
  end.
Proof.
  intros breakDetectorConfig conversionRates. unfold runDiagnosisFromData.
  cbn [Date_now]. fold breakDetectorConfig. fold conversionRates.
  destruct (detectBreaksOutcome conversionRates breakDetectorConfig)
    as [breaks|message] eqn:Ed.
  - split; [now apply detectBreaksOutcome_returned|].
    destruct (analyzeCauses_breaks breaks changes
                (match config with
                 | Some c => DiagnosisServiceConfig.causeAnalyzerConfig' c
                 | None => None
                 end) clock)
      as (ds & clock' & -> & Hb & Hc).
    eexists _, clock'. split; [reflexivity|].
    cbn [DiagnosisResult.diagnoses DiagnosisResult.metadata Metadata.breaksDetected
         Metadata.eventsLoaded Metadata.changesLoaded Metadata.loadErrors
         Metadata.executionTimeMs].
    assert (Hlen : List.length ds = List.length breaks)
      by (rewrite <- Hb; now rewrite length_map).
    repeat split; try assumption; try (symmetry; assumption).
    intros n. rewrite Hlen. apply Hc.
  - split; [reflexivity|].
    destruct (N.leb_spec (N.of_nat (List.length events)) argumentLimit) as [Hle|Hlt].
    + rewrite detectBreaksOutcome_small in Ed; [discriminate|].
      pose proof (pipeline_length events) as Hl. fold conversionRates in Hl. lia.
    + split; [|exact Hlt].
      rewrite detectBreaksOutcome_spec in Ed. destruct (forallb fits _); congruence.
Qed.

(** X18. [runDiagnosis] is [runDiagnosisFromData] on what the two loaders
    return. When reading or parsing the events file throws, it throws that
    error, and the changes file is not looked at; so it is when the events
    file has more load errors than a call takes arguments, with the
    RangeError of [loadErrors.push(...eventResult.errors)]. When the
    changes file throws, it throws that error, and when that file has too
    many load errors, the RangeError. Otherwise it throws what
    [runDiagnosisFromData] throws on the loaded events and changes with the
    same two configurations, or returns its result, except that
    [loadErrors] holds the errors of the events file followed by those of
    the changes file. *)
Theorem runDiagnosis_loads_then_diagnoses
    (config : DiagnosisServiceConfig.t) (clock : Clock) (timer : Timer) :
  match loadEventsFromCsv (DiagnosisServiceConfig.eventsPath config) with
  | Thrown message => runDiagnosis config clock timer = Thrown message
  | Returned eventResult =>
      if fits (EventLoaderResult.errors eventResult) then
        match loadChangesFromCsv (DiagnosisServiceConfig.changesPath config) with
        | Thrown message => runDiagnosis config clock timer = Thrown message
        | Returned changeResult =>
            if fits (ChangeLoaderResult.errors changeResult) then
              match
                runDiagnosisFromData (EventLoaderResult.events eventResult)
                  (ChangeLoaderResult.changes changeResult)
                  (Some (DiagnosisServiceConfig.mkEngines
                           (DiagnosisServiceConfig.breakDetectorConfig config)
                           (DiagnosisServiceConfig.causeAnalyzerConfig config)))
                  clock timer
              with
              | Thrown message => runDiagnosis config clock timer = Thrown message
              | Returned (result, clock', timer') =>
                  runDiagnosis config clock timer
                  = Returned
                      (DiagnosisResult.mk (DiagnosisResult.diagnoses result)
                         (Metadata.mk
                            (Metadata.eventsLoaded (DiagnosisResult.metadata result))
                            (Metadata.changesLoaded (DiagnosisResult.metadata result))
                            (Metadata.breaksDetected (DiagnosisResult.metadata result))
                            (EventLoaderResult.errors eventResult
                             ++ ChangeLoaderResult.errors changeResult)
                            (Metadata.executionTimeMs
                               (DiagnosisResult.metadata result))),
                       clock', timer')
              end
            else runDiagnosis config clock timer = Thrown rangeErrorMessage
        end
      else runDiagnosis config clock timer = Thrown rangeErrorMessage
  end.
Proof.
  unfold runDiagnosis, runDiagnosisFromData, pushSpread. cbn [Date_now].
  destruct (loadEventsFromCsv _) as [eventResult|message]; [|reflexivity].
  destruct (fits (EventLoaderResult.errors eventResult)); [|reflexivity].
  destruct (loadChangesFromCsv _) as [changeResult|message]; [|reflexivity].
  destruct (fits (ChangeLoaderResult.errors changeResult)); [|reflexivity].
  cbn [DiagnosisServiceConfig.breakDetectorConfig'
       DiagnosisServiceConfig.causeAnalyzerConfig' app].
  destruct (detectBreaksOutcome _ _) as [breaks|message]; [|reflexivity].
  destruct (analyzeCauses_breaks breaks (ChangeLoaderResult.changes changeResult)
              (DiagnosisServiceConfig.causeAnalyzerConfig config) clock)
    as (ds & clock' & -> & _).
  reflexivity.
Qed.

(** What [runDiagnosis] has done when it returns. *)
Lemma runDiagnosis_returned config clock timer result clock' timer' :
  runDiagnosis config clock timer = Returned (result, clock', timer') ->
  exists eventResult changeResult,
    loadEventsFromCsv (DiagnosisServiceConfig.eventsPath config)
    = Returned eventResult
    /\ loadChangesFromCsv (DiagnosisServiceConfig.changesPath config)
       = Returned changeResult
    /\ map Diagnosis.break (DiagnosisResult.diagnoses result)
       = detectBreaks
           (calculateConversionRates
              (buildSnapshots (EventLoaderResult.events eventResult)))
           (DiagnosisServiceConfig.breakDetectorConfig config).
Proof.
  unfold runDiagnosis, pushSpread. cbn [Date_now].
  destruct (loadEventsFromCsv _) as [eventResult|]; [|discriminate].
  destruct (fits _); [|discriminate].
  destruct (loadChangesFromCsv _) as [changeResult|]; [|discriminate].
  destruct (fits _); [|discriminate].
  destruct (detectBreaksOutcome _ _) as [breaks|] eqn:Ed; [|discriminate].
  apply detectBreaksOutcome_returned in Ed.
  destruct (analyzeCauses_breaks breaks (ChangeLoaderResult.changes changeResult)
              (DiagnosisServiceConfig.causeAnalyzerConfig config) clock)
    as (ds & clock'' & -> & Hb & _).
  intros [= <- _ _]. cbn [DiagnosisResult.diagnoses].
  exists eventResult, changeResult. repeat split. congruence.
Qed.

Lemma loadEventRecords_counts (records : list Row) :
  Forall (fun e => (0 <=? Event.count e) = true)
         (EventLoaderResult.events (loadEventRecords records)).
Proof.
  rewrite loadEventRecords_spec. cbn [EventLoaderResult.events].
  apply Forall_forall. intros event H.
  apply (sieve_kept_In _ _ _
           (fun entry : nat * Row => loadEventRow (fst entry + 2) (snd entry))) in H.
  destruct H as (i & row & Hn & Hf). cbn [fst snd] in Hf.
  apply loadEventRow_inv in Hf.
  destruct Hf as (date & funnel_id & stageField & countField & _ & _ & _ & _
                  & _ & _ & _ & _ & stage & _ & Hnan & Hneg & ->).
  cbn [Event.count].
  apply FloatFacts.not_ltb_geb; [now apply is_nan_false | reflexivity | assumption].
Qed.

(** X19. From the files to the report, only genuine drops: when
    [minRelativeDrop > 0] and [runDiagnosis] returns, the break of every
    diagnosis has a strictly positive baseline rate and absolute drop, a
    current rate strictly below the baseline rate and a z-score that is not
    negative, strictly positive when [minZScore > 0]. The loader only lets
    through counts that are numbers not below zero. *)
Theorem runDiagnosis_reports_genuine_drops
    (config : DiagnosisServiceConfig.t) (clock : Clock) (timer : Timer) :
  let cfg :=
    mergeBreakDetectorConfig (DiagnosisServiceConfig.breakDetectorConfig config) in
  (0 <? BreakDetectorConfig.minRelativeDrop cfg) = true ->
  match runDiagnosis config clock timer with
  | Thrown _ => True
  | Returned (result, _, _) =>
      Forall
        (fun d =>
           let brk := Diagnosis.break d in
           (0 <? Break.baselineRate brk) = true
           /\ (0 <? Break.absoluteDrop brk) = true
           /\ (Break.currentRate brk <? Break.baselineRate brk) = true
           /\ (0 <=? Break.zScore brk) = true
           /\ ((0 <? BreakDetectorConfig.minZScore cfg) = true ->
               (0 <? Break.zScore brk) = true))
        (DiagnosisResult.diagnoses result)
  end.
Proof.
  intros cfg Hmin.
  destruct (runDiagnosis config clock timer) as [[[result clock'] timer']|] eqn:Er;
    [|exact I].
  apply runDiagnosis_returned in Er.
  destruct Er as (eventResult & changeResult & He & _ & Hb).
  assert (Hcounts : Forall (fun e => (0 <=? Event.count e) = true)
                           (EventLoaderResult.events eventResult)).
  { unfold loadEventsFromCsv in He.
    destruct (readFileSync _) as [content|]; [|discriminate].
    destruct (parse content) as [records|]; [|discriminate].
    injection He as <-. apply loadEventRecords_counts. }
  rewrite <- Forall_map with (f := Diagnosis.break)
    (P := fun brk =>
            (0 <? Break.baselineRate brk) = true
            /\ (0 <? Break.absoluteDrop brk) = true
            /\ (Break.currentRate brk <? Break.baselineRate brk) = true
            /\ (0 <=? Break.zScore brk) = true
            /\ ((0 <? BreakDetectorConfig.minZScore cfg) = true ->
                (0 <? Break.zScore brk) = true)).
  rewrite Hb. apply Forall_forall. intros brk H.
  apply deduplicate_In, rawBreaks_In_series in H.
  destruct H as (fid & fromS & toS & point & H). cbv zeta in H.
  eapply detectAt_genuine; [|exact Hmin|exact H].
  now apply funnelSeries_not_negative, pipeline_rates_not_negative.
Qed.

End ServiceFacts.

(** * Facts about the command line *)

Lemma flat_map_length_const {A B} (f : A -> list B) (k : nat) (l : list A) :
  (forall x, List.length (f x) = k) ->
  List.length (flat_map f l) = (k * List.length l)%nat.
Proof.
  intros H. induction l as [|x l IH]; simpl; [lia|].
  rewrite length_app, H, IH. lia.
Qed.

Lemma flat_map_length_sum {A B} (f : A -> list B) (g : A -> nat) (l : list A) :
  (forall x, List.length (f x) = g x) ->
  List.length (flat_map f l) = list_sum (map g l).
Proof.
  intros H. induction l as [|x l IH]; simpl; [reflexivity|].
  now rewrite length_app, H, IH.
Qed.

Lemma map_snd_indexed {A} (l : list A) : map snd (indexed l) = l.
Proof.
  unfold indexed. generalize 0%nat.
  induction l as [|x l IH]; intros n; simpl; [reflexivity|]. now rewrite IH.
Qed.

Section CommandLineFacts.
Context {host : Host} {runtime : Runtime} {platform : Platform} {node : Node}.
Local Open Scope float_scope.

(** What the loop of [parseArgs] comes to, from any argument on. *)
Lemma parseArgsFrom_spec (n : nat) : forall (rest : list string) (args : CliArgs.t),
  (List.length rest <= n)%nat ->
  match parseArgsFrom args rest with
  | Continues args' =>
      (CliArgs.events args' = CliArgs.events args \/ In "--events"%string rest)
      /\ (CliArgs.changes args' = CliArgs.changes args
          \/ In "--changes"%string rest)
  | Exits printed code =>
      (code = 0%nat /\ printed = printUsage /\ In "--help"%string rest)
      \/ (code = 2%nat
          /\ exists arg,
               In arg rest
               /\ printed = Error ("Unknown argument: " +++ arg) :: printUsage)
  end.
Proof.
  induction n as [|n IH]; intros rest args Hlen.
  - destruct rest; [simpl; auto | simpl in Hlen; lia].
  - destruct rest as [|arg rest']; [simpl; auto|].
    assert (Hnext : forall args',
              match (match rest' with
                     | [] => Continues args'
                     | _ :: rest'' => parseArgsFrom args' rest''
                     end) with
              | Continues args'' =>
                  (CliArgs.events args'' = CliArgs.events args'
                   \/ In "--events"%string rest')
                  /\ (CliArgs.changes args'' = CliArgs.changes args'
                      \/ In "--changes"%string rest')
              | Exits printed code =>
                  (code = 0%nat /\ printed = printUsage /\ In "--help"%string rest')
                  \/ (code = 2%nat
                      /\ exists arg0,
                           In arg0 rest'
                           /\ printed
                              = Error ("Unknown argument: " +++ arg0) :: printUsage)
              end).
    { intros args'. destruct rest' as [|v rest'']; [auto|].
      specialize (IH rest'' args'). simpl in Hlen.
      assert (Hl : (List.length rest'' <= n)%nat) by lia. specialize (IH Hl).
      destruct (parseArgsFrom args' rest'') as [args''|printed code].
      - destruct IH as [[He|He] [Hc|Hc]]; split; simpl; auto.
      - destruct IH as [(H0 & Hp & Hin)|(H2 & arg0 & Hin & Hp)].
        + left. simpl. auto.
        + right. split; [assumption|]. exists arg0. simpl. auto. }
    cbn [parseArgsFrom].
    destruct (String.eqb arg "--events") eqn:E1.
    { apply String.eqb_eq in E1. subst arg. specialize (Hnext
        (CliArgs.mk (hd_error rest') (CliArgs.changes args) (CliArgs.format args)
           (CliArgs.baselineDays args) (CliArgs.currentDays args)
           (CliArgs.minDrop args))).
      destruct (match rest' with [] => _ | _ :: _ => _ end) as [args''|printed code].
      - cbn [CliArgs.events CliArgs.changes] in Hnext.
        destruct Hnext as [_ [Hc|Hc]]; split; simpl; auto.
      - destruct Hnext as [(H0 & Hp & Hin)|(H2 & arg0 & Hin & Hp)].
        + left. simpl. auto.
        + right. split; [assumption|]. exists arg0. simpl. auto. }
    destruct (String.eqb arg "--changes") eqn:E2.
    { apply String.eqb_eq in E2. subst arg. specialize (Hnext
        (CliArgs.mk (CliArgs.events args) (hd_error rest') (CliArgs.format args)
           (CliArgs.baselineDays args) (CliArgs.currentDays args)
           (CliArgs.minDrop args))).
      destruct (match rest' with [] => _ | _ :: _ => _ end) as [args''|printed code].
      - cbn [CliArgs.events CliArgs.changes] in Hnext.
        destruct Hnext as [[He|He] _]; split; simpl; auto.
      - destruct Hnext as [(H0 & Hp & Hin)|(H2 & arg0 & Hin & Hp)].
        + left. simpl. auto.
        + right. split; [assumption|]. exists arg0. simpl. auto. }
    assert (Hother : forall args',
              CliArgs.events args' = CliArgs.events args ->
              CliArgs.changes args' = CliArgs.changes args ->
              match (match rest' with
                     | [] => Continues args'
                     | _ :: rest'' => parseArgsFrom args' rest''
                     end) with
              | Continues args'' =>
                  (CliArgs.events args'' = CliArgs.events args
                   \/ In "--events"%string (arg :: rest'))
                  /\ (CliArgs.changes args'' = CliArgs.changes args
                      \/ In "--changes"%string (arg :: rest'))
              | Exits printed code =>
                  (code = 0%nat /\ printed = printUsage
                   /\ In "--help"%string (arg :: rest'))
                  \/ (code = 2%nat
                      /\ exists arg0,
                           In arg0 (arg :: rest')
                           /\ printed
                              = Error ("Unknown argument: " +++ arg0) :: printUsage)
              end).
    { intros args' He Hc. specialize (Hnext args').
      destruct (match rest' with [] => _ | _ :: _ => _ end) as [args''|printed code].
      - rewrite He, Hc in Hnext.
        destruct Hnext as [[H1|H1] [H2|H2]]; split; simpl; auto.
      - destruct Hnext as [(H0 & Hp & Hin)|(H2 & arg0 & Hin & Hp)].
        + left. simpl. auto.
        + right. split; [assumption|]. exists arg0. simpl. auto. }
    destruct (String.eqb arg "--format"); [now apply Hother|].
    destruct (String.eqb arg "--baseline-days"); [now apply Hother|].
    destruct (String.eqb arg "--current-days"); [now apply Hother|].
    destruct (String.eqb arg "--min-drop"); [now apply Hother|].
    destruct (String.eqb arg "--help") eqn:E7.
    + apply String.eqb_eq in E7. subst arg. left. simpl. auto.
    + right. split; [reflexivity|]. exists arg. simpl. auto.
Qed.

(** X21. [parseArgs] returns only for a complete command line: then
    [--events] and [--changes] both occur after the two leading elements of
    [argv] and their values are not empty. Otherwise the process exits:
    with code 0 and the usage when [--help] was read, with code 2 and the
    usage after the message of an unknown argument or of the missing
    required options. *)
Theorem parseArgs_accepts_complete_commands (argv : list string) :
  match parseArgs argv with
  | Continues args =>
      truthy (CliArgs.events args) = true
      /\ truthy (CliArgs.changes args) = true
      /\ In "--events"%string (skipn 2 argv)
      /\ In "--changes"%string (skipn 2 argv)
  | Exits printed code =>
      (code = 0%nat /\ printed = printUsage /\ In "--help"%string (skipn 2 argv))
      \/ (code = 2%nat
          /\ ((exists arg,
                 In arg (skipn 2 argv)
                 /\ printed = Error ("Unknown argument: " +++ arg) :: printUsage)
              \/ printed
                 = Error "Error: --events and --changes are required."
                   :: printUsage))
  end.
Proof.
  unfold parseArgs.
  pose proof (parseArgsFrom_spec (List.length (skipn 2 argv)) (skipn 2 argv)
                (CliArgs.mk (Some EmptyString) (Some EmptyString)
                   (Some "table"%string) None None None) (Nat.le_refl _)) as H.
  destruct (parseArgsFrom _ (skipn 2 argv)) as [args|printed code].
  - cbn [CliArgs.events CliArgs.changes] in H.
    destruct (truthy (CliArgs.events args)) eqn:Te;
      destruct (truthy (CliArgs.changes args)) eqn:Tc; cbn [negb orb];
      try (right; split; [reflexivity | now right]).
    destruct H as [[He|He] [Hc|Hc]];
      try (rewrite He in Te; discriminate);
      try (rewrite Hc in Tc; discriminate).
    auto.
  - destruct H as [H|(H2 & arg & Hin & Hp)]; [now left|].
    right. split; [assumption|]. left. exists arg. auto.
Qed.

Lemma parseArgsFrom_codes (n : nat) : forall (rest : list string) (args : CliArgs.t),
  (List.length rest <= n)%nat ->
  match parseArgsFrom args rest with
  | Continues _ => True
  | Exits _ code => code = 0%nat \/ code = 2%nat
  end.
Proof.
  intros rest args Hlen. pose proof (parseArgsFrom_spec n rest args Hlen) as H.
  destruct (parseArgsFrom args rest) as [|printed code]; [exact I|].
  destruct H as [(H & _)|(H & _)]; auto.
Qed.

Lemma parseArgs_codes (argv : list string) :
  match parseArgs argv with
  | Continues _ => True
  | Exits _ code => code = 0%nat \/ code = 2%nat
  end.
Proof.
  unfold parseArgs.
  pose proof (parseArgsFrom_codes (List.length (skipn 2 argv)) (skipn 2 argv)
                (CliArgs.mk (Some EmptyString) (Some EmptyString)
                   (Some "table"%string) None None None) (Nat.le_refl _)) as H.
  destruct (parseArgsFrom _ (skipn 2 argv)) as [args|printed code]; [|exact H].
  destruct (_ || _); auto.
Qed.

(** The breaks of the diagnoses of [runDiagnosis] are breaks that
    [detectBreaks] returned. *)
Lemma runDiagnosis_breaks config clock timer result clock' timer' :
  runDiagnosis config clock timer = Returned (result, clock', timer') ->
  exists conversionRates,
    map Diagnosis.break (DiagnosisResult.diagnoses result)
    = detectBreaks conversionRates
        (DiagnosisServiceConfig.breakDetectorConfig config).
Proof.
  intros H. apply runDiagnosis_returned in H.
  destruct H as (eventResult & changeResult & _ & _ & Hb). eauto.
Qed.

Lemma isCritical_spec config clock timer result clock' timer' d :
  runDiagnosis config clock timer = Returned (result, clock', timer') ->
  In d (DiagnosisResult.diagnoses result) ->
  isCritical d = true
  <-> Num.gtb (Break.relativeDrop (Diagnosis.break d)) 0.40 = true
      \/ Num.gtb (abs (Break.zScore (Diagnosis.break d))) 3.0 = true.
Proof.
  intros Hrun Hin. apply runDiagnosis_breaks in Hrun.
  destruct Hrun as (conversionRates & Hb).
  assert (Hbrk : In (Diagnosis.break d)
                    (detectBreaks conversionRates
                       (DiagnosisServiceConfig.breakDetectorConfig config)))
    by (rewrite <- Hb; now apply in_map).
  apply detectBreaks_severity in Hbrk.
  rewrite <- classifySeverity_critical, <- Hbrk. unfold isCritical.
  destruct (Break.severity (Diagnosis.break d)); split; congruence.
Qed.

(** X22. The exit code of [main] is 0, 1 or 2. It is 1 exactly when the
    command line is complete, [runDiagnosis] returns and some diagnosis is
    about a break with [relativeDrop > 0.40] or [|zScore| > 3], that is a
    critical break; it is 2 exactly when [parseArgs] exits with 2 or
    [runDiagnosis] throws. *)
Theorem main_exit_code (argv : list string) (clock : Clock) (timer : Timer) :
  let code := snd (main argv clock timer) in
  (code = 0 \/ code = 1 \/ code = 2)%nat
  /\ (code = 1%nat
      <-> exists args result clock' timer' d,
            parseArgs argv = Continues args
            /\ runDiagnosis (serviceConfigOf args) clock timer
               = Returned (result, clock', timer')
            /\ In d (DiagnosisResult.diagnoses result)
            /\ (Num.gtb (Break.relativeDrop (Diagnosis.break d)) 0.40 = true
                \/ Num.gtb (abs (Break.zScore (Diagnosis.break d))) 3.0 = true))
  /\ (code = 2%nat
      <-> (exists printed, parseArgs argv = Exits printed 2)
          \/ (exists args message,
                parseArgs argv = Continues args
                /\ runDiagnosis (serviceConfigOf args) clock timer
                   = Thrown message)).
Proof.
  cbv zeta. unfold main.
  pose proof (parseArgs_codes argv) as Hcodes.
  destruct (parseArgs argv) as [args|printed code] eqn:Ep.
  - destruct (runDiagnosis (serviceConfigOf args) clock timer)
      as [[[result clock'] timer']|message] eqn:Er.
    + cbn [snd].
      destruct (existsb isCritical (DiagnosisResult.diagnoses result)) eqn:Ec.
      * split; [auto|]. split.
        -- split; [intros _ | reflexivity].
           apply existsb_exists in Ec. destruct Ec as (d & Hin & Hd).
           exists args, result, clock', timer', d.
           split; [reflexivity|]. split; [exact Er|]. split; [assumption|].
           now apply (isCritical_spec _ _ _ _ _ _ _ Er Hin).
        -- split; [discriminate|].
           intros [(p & H)|(a & m & H1 & H2)]; [discriminate | congruence].
      * split; [auto|]. split.
        -- split; [discriminate|].
           intros (a & r & c & t & d & H1 & H2 & Hin & Hd).
           injection H1 as <-. rewrite Er in H2. injection H2 as <- _ _.
           apply (isCritical_spec _ _ _ _ _ _ _ Er Hin) in Hd.
           assert (F : existsb isCritical (DiagnosisResult.diagnoses result) = true)
             by (apply existsb_exists; eauto).
           congruence.
        -- split; [discriminate|].
           intros [(p & H)|(a & m & H1 & H2)]; [discriminate | congruence].
    + cbn [snd]. split; [auto|]. split.
      * split; [discriminate|].
        intros (a & r & c & t & d & H1 & H2 & _). congruence.
      * split; [intros _ | reflexivity]. right. eauto.
  - cbn [snd]. destruct Hcodes as [->| ->].
    + split; [auto|]. split.
      * split; [discriminate|]. intros (a & r & c & t & d & H1 & _). discriminate.
      * split; [discriminate|].
        intros [(p & H)|(a & m & H1 & H2)]; [|discriminate].
        injection H as _ H. discriminate.
    + split; [auto|]. split.
      * split; [discriminate|]. intros (a & r & c & t & d & H1 & _). discriminate.
      * split; [intros _ | reflexivity]. left. eauto.
Qed.

Lemma formatCause_length entry : List.length (formatCause entry) = 3%nat.
Proof. reflexivity. Qed.

Lemma formatDiagnosis_length divider entry :
  List.length (formatDiagnosis divider entry) = (11 + causeLines (snd entry))%nat.
Proof.
  unfold formatDiagnosis, causeLines. rewrite !length_app.
  destruct (Diagnosis.causes (snd entry)) as [|c causes] eqn:E.
  - reflexivity.
  - cbn [List.length Nat.ltb Nat.leb].
    rewrite (flat_map_length_const formatCause 3) by apply formatCause_length.
    rewrite indexed_length, length_firstn. cbn [List.length]. lia.
Qed.

Lemma formatDiagnosis_logs divider entry :
  Forall (fun p => exists text, p = Log text) (formatDiagnosis divider entry).
Proof.
  unfold formatDiagnosis. apply Forall_app. split; [repeat constructor; eauto|].
  apply Forall_app. split; [|repeat constructor; eauto].
  destruct (0 <? _)%nat; [|constructor]. constructor; [eauto|].
  apply Forall_forall. intros p Hp. apply in_flat_map in Hp.
  destruct Hp as (c & _ & Hp). revert p Hp. apply Forall_forall.
  unfold formatCause. repeat constructor; eauto.
Qed.

(** X23. The table of [formatTableOutput] is bounded: it prints 13 lines
    of frame and summary, at most ten load errors (with one more line that
    counts the others when there are more than ten), and per diagnosis 11
    lines and at most five causes of three lines each; it only calls
    [console.log], and it reads the clock once. *)
Theorem formatTableOutput_is_bounded (result : DiagnosisResult.t) (clock : Clock) :
  let printed := fst (formatTableOutput result clock) in
  let errors := List.length (Metadata.loadErrors (DiagnosisResult.metadata result)) in
  List.length printed
  = (13 + errorLines errors
     + list_sum (map (fun d => 11 + causeLines d)
                     (DiagnosisResult.diagnoses result)))%nat
  /\ Forall (fun p => exists text, p = Log text) printed
  /\ (forall n, snd (formatTableOutput result clock) n = clock (S n)).
Proof.
  cbv zeta. unfold formatTableOutput. cbn [now].
  set (errors := Metadata.loadErrors (DiagnosisResult.metadata result)).
  set (head := _ ++ (if (0 <? List.length errors)%nat then _ else [])).
  assert (Hhead : List.length head = (10 + errorLines (List.length errors))%nat).
  { unfold head, errorLines. rewrite length_app. cbn [List.length].
    destruct (List.length errors) as [|n] eqn:El; [reflexivity|].
    change (0 <? S n)%nat with true. change (S n =? 0)%nat with false. cbv iota.
    cbn [List.length]. rewrite length_app, length_map, length_firstn, El.
    destruct (10 <? S n)%nat; cbn [List.length]; lia. }
  assert (Hlog : Forall (fun p => exists text, p = Log text) head).
  { unfold head. apply Forall_app. split; [repeat constructor; eauto|].
    destruct (0 <? List.length errors)%nat; [|constructor].
    constructor; [eauto|]. apply Forall_app. split.
    - apply Forall_forall. intros p Hp. apply in_map_iff in Hp.
      destruct Hp as (err & <- & _). eauto.
    - destruct (10 <? List.length errors)%nat; repeat constructor; eauto. }
  destruct (List.length (DiagnosisResult.diagnoses result) =? 0)%nat eqn:E;
    cbn [fst snd].
  - apply Nat.eqb_eq, length_zero_iff_nil in E. rewrite E.
    split; [|split; [|reflexivity]].
    + rewrite length_app, Hhead. cbn [List.length map].
      change (list_sum []) with 0%nat. lia.
    + apply Forall_app. split; [assumption | repeat constructor; eauto].
  - split; [|split; [|reflexivity]].
    + rewrite !length_app, Hhead.
      rewrite (flat_map_length_sum _ (fun entry => 11 + causeLines (snd entry))%nat)
        by (intros entry; apply formatDiagnosis_length).
      rewrite <- (map_snd_indexed (DiagnosisResult.diagnoses result)) at 2.
      rewrite map_map. cbn [List.length]. lia.
    + apply Forall_app. split; [assumption|]. apply Forall_app. split.
      * apply Forall_forall. intros p Hp. apply in_flat_map in Hp.
        destruct Hp as (entry & _ & Hp). revert p Hp. apply Forall_forall.
        apply formatDiagnosis_logs.
      * repeat constructor; eauto.
Qed.

End CommandLineFacts.

(** * Facts about the repositories *)

Lemma split_join (sep : ascii) (segments : list string) :
  segments <> [] ->
  Forall (fun s => Str.mem sep s = false) segments ->
  Str.split sep (joinWith sep segments) = segments.
Proof.
  intros Hne H. induction H as [|seg segments Hseg _ IH]; [congruence|].
  destruct segments as [|seg' segments'].
  - simpl. now apply StrFacts.split_no_sep.
  - change (joinWith sep (seg :: seg' :: segments'))
      with (seg +++ String sep (joinWith sep (seg' :: segments'))).
    rewrite StrFacts.split_app_sep, (StrFacts.split_no_sep _ _ Hseg), IH by discriminate.
    reflexivity.
Qed.

Lemma filter_truthy (segments : list string) :
  Forall (fun s => s <> EmptyString) segments ->
  filter (fun s => truthy (Some s)) segments = segments.
Proof.
  intros H. induction H as [|s l Hs _ IH]; [reflexivity|].
  destruct s; [congruence|]. simpl. now f_equal.
Qed.

Lemma joinWith_empty (sep : ascii) (segments : list string) :
  Forall (fun s => s <> EmptyString) segments ->
  joinWith sep segments = EmptyString -> segments = [].
Proof.
  intros H. destruct H as [|s l Hs _]; [reflexivity|].
  destruct l; simpl; [congruence|]. destruct s; [congruence | discriminate].
Qed.

Section RepositoryFacts.
Context {host : Host} {platform : Platform}.
Local Open Scope float_scope.

Lemma addEvent_core grouped (e : Event.t) :
  addEvent grouped e
  = addEvent grouped
      (Event.mk None (Event.date e) (Event.funnelId e) (Event.stage e)
         (Event.count e) None).
Proof. reflexivity. Qed.

Lemma buildSnapshots_ext (events events' : list Event.t) :
  Forall2
    (fun e e' =>
       Event.date e = Event.date e' /\ Event.funnelId e = Event.funnelId e'
       /\ Event.stage e = Event.stage e' /\ Event.count e = Event.count e')
    events events' ->
  buildSnapshots events = buildSnapshots events'.
Proof.
  intros H. unfold buildSnapshots. f_equal. f_equal.
  generalize (@JsMap.empty StageMap).
  induction H as [|e e' l l' (Hd & Hf & Hs & Hc) _ IH]; intros grouped; simpl;
    [reflexivity|].
  rewrite (addEvent_core grouped e), (addEvent_core grouped e'), Hd, Hf, Hs, Hc.
  apply IH.
Qed.

Lemma Forall2_same {A} (R : A -> A -> Prop) (l : list A) :
  (forall x, R x x) -> Forall2 R l l.
Proof. intros H. induction l; constructor; auto. Qed.

(** X24. An event read back by [mapRows] from a row that holds what
    [insertMany] bound for it keeps its date, funnel, stage and count; its
    [id] is the row id as a string, and its source is kept except that a
    missing or empty source comes back as undefined. Wherever it stands in
    a list of events, [buildSnapshots] gives the same snapshots with it as
    with the event stored. *)
Theorem stored_event_reads_back (r : EventRow.t) (evt : Event.t) :
  holdsEvent r (eventBindingOf evt) ->
  exists back,
    mapEventRows [r] = [back]
    /\ Event.id back = Some (numberToString (EventRow.id r))
    /\ Event.date back = Event.date evt
    /\ Event.funnelId back = Event.funnelId evt
    /\ Event.stage back = Event.stage evt
    /\ Event.count back = Event.count evt
    /\ Event.source back = orUndefined (Event.source evt)
    /\ forall before after,
         buildSnapshots (before ++ back :: after)
         = buildSnapshots (before ++ evt :: after).
Proof.
  intros (Hd & Hf & Hs & Hc & Hsrc).
  cbn [eventBindingOf EventBinding.date EventBinding.funnelId EventBinding.stage
       EventBinding.count EventBinding.source] in Hd, Hf, Hs, Hc, Hsrc.
  eexists. split; [reflexivity|].
  cbn [Event.id Event.date Event.funnelId Event.stage Event.count Event.source].
  split; [reflexivity|]. do 4 (split; [assumption|]). split.
  - rewrite Hsrc. destruct (Event.source evt) as [[|c s]|]; reflexivity.
  - intros before after. apply buildSnapshots_ext.
    apply Forall2_app; [apply Forall2_same; tauto|].
    constructor; [cbn; tauto | apply Forall2_same; tauto].
Qed.

(** X25. A change read back from the row that holds what [insertMany]
    bound for it keeps its date, funnel, category, description and
    severity, and its [id] is the row id as a string. When its stage names
    are not empty and contain no [";"], its affected stages come back as
    they were, except that an empty list comes back as undefined; the
    candidate [scoreCandidate] makes of it is the same, with that
    [changeId]. *)
Theorem stored_change_reads_back (r : ChangeRow.t) (chg : Change.t) :
  holdsChange r (changeBindingOf chg) ->
  Forall plainStage (orElse (Change.affectedStages chg) []) ->
  exists back,
    mapChangeRows [r] = [back]
    /\ Change.id back = Some (numberToString (ChangeRow.id r))
    /\ Change.date back = Change.date chg
    /\ Change.funnelId back = Change.funnelId chg
    /\ Change.category back = Change.category chg
    /\ Change.description back = Change.description chg
    /\ Change.severity back = Change.severity chg
    /\ Change.affectedStages back
       = match Change.affectedStages chg with
         | Some [] => None
         | stages => stages
         end
    /\ forall brk cfg,
         scoreCandidate back brk cfg
         = withChangeId (numberToString (ChangeRow.id r)) (scoreCandidate chg brk cfg).
Proof.
  intros (Hd & Hf & Hc & Hde & Hs & Ha) Hplain.
  cbn [changeBindingOf ChangeBinding.date ChangeBinding.funnelId
       ChangeBinding.category ChangeBinding.description ChangeBinding.severity
       ChangeBinding.affectedStages] in Hd, Hf, Hc, Hde, Hs, Ha.
  eexists. split; [reflexivity|].
  cbn [Change.id Change.date Change.funnelId Change.category Change.description
       Change.severity Change.affectedStages].
  assert (Hstages :
            (if truthy (ChangeRow.affected_stages r)
             then option_map
                    (fun field =>
                       filter (fun s => truthy (Some s)) (Str.split semicolon field))
                    (ChangeRow.affected_stages r)
             else None)
            = match Change.affectedStages chg with
              | Some [] => None
              | stages => stages
              end).
  { rewrite Ha. destruct (Change.affectedStages chg) as [stages|]; [|reflexivity].
    cbn [option_map orElse] in *.
    assert (Hne : Forall (fun s => s <> EmptyString) stages)
      by (eapply Forall_impl; [|exact Hplain]; intros s [H _]; exact H).
    assert (Hsep : Forall (fun s => Str.mem semicolon s = false) stages)
      by (eapply Forall_impl; [|exact Hplain]; intros s [_ H]; exact H).
    destruct stages as [|s stages']; [reflexivity|].
    destruct (joinWith semicolon (s :: stages')) as [|c rest] eqn:E.
    - apply joinWith_empty in E; [discriminate | assumption].
    - cbn [truthy]. rewrite <- E, split_join by (assumption || discriminate).
      now rewrite filter_truthy. }
  rewrite Hstages.
  repeat (split; [assumption || reflexivity|]).
  intros brk cfg. unfold scoreCandidate, withChangeId.
  cbn [Change.id Change.date Change.funnelId Change.category Change.description
       Change.severity Change.affectedStages CauseCandidate.changeDescription
       CauseCandidate.changeCategory CauseCandidate.changeDate
       CauseCandidate.changeSeverity CauseCandidate.confidence
       CauseCandidate.scoreBreakdown orElse].
  rewrite Hd, Hc, Hde, Hs.
  assert (Hbonus : forall stages' : option (list string),
            stages' = match Change.affectedStages chg with
                      | Some [] => None
                      | stages => stages
                      end ->
            calcStageMatchBonus
              (Change.mk (Some (numberToString (ChangeRow.id r))) (Change.date chg)
                 (ChangeRow.funnel_id r) (Change.category chg)
                 (Change.description chg) (Change.severity chg) stages') brk
            = calcStageMatchBonus chg brk).
  { intros stages' ->. unfold calcStageMatchBonus. cbn [Change.affectedStages].
    destruct (Change.affectedStages chg) as [[|s l]|]; reflexivity. }
  rewrite (Hbonus _ eq_refl). reflexivity.
Qed.

End RepositoryFacts.

(** * Runs on the reference host *)

Lemma compareStrings_antisym (x y : string) :
  (0 < RefHost.compareStrings x y)%Z -> (RefHost.compareStrings y x <= 0)%Z.
Proof.
  unfold RefHost.compareStrings. rewrite (String.compare_antisym x y).
  destruct (String.compare y x); simpl; lia.
Qed.

(** The deduplication theorem applies to the reference host, on a series with
    a drop. *)
Lemma detectBreaks_deduplicates_witness :
  exists groups clusters peaks,
    Permutation (List.concat groups)
      (@rawBreaks RefHost.host Runs.droppingRates
         (mergeBreakDetectorConfig Runs.shortWindows))
    /\ Forall (fun g => exists rep,
                 In rep (@rawBreaks RefHost.host Runs.droppingRates
                           (mergeBreakDetectorConfig Runs.shortWindows))
                 /\ g = filter (sameGroupb rep)
                          (@rawBreaks RefHost.host Runs.droppingRates
                             (mergeBreakDetectorConfig Runs.shortWindows)))
              groups
    /\ Forall2 (fun g cs =>
                  @Clusters RefHost.host
                    (@sortByLocale RefHost.host _ Break.detectedDate g) cs)
               groups clusters
    /\ Forall2 (Forall2 isPeak) clusters peaks
    /\ Permutation (@detectBreaks RefHost.host Runs.droppingRates Runs.shortWindows)
                   (List.concat peaks)
    /\ Sorted (@dateOrdered RefHost.host)
              (@detectBreaks RefHost.host Runs.droppingRates Runs.shortWindows).
Proof.
  apply (@detectBreaks_deduplicates RefHost.host Runs.droppingRates Runs.shortWindows).
  exact compareStrings_antisym.
Defined.

(** C4 fails on a funnel id that contains ["|"]: the key of the group is
    split at every separator, so the snapshot of the funnel ["summer|sale"]
    on 2025-01-01 comes out as funnel ["summer"] on date ["sale"]. *)
Theorem buildSnapshots_splits_piped_funnelId (host : Host) :
  map (fun s => (FunnelSnapshot.funnelId s, FunnelSnapshot.date s,
                 FunnelSnapshot.stageCounts s IMPRESSION))
      (buildSnapshots [Runs.pipedEvent])
  = [("summer", "sale", 5%float)]%string.
Proof. reflexivity. Qed.

(** C9, as the specification has it, fails: the same breaks, changes and
    configuration diagnosed at two different instants give two different
    results, since each diagnosis is stamped with the clock. *)
Lemma analyzeCauses_depends_on_the_clock :
  ~ (forall (host : Host) breaks changes config (clock1 clock2 : Clock),
        option_map fst (analyzeCauses breaks changes config clock1)
        = option_map fst (analyzeCauses breaks changes config clock2)).
Proof.
  intros H.
  specialize (H RefHost.host [Runs.testBreak] [] None
                (RefHost.frozenClock "2025-01-16T09:00:00.000Z")
                (RefHost.frozenClock "2025-01-16T09:00:01.000Z")).
  vm_compute in H. discriminate H.
Qed.

(** C10, as stated, fails: on a series whose rates are negative the detector
    reports a rise from -0.5 to -0.25 as a drop, with a negative baseline
    rate, a negative absolute drop and a negative z-score. *)
Lemma detectBreaks_flags_a_rise_of_negative_rates :
  ~ (forall (host : Host) conversionRates config,
        (0 <? BreakDetectorConfig.minRelativeDrop
                (mergeBreakDetectorConfig config))%float = true ->
        Forall genuineDrop (detectBreaks conversionRates config)).
Proof.
  intros H.
  specialize (H RefHost.host Runs.negativeRates Runs.shortWindows eq_refl).
  assert (E : match @detectBreaks RefHost.host Runs.negativeRates Runs.shortWindows with
              | brk :: _ => (0 <? Break.baselineRate brk)%float = false
              | [] => False
              end) by (vm_compute; reflexivity).
  destruct (@detectBreaks RefHost.host Runs.negativeRates Runs.shortWindows)
    as [|brk rest]; [exact E|].
  apply Forall_inv in H. destruct H as [H _]. congruence.
Qed.

(** Non-negative rates alone do not make the z-score strictly positive: with
    [minZScore = 0] and a baseline whose standard deviation overflows, a
    break is reported with a z-score of zero. *)
Lemma detectBreaks_zero_zScore_on_overflow :
  ratesNonNegative Runs.hugeRates
  /\ exists brk,
       In brk (@detectBreaks RefHost.host Runs.hugeRates Runs.shortWindowsAnyZ)
       /\ (Break.zScore brk =? 0)%float = true.
Proof.
  split.
  - unfold ratesNonNegative. vm_compute. repeat constructor.
  - assert (E : match @detectBreaks RefHost.host Runs.hugeRates Runs.shortWindowsAnyZ with
                | brk :: _ => (Break.zScore brk =? 0)%float = true
                | [] => False
                end) by (vm_compute; reflexivity).
    destruct (@detectBreaks RefHost.host Runs.hugeRates Runs.shortWindowsAnyZ)
      as [|brk rest]; [contradiction|].
    exists brk. split; [now left | exact E].
Qed.

(** The theorem on genuine drops applies to the series with a drop. *)
Lemma detectBreaks_reports_genuine_drops_witness :
  ratesNonNegative Runs.droppingRates
  /\ (0 <? BreakDetectorConfig.minRelativeDrop
             (mergeBreakDetectorConfig Runs.shortWindows))%float = true
  /\ Forall
       (fun brk =>
          (0 <? Break.baselineRate brk)%float = true
          /\ (0 <? Break.absoluteDrop brk)%float = true
          /\ (Break.currentRate brk <? Break.baselineRate brk)%float = true
          /\ (0 <=? Break.zScore brk)%float = true
          /\ ((0 <? BreakDetectorConfig.minZScore
                      (mergeBreakDetectorConfig Runs.shortWindows))%float = true ->
              (0 <? Break.zScore brk)%float = true))
       (@detectBreaks RefHost.host Runs.droppingRates Runs.shortWindows).
Proof.
  assert (H1 : ratesNonNegative Runs.droppingRates).
  { unfold ratesNonNegative. vm_compute. repeat constructor. }
  split; [exact H1|]. split; [reflexivity|].
  exact (@detectBreaks_reports_genuine_drops RefHost.host Runs.droppingRates
           Runs.shortWindows H1 eq_refl).
Defined.

(** ** The regression scenario, end to end *)

(** With the default configuration the drop from 900 to 400 landings is
    reported once, at its peak, as a critical break of the click-to-landing
    rate with a relative drop above the threshold. *)
Example regression_is_detected :
  exists brk,
    @detectBreaks RefHost.host Runs.regressionRates None = [brk]
    /\ Break.funnelId brk = "test-funnel"%string
    /\ Break.fromStage brk = CLICK /\ Break.toStage brk = LANDING
    /\ Break.detectedDate brk = "2025-01-21"%string
    /\ Break.severity brk = CRITICAL
    /\ (0.15 <? Break.relativeDrop brk)%float = true.
Proof.
  assert (E : match @detectBreaks RefHost.host Runs.regressionRates None with
              | [brk] =>
                  Break.funnelId brk = "test-funnel"%string
                  /\ Break.fromStage brk = CLICK /\ Break.toStage brk = LANDING
                  /\ Break.detectedDate brk = "2025-01-21"%string
                  /\ Break.severity brk = CRITICAL
                  /\ (0.15 <? Break.relativeDrop brk)%float = true
              | _ => False
              end) by (vm_compute; repeat split).
  destruct (@detectBreaks RefHost.host Runs.regressionRates None)
    as [|brk [|? ?]]; try contradiction.
  exists brk. split; [reflexivity | exact E].
Qed.

(** The site change deployed on the day of the peak is identified as its
    cause, with a confidence of at least 0.6. *)
Example regression_is_diagnosed :
  exists diagnosis cause clock,
    @analyzeCauses RefHost.host
      (@detectBreaks RefHost.host Runs.regressionRates None)
      [Runs.landingDeploy] None
      (RefHost.frozenClock "2025-01-24T08:00:00.000Z")
    = Some ([diagnosis], clock)
    /\ Diagnosis.diagnosisStatus diagnosis = IDENTIFIED
    /\ Diagnosis.causes diagnosis = [cause]
    /\ CauseCandidate.changeCategory cause = SITE
    /\ (0.6 <=? CauseCandidate.confidence cause)%float = true.
Proof.
  assert (E : match @analyzeCauses RefHost.host
                      (@detectBreaks RefHost.host Runs.regressionRates None)
                      [Runs.landingDeploy] None
                      (RefHost.frozenClock "2025-01-24T08:00:00.000Z") with
              | Some ([diagnosis], _) =>
                  match Diagnosis.causes diagnosis with
                  | [cause] =>
                      Diagnosis.diagnosisStatus diagnosis = IDENTIFIED
                      /\ CauseCandidate.changeCategory cause = SITE
                      /\ (0.6 <=? CauseCandidate.confidence cause)%float = true
                  | _ => False
                  end
              | _ => False
              end) by (vm_compute; repeat split).
  destruct (@analyzeCauses RefHost.host
              (@detectBreaks RefHost.host Runs.regressionRates None)
              [Runs.landingDeploy] None
              (RefHost.frozenClock "2025-01-24T08:00:00.000Z"))
    as [[[|diagnosis [|? ?]] clock]|]; try contradiction.
  destruct (Diagnosis.causes diagnosis) as [|cause [|? ?]] eqn:Hc;
    try contradiction.
  destruct E as (H1 & H2 & H3).
  exists diagnosis, cause, clock. repeat split; assumption.
Qed.

(** Without any recorded change the break is diagnosed as unknown. *)
Example regression_without_changes_is_unknown :
  option_map
    (fun result => map Diagnosis.diagnosisStatus (fst result))
    (@analyzeCauses RefHost.host
       (@detectBreaks RefHost.host Runs.regressionRates None) [] None
       (RefHost.frozenClock "2025-01-24T08:00:00.000Z"))
  = Some [UNKNOWN].
Proof. vm_compute. reflexivity. Qed.

(** ** The further theorems on the reference host *)

(** Raising the thresholds on a series with a drop: the flags under [strict]
    are flags under [loose]. *)
Lemma stricter_thresholds_flag_less_witness :
  Forall
    (fun brk =>
       In brk (@detectBreaksInSeries RefHost.host
                 (Series.firstDays ++ [Series.fifthDay]) "camp-a" CLICK LANDING
                 Series.loose))
    (@detectBreaksInSeries RefHost.host
       (Series.firstDays ++ [Series.fifthDay]) "camp-a" CLICK LANDING
       Series.strict).
Proof.
  apply Forall_forall.
  apply (@stricter_thresholds_flag_less RefHost.host
           (Series.firstDays ++ [Series.fifthDay]) "camp-a" CLICK LANDING
           Series.loose Series.strict); reflexivity.
Defined.

(** The fifth day leaves the flags of the first four as they were. *)
Lemma later_day_keeps_earlier_flags_witness :
  @detectBreaksInSeries RefHost.host (Series.firstDays ++ [Series.fifthDay])
    "camp-a" CLICK LANDING Series.loose
  = @detectBreaksInSeries RefHost.host Series.firstDays "camp-a" CLICK LANDING
      Series.loose
    ++ match @detectAt RefHost.host (Series.firstDays ++ [Series.fifthDay])
               "camp-a" CLICK LANDING Series.loose Series.fifthDay with
       | Some brk => [brk]
       | None => []
       end.
Proof.
  apply (@later_day_keeps_earlier_flags RefHost.host Series.firstDays
           Series.fifthDay "camp-a" CLICK LANDING Series.loose).
  - reflexivity.
  - repeat constructor.
Defined.

(** A drop of 50% at a z-score of 4 is not less severe than a drop of 10% at
    a z-score of 1. *)
Lemma classifySeverity_monotone_witness :
  (severityRank (classifySeverity 0.1 1)
   <= severityRank (classifySeverity 0.5 4))%nat.
Proof.
  apply (classifySeverity_monotone 0.1 1 0.5 4); reflexivity.
Defined.


(** The dropping series, from its events to its breaks. *)
Lemma pipeline_reports_genuine_drops_witness :
  Forall (fun e => (0 <=? Event.count e)%float = true) Runs.droppingEvents
  /\ Forall
       (fun brk =>
          (0 <? Break.baselineRate brk)%float = true
          /\ (0 <? Break.absoluteDrop brk)%float = true
          /\ (Break.currentRate brk <? Break.baselineRate brk)%float = true
          /\ (0 <=? Break.zScore brk)%float = true
          /\ ((0 <? BreakDetectorConfig.minZScore
                      (mergeBreakDetectorConfig Runs.shortWindows))%float = true ->
              (0 <? Break.zScore brk)%float = true))
       (@detectBreaks RefHost.host
          (calculateConversionRates (@buildSnapshots RefHost.host Runs.droppingEvents))
          Runs.shortWindows).
Proof.
  assert (H : Forall (fun e => (0 <=? Event.count e)%float = true)
                     Runs.droppingEvents) by (repeat constructor).
  split; [exact H|].
  exact (@pipeline_reports_genuine_drops RefHost.host Runs.droppingEvents
           Runs.shortWindows H eq_refl).
Defined.

(** The two changes of the regression scenario, in either order. *)
Lemma diagnosis_independent_of_change_order_witness :
  exists ds ds' rest rest',
    @analyzeCauses RefHost.host [Runs.testBreak]
      [Series.adRefresh; Series.landingRedesign] None
      (RefHost.frozenClock "2025-01-16T09:00:00.000Z") = Some (ds, rest)
    /\ @analyzeCauses RefHost.host [Runs.testBreak]
         [Series.landingRedesign; Series.adRefresh] None
         (RefHost.frozenClock "2025-01-16T09:00:00.000Z") = Some (ds', rest')
    /\ Forall2
         (fun d d' =>
            Diagnosis.break d = Diagnosis.break d'
            /\ Diagnosis.diagnosisStatus d = Diagnosis.diagnosisStatus d'
            /\ Permutation (Diagnosis.causes d) (Diagnosis.causes d'))
         ds ds'
    /\ map Diagnosis.diagnosisStatus ds = [IDENTIFIED]
    /\ map (fun d => map CauseCandidate.changeDescription (Diagnosis.causes d)) ds
       = [["Redesigned the landing page"; "Refreshed ad creatives"]]%string.
Proof.
  destruct (@diagnosis_independent_of_change_order RefHost.host [Runs.testBreak]
              [Series.adRefresh; Series.landingRedesign]
              [Series.landingRedesign; Series.adRefresh] None
              (RefHost.frozenClock "2025-01-16T09:00:00.000Z")
              (perm_swap _ _ _))
    as (ds & ds' & rest & rest' & Hrun & Hrun' & HF).
  exists ds, ds', rest, rest'.
  split; [exact Hrun|]. split; [exact Hrun'|]. split; [exact HF|].
  vm_compute in Hrun. injection Hrun as <- _. split; reflexivity.
Defined.

(** The regression scenario read from its two files. *)
Lemma runDiagnosis_reports_genuine_drops_witness :
  match @runDiagnosis RefHost.host RefPlatform.runtime
         (RefPlatform.platform Files.disk)
          Files.regressionConfig
          (RefHost.frozenClock "2025-01-24T08:00:00.000Z")
          (RefPlatform.steadyTimer 1000 7) with
  | Thrown _ => True
  | Returned (result, _, _) =>
      Forall
        (fun d =>
           let brk := Diagnosis.break d in
           (0 <? Break.baselineRate brk)%float = true
           /\ (0 <? Break.absoluteDrop brk)%float = true
           /\ (Break.currentRate brk <? Break.baselineRate brk)%float = true
           /\ (0 <=? Break.zScore brk)%float = true
           /\ ((0 <? BreakDetectorConfig.minZScore
                       (mergeBreakDetectorConfig
                          (DiagnosisServiceConfig.breakDetectorConfig
                             Files.regressionConfig)))%float = true ->
               (0 <? Break.zScore brk)%float = true))
        (DiagnosisResult.diagnoses result)
  end.
Proof.
  apply (@runDiagnosis_reports_genuine_drops RefHost.host RefPlatform.runtime
           (RefPlatform.platform Files.disk) Files.regressionConfig
           (RefHost.frozenClock "2025-01-24T08:00:00.000Z")
           (RefPlatform.steadyTimer 1000 7)).
  reflexivity.
Defined.

(** On those files the service loads the 115 valid lines, reports the two
    invalid lines of the events file and the invalid line of the changes
    file, and identifies the cause of the one break it detects. *)
Example runDiagnosis_on_the_regression_files :
  exists result clock timer,
    @runDiagnosis RefHost.host RefPlatform.runtime
         (RefPlatform.platform Files.disk)
      Files.regressionConfig
      (RefHost.frozenClock "2025-01-24T08:00:00.000Z")
      (RefPlatform.steadyTimer 1000 7)
    = Returned (result, clock, timer)
    /\ Metadata.eventsLoaded (DiagnosisResult.metadata result) = 115%nat
    /\ Metadata.changesLoaded (DiagnosisResult.metadata result) = 1%nat
    /\ Metadata.breaksDetected (DiagnosisResult.metadata result) = 1%nat
    /\ map LoaderError.line (Metadata.loadErrors (DiagnosisResult.metadata result))
       = [117; 118; 3]%nat
    /\ map Diagnosis.diagnosisStatus (DiagnosisResult.diagnoses result)
       = [IDENTIFIED].
Proof.
  destruct (@runDiagnosis RefHost.host RefPlatform.runtime
         (RefPlatform.platform Files.disk)
              Files.regressionConfig
              (RefHost.frozenClock "2025-01-24T08:00:00.000Z")
              (RefPlatform.steadyTimer 1000 7))
    as [[[result clock] timer]|message] eqn:E.
  - exists result, clock, timer. split; [reflexivity|].
    assert (H : match @runDiagnosis RefHost.host RefPlatform.runtime
         (RefPlatform.platform Files.disk)
                        Files.regressionConfig
                        (RefHost.frozenClock "2025-01-24T08:00:00.000Z")
                        (RefPlatform.steadyTimer 1000 7) with
                | Returned (r, _, _) =>
                    (Metadata.eventsLoaded (DiagnosisResult.metadata r),
                     Metadata.changesLoaded (DiagnosisResult.metadata r),
                     Metadata.breaksDetected (DiagnosisResult.metadata r),
                     map LoaderError.line
                       (Metadata.loadErrors (DiagnosisResult.metadata r)),
                     map Diagnosis.diagnosisStatus (DiagnosisResult.diagnoses r))
                    = (115, 1, 1, [117; 118; 3], [IDENTIFIED])%nat
                | Thrown _ => False
                end) by (vm_compute; reflexivity).
    rewrite E in H. injection H as H1 H2 H3 H4 H5. repeat split; assumption.
  - exfalso.
    assert (H : match @runDiagnosis RefHost.host RefPlatform.runtime
         (RefPlatform.platform Files.disk)
                        Files.regressionConfig
                        (RefHost.frozenClock "2025-01-24T08:00:00.000Z")
                        (RefPlatform.steadyTimer 1000 7) with
                | Returned _ => True
                | Thrown _ => False
                end) by (vm_compute; exact I).
    now rewrite E in H.
Qed.

(** A baseline window that is not a number: no break on the series with a
    drop. *)
Lemma detectBreaks_with_NaN_setting_witness :
  @detectBreaks RefHost.host Runs.droppingRates noBaseline = [].
Proof.
  apply (@detectBreaks_with_NaN_setting RefHost.host Runs.droppingRates noBaseline).
  reflexivity.
Defined.

(** The first day of the regression scenario, stored and read back. *)
Lemma stored_event_reads_back_witness :
  holdsEvent firstImpressionsRow (eventBindingOf firstImpressions)
  /\ exists back,
       @mapEventRows (RefPlatform.platform Files.disk) [firstImpressionsRow] = [back]
       /\ Event.id back = Some "1"%string
       /\ Event.count back = 10000%float
       /\ Event.source back = None.
Proof.
  assert (H : holdsEvent firstImpressionsRow (eventBindingOf firstImpressions))
    by (unfold holdsEvent; repeat split).
  split; [exact H|].
  destruct (@stored_event_reads_back RefHost.host (RefPlatform.platform Files.disk)
              firstImpressionsRow firstImpressions H)
    as (back & Hm & Hid & _ & _ & _ & Hc & Hs & _).
  exists back. split; [exact Hm|]. split; [exact Hid|]. split; [exact Hc | exact Hs].
Defined.

(** The deployment of the regression scenario, stored and read back. *)
Lemma stored_change_reads_back_witness :
  holdsChange landingDeployRow (changeBindingOf Runs.landingDeploy)
  /\ Forall plainStage (orElse (Change.affectedStages Runs.landingDeploy) [])
  /\ exists back,
       @mapChangeRows (RefPlatform.platform Files.disk) [landingDeployRow] = [back]
       /\ Change.id back = Some "1"%string
       /\ Change.affectedStages back = Some ["landing"%string].
Proof.
  assert (H1 : holdsChange landingDeployRow (changeBindingOf Runs.landingDeploy))
    by (unfold holdsChange; repeat split).
  assert (H2 : Forall plainStage
                 (orElse (Change.affectedStages Runs.landingDeploy) [])).
  { constructor; [|constructor]. split; [discriminate | reflexivity]. }
  split; [exact H1|]. split; [exact H2|].
  destruct (@stored_change_reads_back RefHost.host (RefPlatform.platform Files.disk)
              landingDeployRow Runs.landingDeploy H1 H2)
    as (back & Hm & Hid & _ & _ & _ & _ & _ & Ha & _).
  exists back. split; [exact Hm|]. split; [exact Hid | exact Ha].
Defined.

(** The two flags that the click-to-landing series of the dropping events
    raises do not fit a call of one argument: [detectBreaks] throws there,
    and returns on the reference engine. *)
Example detectBreaks_throws_beyond_the_argument_limit :
  @detectBreaksOutcome RefHost.host oneArgument Runs.droppingRates
    Runs.shortWindows
  = Thrown "Maximum call stack size exceeded"%string
  /\ @detectBreaksOutcome RefHost.host RefPlatform.runtime Runs.droppingRates
       Runs.shortWindows
     = Returned (@detectBreaks RefHost.host Runs.droppingRates Runs.shortWindows).
Proof. split; vm_compute; reflexivity. Qed.

(** The events file of the regression scenario has two lines that do not
    load: on the engine of one argument [runDiagnosis] throws when it
    gathers them, and so does [runDiagnosisFromData] on the two flags of
    the dropping events. *)
Example runDiagnosis_throws_beyond_the_argument_limit :
  @runDiagnosis RefHost.host oneArgument (RefPlatform.platform Files.disk)
    Files.regressionConfig (RefHost.frozenClock "2025-01-24T08:00:00.000Z")
    (RefPlatform.steadyTimer 1000 7)
  = Thrown "Maximum call stack size exceeded"%string
  /\ @runDiagnosisFromData RefHost.host oneArgument Runs.droppingEvents []
       (Some (DiagnosisServiceConfig.mkEngines Runs.shortWindows None))
       (RefHost.frozenClock "2025-01-24T08:00:00.000Z")
       (RefPlatform.steadyTimer 1000 7)
     = Thrown "Maximum call stack size exceeded"%string.
Proof. split; vm_compute; reflexivity. Qed.
